(** * walletbot: the scheduled-payment engine of the wallet bot

    A shallow embedding of [src/walletbot.py]: the schedule parser, the
    next-execution calculator, the balance guard, the batch dispatcher, the
    due-payment tick and the notification outbox, with the properties the
    specification states about them.

    Conventions.
    - A [datetime] is the number of microseconds since 0001-01-01T00:00:00,
      the resolution of Python's naive [datetime]; valid values lie in
      [0, MAXDT).
    - Text is ASCII text.
    - Amounts in wei, nonces and fees are unbounded integers, as in Python.
    - The network, the clock, the database driver, the hand-off of
      notifications and the replies to the chat are an abstract world [W]
      with one operation per call the source makes; every operation may
      change the world and the fallible ones may raise. *)

From Stdlib Require Import ZArith List String Ascii Bool Lia.
Import ListNotations.
Open Scope string_scope.
Open Scope list_scope.
Open Scope Z_scope.

(** ** Results of fallible calls *)

Inductive res (A : Type) : Type :=
| Ok (a : A)
| Raise (e : string).
Arguments Ok {A} a.
Arguments Raise {A} e.

(** ** Dates and times (Python's [datetime] and [timedelta]) *)

Module Time.

Definition datetime := Z.

Definition USEC_PER_MINUTE : Z := 60000000.
Definition USEC_PER_HOUR : Z := 3600000000.
Definition USEC_PER_DAY : Z := 86400000000.
Definition USEC_PER_WEEK : Z := 7 * USEC_PER_DAY.

Definition is_leap (y : Z) : bool :=
  ((y mod 4 =? 0) && negb (y mod 100 =? 0)) || (y mod 400 =? 0).

Definition days_in_month (y m : Z) : Z :=
  if m =? 2 then (if is_leap y then 29 else 28)
  else if (m =? 4) || (m =? 6) || (m =? 9) || (m =? 11) then 30
  else 31.

Definition days_before_year (y : Z) : Z :=
  let y1 := y - 1 in y1 * 365 + y1 / 4 - y1 / 100 + y1 / 400.

Fixpoint days_before_month_from (y : Z) (m : nat) : Z :=
  match m with
  | O => 0
  | S k => days_before_month_from y k + days_in_month y (Z.of_nat (S k))
  end.

(** Days of year [y] that precede the first day of month [m]. *)
Definition days_before_month (y m : Z) : Z :=
  days_before_month_from y (Z.to_nat (m - 1)).

(** Proleptic Gregorian ordinal: 0001-01-01 is day 1. *)
Definition ymd2ord (y m d : Z) : Z :=
  days_before_year y + days_before_month y m + d.

(** [datetime(year, month, day, hour, minute)]; [None] is [ValueError]. *)
Definition datetime_new (y m d hh mm : Z) : option datetime :=
  if (1 <=? y) && (y <=? 9999) && (1 <=? m) && (m <=? 12)
     && (1 <=? d) && (d <=? days_in_month y m)
     && (0 <=? hh) && (hh <=? 23) && (0 <=? mm) && (mm <=? 59)
  then Some ((ymd2ord y m d - 1) * USEC_PER_DAY
             + hh * USEC_PER_HOUR + mm * USEC_PER_MINUTE)
  else None.

(** One past [datetime.max] (9999-12-31T23:59:59.999999). *)
Definition MAXDT : Z := 3652059 * USEC_PER_DAY.

Definition valid_datetime (t : datetime) : bool := (0 <=? t) && (t <? MAXDT).

(** The [.year] attribute, by the 400/100/4/1-year cycles of the calendar. *)
Definition year_of (t : datetime) : Z :=
  let n := t / USEC_PER_DAY in
  let n400 := n / 146097 in let r400 := n mod 146097 in
  let n100 := r400 / 36524 in let r100 := r400 mod 36524 in
  let n4 := r100 / 1461 in let r4 := r100 mod 1461 in
  let n1 := r4 / 365 in
  let y := n400 * 400 + n100 * 100 + n4 * 4 + n1 + 1 in
  if (n1 =? 4) || (n100 =? 4) then y - 1 else y.

(** [weekday()]: Monday is 0; day 1 of the calendar is a Monday. *)
Definition weekday (t : datetime) : Z := (t / USEC_PER_DAY) mod 7.

(** [t + timedelta(days=n)]; [timedelta] refuses more than 999999999 days
    and the sum must be a [datetime] again, else [OverflowError]. *)
Definition add_days (t : datetime) (n : Z) : res datetime :=
  if (Z.abs n <=? 999999999) then
    let r := t + n * USEC_PER_DAY in
    if valid_datetime r then Ok r else Raise "OverflowError"
  else Raise "OverflowError".

End Time.
Import Time.

(** ** Text primitives ([str.lower], [str.strip], [in], [re.search]) *)

Module Text.

(** [str.isspace] and the class [\s] on ASCII: TAB..CR, FS..US and space. *)
Definition is_space (c : ascii) : bool :=
  let n := Z.of_nat (nat_of_ascii c) in
  ((9 <=? n) && (n <=? 13)) || ((28 <=? n) && (n <=? 32)).

(** The class [\d] on ASCII. *)
Definition is_digit (c : ascii) : bool :=
  let n := Z.of_nat (nat_of_ascii c) in (48 <=? n) && (n <=? 57).

Definition lower_char (c : ascii) : ascii :=
  let n := nat_of_ascii c in
  if ((65 <=? n) && (n <=? 90))%nat then ascii_of_nat (n + 32) else c.

Fixpoint lower (s : string) : string :=
  match s with
  | EmptyString => EmptyString
  | String c r => String (lower_char c) (lower r)
  end.

Fixpoint lstrip (s : string) : string :=
  match s with
  | EmptyString => EmptyString
  | String c r => if is_space c then lstrip r else s
  end.

Fixpoint rstrip (s : string) : string :=
  match s with
  | EmptyString => EmptyString
  | String c r =>
      match rstrip r with
      | EmptyString => if is_space c then EmptyString else String c EmptyString
      | r' => String c r'
      end
  end.

Definition strip (s : string) : string := rstrip (lstrip s).

(** [sub in s]. *)
Fixpoint contains (sub s : string) : bool :=
  String.prefix sub s ||
  match s with
  | EmptyString => false
  | String _ r => contains sub r
  end.

(** [s.startswith(pre)], returning what follows the prefix. *)
Fixpoint drop_prefix (pre s : string) : option string :=
  match pre, s with
  | EmptyString, _ => Some s
  | String a p, String b r => if Ascii.eqb a b then drop_prefix p r else None
  | String _ _, EmptyString => None
  end.

(** The longest prefix whose characters satisfy [p], and the rest. *)
Fixpoint span (p : ascii -> bool) (s : string) : string * string :=
  match s with
  | EmptyString => (EmptyString, EmptyString)
  | String c r =>
      if p c then let (a, b) := span p r in (String c a, b)
      else (EmptyString, s)
  end.

Definition is_empty (s : string) : bool :=
  match s with EmptyString => true | _ => false end.

(** [int(digits)] for a string of ASCII digits. *)
Fixpoint int_of_digits_acc (acc : Z) (s : string) : Z :=
  match s with
  | EmptyString => acc
  | String c r =>
      int_of_digits_acc (10 * acc + (Z.of_nat (nat_of_ascii c) - 48)) r
  end.

Definition int_of_digits (s : string) : Z := int_of_digits_acc 0 s.

(** The pattern [every\s+(\d+)\s+days?] anchored at the head of [s]; the
    result is group 1.  The classes that follow one another are disjoint
    (space, digit, space, the letter d), so the greedy match is the only
    one and no backtracking can change it. *)
Definition match_every_days (s : string) : option string :=
  match drop_prefix "every" s with
  | None => None
  | Some r1 =>
      let (ws1, r2) := span is_space r1 in
      if is_empty ws1 then None else
      let (ds, r3) := span is_digit r2 in
      if is_empty ds then None else
      let (ws2, r4) := span is_space r3 in
      if is_empty ws2 then None else
      if String.prefix "day" r4 then Some ds else None
  end.

(** [re.search(r'every\s+(\d+)\s+days?', s)]: the leftmost match. *)
Fixpoint search_every_days (s : string) : option string :=
  match match_every_days s with
  | Some ds => Some ds
  | None =>
      match s with
      | EmptyString => None
      | String _ r => search_every_days r
      end
  end.

(** A greedy run of between [lo] and [hi] digits at the head of [s]. *)
Definition take_digits (lo hi : nat) (s : string) : option (string * string) :=
  let (ds, _) := span is_digit s in
  let k := Nat.min hi (String.length ds) in
  if (k <? lo)%nat then None
  else Some (substring 0 k s, substring k (String.length s - k) s).

Definition is_date_sep (c : ascii) : bool :=
  Ascii.eqb c "/"%char || Ascii.eqb c "-"%char.

Definition take_sep (s : string) : option string :=
  match s with
  | String c r => if is_date_sep c then Some r else None
  | EmptyString => None
  end.

(** The pattern [(\d{1,2})[/-](\d{1,2})[/-](\d{2,4})] anchored at the head
    of [s]; the result is groups 1, 2 and 3.  A group of one or two digits
    must be followed by a separator, so giving a digit back never helps. *)
Definition match_date (s : string) : option (string * string * string) :=
  match take_digits 1 2 s with
  | None => None
  | Some (g1, r1) =>
      match take_sep r1 with
      | None => None
      | Some r2 =>
          match take_digits 1 2 r2 with
          | None => None
          | Some (g2, r3) =>
              match take_sep r3 with
              | None => None
              | Some r4 =>
                  match take_digits 2 4 r4 with
                  | None => None
                  | Some (g3, _) => Some (g1, g2, g3)
                  end
              end
          end
      end
  end.

(** [re.search] of the date pattern: the leftmost match. *)
Fixpoint search_date (s : string) : option (string * string * string) :=
  match match_date s with
  | Some g => Some g
  | None =>
      match s with
      | EmptyString => None
      | String _ r => search_date r
      end
  end.

End Text.
Import Text.

(** ** Schedule parser and next-execution calculator *)

(** What [parse_schedule_string] hands back: a tuple whose shape depends on
    the form recognised, [(None, None)], or an [OverflowError] escaping from
    the date arithmetic. *)
Inductive parsed : Type :=
| PWeekly (cron : string)                     (* (cron, "weekly") *)
| PPeriodic (next_date : datetime) (days : Z) (* (next_date, "periodic", days) *)
| POneTime (scheduled_date : datetime)        (* (scheduled_date, "one-time") *)
| PNone                                       (* (None, None) *)
| PRaise (e : string).

Definition weekday_names : list string :=
  ["monday"; "tuesday"; "wednesday"; "thursday"; "friday"; "saturday";
   "sunday"].

Definition digit_string (d : Z) : string :=
  String (ascii_of_nat (48 + Z.to_nat d)) EmptyString.

(** The cron expression [f"0 12 * * {cron_weekday}"]. *)
Definition cron_of_weekday (cron_weekday : Z) : string :=
  append "0 12 * * " (digit_string cron_weekday).

(** The loop over [enumerate([...])]: the first day name, in list order,
    whose phrase occurs in the text. *)
Fixpoint find_weekday (i : Z) (days : list string) (s : string) : option Z :=
  match days with
  | [] => None
  | day :: rest =>
      if contains (append "every " day) s then Some ((i + 1) mod 7)
      else find_weekday (i + 1) rest s
  end.

Definition parse_schedule_string (now : datetime) (schedule_string : string)
  : parsed :=
  let s := strip (lower schedule_string) in
  match find_weekday 0 weekday_names s with
  | Some cron_weekday => PWeekly (cron_of_weekday cron_weekday)
  | None =>
      match search_every_days s with
      | Some g =>
          let days := int_of_digits g in
          match add_days now days with
          | Ok next_date => PPeriodic next_date days
          | Raise e => PRaise e
          end
      | None =>
          match search_date s with
          | Some (g1, g2, g3) =>
              let day := int_of_digits g1 in
              let month := int_of_digits g2 in
              let year := int_of_digits g3 in
              let year :=
                if year <? 100 then (year_of now / 100) * 100 + year
                else year in
              match datetime_new year month day 12 0 with
              | Some scheduled_date => POneTime scheduled_date
              | None => PNone
              end
          | None => PNone
          end
      end
  end.

(** Whether [parse_schedule_string] calls [datetime.now()]: it does for an
    "every N days" text and for a date with a year below 100, and for no
    other text; [now] plays no part in the result otherwise. *)
Definition parse_reads_clock (schedule_string : string) : bool :=
  let s := strip (lower schedule_string) in
  match find_weekday 0 weekday_names s with
  | Some _ => false
  | None =>
      match search_every_days s with
      | Some _ => true
      | None =>
          match search_date s with
          | Some (_, _, g3) => int_of_digits g3 <? 100
          | None => false
          end
      end
  end.

(** The value kept under ["schedule_value"]: a cron expression, a number of
    days, a (date, days) tuple or a date. *)
Inductive sched_value : Type :=
| SVCron (expr : string)
| SVDays (days : Z)
| SVTuple (next_date : datetime) (days : Z)
| SVDate (d : datetime).

(** The field after the prefix ["0 12 * * "], as a cron day of week
    (0 is Sunday). *)
Definition cron_dow (expr : string) : option Z :=
  match drop_prefix "0 12 * * " expr with
  | Some (String c EmptyString) =>
      let d := Z.of_nat (nat_of_ascii c) - 48 in
      if (0 <=? d) && (d <=? 6) then Some d else None
  | _ => None
  end.

(** [croniter(expr, start).get_next(datetime)] for the expressions this
    program builds, "0 12 * * d": the first instant strictly after [start]
    that falls at 12:00:00 on cron weekday [d].  Cron weekday [d] is
    Python weekday [(d + 6) mod 7]; the instants wanted are one week apart,
    the first of them [offset] after the calendar's origin. *)
Definition croniter_get_next (expr : string) (start : datetime)
  : res datetime :=
  match cron_dow expr with
  | None => Raise "CroniterBadCronError"
  | Some d =>
      let offset := ((d + 6) mod 7) * USEC_PER_DAY + 12 * USEC_PER_HOUR in
      let r := offset + ((start - offset) / USEC_PER_WEEK + 1) * USEC_PER_WEEK in
      if valid_datetime r then Ok r else Raise "OverflowError"
  end.

(** [calculate_next_execution]; [now] is the clock reading the function
    takes on entry.  [Ok None] is the final [return None].  The program
    only ever pairs a kind with a value of its own shape; with another
    shape the arithmetic raises (for a one-time schedule, on the first use
    of the value as a date). *)
Definition calculate_next_execution (now : datetime) (schedule_type : string)
    (schedule_value : sched_value) : res (option datetime) :=
  if String.eqb schedule_type "weekly" then
    match schedule_value with
    | SVCron expr =>
        match croniter_get_next expr now with
        | Ok t => Ok (Some t)
        | Raise e => Raise e
        end
    | _ => Raise "TypeError"
    end
  else if String.eqb schedule_type "periodic" then
    match schedule_value with
    | SVTuple next_date _ => Ok (Some next_date)
    | SVDays days =>
        match add_days now days with
        | Ok t => Ok (Some t)
        | Raise e => Raise e
        end
    | _ => Raise "TypeError"
    end
  else if String.eqb schedule_type "one-time" then
    match schedule_value with
    | SVDate d => Ok (Some d)
    | _ => Raise "TypeError"
    end
  else Ok None.

(** ** Documents and messages *)

(** The fee quote of [calculate_optimal_gas]: the legacy shape, with a
    ['gasPrice'] key, or the EIP-1559 shape. *)
Inductive gas_params : Type :=
| Legacy (gasPrice gasLimit : Z)
| Eip1559 (maxFeePerGas maxPriorityFeePerGas gasLimit : Z).

(** A transfer; [tx_fee] carries the fee fields of either shape and, with
    them, the ['gas'] limit. *)
Record tx : Type := mk_tx {
  tx_nonce : Z;
  tx_to : string;
  tx_value : Z;
  tx_fee : gas_params;
  tx_chainId : Z }.

Record wallet : Type := mk_wallet {
  w_user_id : string;
  w_address : string;
  w_private_key : string;
  w_username : option string }.

(** An outbox entry.  [n_id] is the ["_id"] key, a rendering of the clock
    reading taken when the entry was built; [None] is an absent key. *)
Record notification : Type := mk_notification {
  n_id : option datetime;
  n_type : string;
  n_amount : string;
  n_sender_username : string;
  n_tx_hash : option string;
  n_new_wallet : bool;
  n_wallet_address : option string;
  n_private_key : option string;
  n_timestamp : datetime }.

(** A scheduled payment.  [amount] is the decimal the user typed and
    [amount_wei] its value in wei ([w3.to_wei]). *)
Record payment : Type := mk_payment {
  p_id : Z;
  sender_id : string;
  sender_address : string;
  recipient_address : string;
  recipient_display : string;
  amount : string;
  amount_wei : Z;
  schedule_type : string;
  schedule_value : sched_value;
  next_execution : datetime;
  created_at : datetime;
  active : bool;
  is_new_wallet : bool;
  private_key : option string }.

(** One entry of the list a batch command prepares.  [r_private_key] is
    what [recipient.get("private_key")] reads: [None] when the key is
    absent or holds [None]. *)
Record recipient : Type := mk_recipient {
  r_address : string;
  r_display : string;
  r_amount : string;
  r_amount_wei : Z;
  r_is_new_wallet : bool;
  r_private_key : option string;
  r_username : option string }.

(** The four collections. *)
Record database : Type := mk_database {
  wallets : list wallet;
  username_mapping : list (string * string);
  pending_notifications : list (string * list notification);
  scheduled_payments : list payment }.

(** What the bot writes back to the chat, up to wording. *)
Inductive reply : Type :=
| RShortfall (required available : Z)
| RBatchResults (payments successful failed : Z)
| RText (tag : string).

(** The calls that matter to the properties below, in the order made. *)
Inductive event : Type :=
| EvTxCount (address : string) (answer : res Z)
| EvSubmit (t : tx) (answer : res string)
| EvHandOff (chat_id : string) (n : notification) (answer : res unit)
| EvReply (r : reply).

(** ** The world outside the process *)

Record World (W : Type) : Type := mk_World {
  clock : W -> datetime * W;                           (* datetime.now() *)
  get_balance : string -> W -> res Z * W;              (* w3.eth.get_balance *)
  get_transaction_count : string -> W -> res Z * W;
  optimal_gas : W -> res gas_params * W;               (* calculate_optimal_gas *)
  sign_and_send : tx -> string -> W -> res string * W; (* sign, submit, .hex() *)
  mongo : W -> res unit * W;                           (* one driver round trip *)
  send_message : string -> notification -> W -> res unit * W;
  chat_reply : reply -> W -> res unit * W;             (* a reply to the chat *)
  token_hex : W -> string * W;                         (* secrets.token_hex(32) *)
  address_of_key : string -> string;                   (* Account.from_key(k).address *)
  is_address : string -> bool }.                       (* w3.is_address *)

Arguments clock {W} _ _.
Arguments get_balance {W} _ _ _.
Arguments get_transaction_count {W} _ _ _.
Arguments optimal_gas {W} _ _.
Arguments sign_and_send {W} _ _ _ _.
Arguments mongo {W} _ _.
Arguments send_message {W} _ _ _ _.
Arguments chat_reply {W} _ _ _.
Arguments token_hex {W} _ _.
Arguments address_of_key {W} _ _.
Arguments is_address {W} _ _.

Record state (W : Type) : Type := mk_state {
  st_db : database;
  st_world : W;
  st_trace : list event }.
Arguments mk_state {W} _ _ _.
Arguments st_db {W} _.
Arguments st_world {W} _.
Arguments st_trace {W} _.

(** ** A state-and-exception monad for the handlers

    A raise keeps the effects that preceded it, as in Python. *)

Definition M (W A : Type) : Type := state W -> res A * state W.

Definition ret {W A} (a : A) : M W A := fun s => (Ok a, s).

Definition raise {W A} (e : string) : M W A := fun s => (Raise e, s).

Definition bind {W A B} (m : M W A) (k : A -> M W B) : M W B :=
  fun s =>
    match m s with
    | (Ok a, s') => k a s'
    | (Raise e, s') => (Raise e, s')
    end.

(** [try: m except Exception as e: h e]. *)
Definition try_except {W A} (m : M W A) (h : string -> M W A) : M W A :=
  fun s =>
    match m s with
    | (Ok a, s') => (Ok a, s')
    | (Raise e, s') => h e s'
    end.

Declare Scope monad_scope.
Delimit Scope monad_scope with monad.
Notation "x <- m ;; k" := (bind m (fun x => k))
  (at level 61, m at next level, right associativity) : monad_scope.
Notation "m ;;; k" := (bind m (fun _ => k))
  (at level 61, right associativity) : monad_scope.
Open Scope monad_scope.

Section Handlers.

Context {W : Type} (E : World W).


(** *** Calls into the world *)

Definition get_db : M W database := fun s => (Ok (st_db s), s).

Definition put_db (d : database) : M W unit :=
  fun s => (Ok tt, mk_state d (st_world s) (st_trace s)).

Definition log (ev : event) : M W unit :=
  fun s => (Ok tt, mk_state (st_db s) (st_world s) (st_trace s ++ [ev])).

(** Run a fallible operation of the world. *)
Definition call {A} (op : W -> res A * W) : M W A :=
  fun s =>
    let (r, w') := op (st_world s) in
    (r, mk_state (st_db s) w' (st_trace s)).

(** Run a fallible operation and record its answer. *)
Definition call_logged {A} (op : W -> res A * W) (ev : res A -> event)
  : M W A :=
  fun s =>
    let (r, w') := op (st_world s) in
    (r, mk_state (st_db s) w' (st_trace s ++ [ev r])).

Definition now : M W datetime :=
  fun s =>
    let (t, w') := clock E (st_world s) in
    (Ok t, mk_state (st_db s) w' (st_trace s)).

Definition new_token : M W string :=
  fun s =>
    let (k, w') := token_hex E (st_world s) in
    (Ok k, mk_state (st_db s) w' (st_trace s)).

Definition w3_get_balance (address : string) : M W Z :=
  call (get_balance E address).

Definition w3_get_transaction_count (address : string) : M W Z :=
  call_logged (get_transaction_count E address) (EvTxCount address).

Definition calculate_optimal_gas : M W gas_params := call (optimal_gas E).

(** [sign_transaction] followed by [send_raw_transaction]; the answer is
    [tx_hash.hex()]. *)
Definition send_transaction (t : tx) (key : string) : M W string :=
  call_logged (sign_and_send E t key) (EvSubmit t).

Definition bot_send_message (chat_id : string) (n : notification) : M W unit :=
  call_logged (send_message E chat_id n) (EvHandOff chat_id n).

(** [reply_text] and [edit_message_text]: what is shown is recorded; that
    the call may fail is left out of the handlers that use this form. *)
Definition reply_text (r : reply) : M W unit := log (EvReply r).

(** The same calls, and [bot.send_message] to the chat of the caller, with
    their failure: the call raises, or it goes through and what is shown
    is recorded.  The wallet commands, the listing of the scheduled
    payments and the confirmation of a payment are modelled with it: they
    write or pay before they answer, or answer outside any [try]. *)
Definition reply_or_raise (r : reply) : M W unit :=
  call (chat_reply E r) ;;; log (EvReply r).

(** [query.answer()], the acknowledgement of a click: it shows nothing, and
    it can raise. *)
Definition answer_query : M W unit :=
  call (chat_reply E (RText "callback answered")).

(** One round trip to the database: it raises, leaving the collections as
    they were, or it goes through. *)
Definition db_call : M W unit := call (mongo E).

(** *** The collections *)

Fixpoint find_wallet (user_id : string) (ws : list wallet) : option wallet :=
  match ws with
  | [] => None
  | w :: rest =>
      if String.eqb (w_user_id w) user_id then Some w
      else find_wallet user_id rest
  end.

(** [get_wallet]. *)
Definition get_wallet (user_id : string) : M W (option wallet) :=
  db_call ;;; d <- get_db ;; ret (find_wallet user_id (wallets d)).

Fixpoint find_mapping (username : string) (l : list (string * string))
  : option string :=
  match l with
  | [] => None
  | (u, uid) :: rest =>
      if String.eqb u username then Some uid else find_mapping username rest
  end.

(** [get_user_id_by_username]. *)
Definition get_user_id_by_username (username : string) : M W (option string) :=
  db_call ;;; d <- get_db ;;
  ret (find_mapping (lower username) (username_mapping d)).

(** The query [{"username": {"$regex": "^name$", "$options": "i"}}] on a
    name of letters, digits and underscores: equality up to case. *)
Fixpoint find_wallet_by_name (username : string) (ws : list wallet)
  : option wallet :=
  match ws with
  | [] => None
  | w :: rest =>
      match w_username w with
      | Some u =>
          if String.eqb (lower u) (lower username) then Some w
          else find_wallet_by_name username rest
      | None => find_wallet_by_name username rest
      end
  end.

(** [get_wallet_by_username]: the pair [(user_id, wallet)] or
    [(None, None)]. *)
Definition get_wallet_by_username (username : string)
  : M W (option string * option wallet) :=
  let fallback : M W (option string * option wallet) :=
    db_call ;;; d <- get_db ;;
    match find_wallet_by_name username (wallets d) with
    | Some w => ret (Some (w_user_id w), Some w)
    | None => ret (None, None)
    end in
  user_id <- get_user_id_by_username (lower username) ;;
  match user_id with
  | Some uid =>
      if is_empty uid then fallback
      else
        wallet <- get_wallet uid ;;
        match wallet with
        | Some w => ret (Some uid, Some w)
        | None => fallback
        end
  | None => fallback
  end.

Definition set_wallets (d : database) (ws : list wallet) : database :=
  mk_database ws (username_mapping d) (pending_notifications d)
    (scheduled_payments d).

Fixpoint upsert_wallet (w : wallet) (ws : list wallet) : list wallet :=
  match ws with
  | [] => [w]
  | x :: rest =>
      if String.eqb (w_user_id x) (w_user_id w) then w :: rest
      else x :: upsert_wallet w rest
  end.

(** [save_wallet]. *)
Definition save_wallet (w : wallet) : M W unit :=
  db_call ;;; d <- get_db ;; put_db (set_wallets d (upsert_wallet w (wallets d))).

Definition set_pending (d : database) (o : list (string * list notification))
  : database :=
  mk_database (wallets d) (username_mapping d) o (scheduled_payments d).

Fixpoint find_pending (username : string)
    (o : list (string * list notification)) : list notification :=
  match o with
  | [] => []
  | (u, ns) :: rest =>
      if String.eqb u username then ns else find_pending username rest
  end.

(** [get_pending_notifications]. *)
Definition get_pending_notifications (username : string)
  : M W (list notification) :=
  db_call ;;; d <- get_db ;;
  ret (find_pending (lower username) (pending_notifications d)).

(** [update_one(..., {"$push": ...}, upsert=True)]. *)
Fixpoint push_pending (username : string) (n : notification)
    (o : list (string * list notification))
  : list (string * list notification) :=
  match o with
  | [] => [(username, [n])]
  | (u, ns) :: rest =>
      if String.eqb u username then (u, ns ++ [n]) :: rest
      else (u, ns) :: push_pending username n rest
  end.

(** [save_pending_notification]. *)
Definition save_pending_notification (username : string) (n : notification)
  : M W unit :=
  db_call ;;; d <- get_db ;;
  put_db (set_pending d
            (push_pending (lower username) n (pending_notifications d))).

Definition has_id (notification_id : datetime) (n : notification) : bool :=
  match n_id n with
  | Some i => i =? notification_id
  | None => false
  end.

(** [update_one(..., {"$pull": {"notifications": {"_id": id}}})]: every
    entry of the first matching document that carries the id goes. *)
Fixpoint pull_pending (username : string) (notification_id : datetime)
    (o : list (string * list notification))
  : list (string * list notification) :=
  match o with
  | [] => []
  | (u, ns) :: rest =>
      if String.eqb u username
      then (u, filter (fun n => negb (has_id notification_id n)) ns) :: rest
      else (u, ns) :: pull_pending username notification_id rest
  end.

(** [remove_pending_notification]. *)
Definition remove_pending_notification (username : string)
    (notification_id : datetime) : M W unit :=
  db_call ;;; d <- get_db ;;
  put_db (set_pending d
            (pull_pending (lower username) notification_id
               (pending_notifications d))).

Definition set_payments (d : database) (ps : list payment) : database :=
  mk_database (wallets d) (username_mapping d) (pending_notifications d) ps.

(** The filter [{"next_execution": {"$lte": now}, "active": True}]. *)
Definition is_due (t : datetime) (p : payment) : bool :=
  (next_execution p <=? t) && active p.

(** [get_all_due_scheduled_payments]. *)
Definition get_all_due_scheduled_payments : M W (list payment) :=
  t <- now ;;
  db_call ;;; d <- get_db ;;
  ret (filter (is_due t) (scheduled_payments d)).

(** The two [update_data] dictionaries the program passes. *)
Inductive payment_update : Type :=
| SetActive (b : bool)                (* {"active": b} *)
| SetNextExecution (t : datetime).    (* {"next_execution": t} *)

Definition apply_update (u : payment_update) (p : payment) : payment :=
  match u with
  | SetActive b =>
      mk_payment (p_id p) (sender_id p) (sender_address p)
        (recipient_address p) (recipient_display p) (amount p) (amount_wei p)
        (schedule_type p) (schedule_value p) (next_execution p)
        (created_at p) b (is_new_wallet p) (private_key p)
  | SetNextExecution t =>
      mk_payment (p_id p) (sender_id p) (sender_address p)
        (recipient_address p) (recipient_display p) (amount p) (amount_wei p)
        (schedule_type p) (schedule_value p) t
        (created_at p) (active p) (is_new_wallet p) (private_key p)
  end.

(** [update_one({"_id": payment_id}, {"$set": update_data})]: the first
    document with the id. *)
Fixpoint update_payment (payment_id : Z) (u : payment_update)
    (ps : list payment) : list payment :=
  match ps with
  | [] => []
  | p :: rest =>
      if p_id p =? payment_id then apply_update u p :: rest
      else p :: update_payment payment_id u rest
  end.

(** [update_scheduled_payment]. *)
Definition update_scheduled_payment (payment_id : Z) (u : payment_update)
  : M W unit :=
  db_call ;;; d <- get_db ;;
  put_db (set_payments d (update_payment payment_id u (scheduled_payments d))).

(** A fresh [ObjectId]: one that no stored payment carries. *)
Definition fresh_id (ps : list payment) : Z :=
  1 + fold_right (fun p m => Z.max (p_id p) m) 0 ps.

Definition with_id (i : Z) (p : payment) : payment :=
  mk_payment i (sender_id p) (sender_address p)
    (recipient_address p) (recipient_display p) (amount p) (amount_wei p)
    (schedule_type p) (schedule_value p) (next_execution p)
    (created_at p) (active p) (is_new_wallet p) (private_key p).

(** [save_scheduled_payment]: the insert, then the two read-backs that
    only feed the log; an error in any of them is re-raised. *)
Definition save_scheduled_payment (payment_data : payment) : M W Z :=
  db_call ;;; d <- get_db ;;
  let payment_id := fresh_id (scheduled_payments d) in
  put_db (set_payments d
            (scheduled_payments d ++ [with_id payment_id payment_data])) ;;;
  db_call ;;;
  db_call ;;;
  ret payment_id.

(** [get_scheduled_payments]: the direct query; the regex query and the
    manual filter that follow an empty answer select by the same equality
    of strings.  Any error gives the empty list. *)
Definition get_scheduled_payments (user_id : string) : M W (list payment) :=
  try_except
    (db_call ;;; d <- get_db ;;
     let user_payments :=
       filter (fun p => String.eqb (sender_id p) user_id)
         (scheduled_payments d) in
     db_call ;;;
     match user_payments with
     | [] => db_call ;;; ret user_payments
     | _ => ret user_payments
     end)
    (fun _ => ret []).

(** *** Fees *)


(** The branch on ['gasPrice' in gas_params] that every sender repeats. *)
Definition estimated_gas_cost_wei (g : gas_params) : Z :=
  match g with
  | Legacy gas_price gl => gas_price * gl
  | Eip1559 max_fee _ gl => max_fee * gl
  end.

(** [s.startswith('@')] and [s.lstrip('@')]. *)
Definition starts_with_at (s : string) : bool :=
  match s with
  | String c _ => Ascii.eqb c "@"%char
  | EmptyString => false
  end.

Fixpoint lstrip_at (s : string) : string :=
  match s with
  | String c r => if Ascii.eqb c "@"%char then lstrip_at r else s
  | EmptyString => EmptyString
  end.

(** [x or "Unknown"]. *)
Definition or_unknown (x : option string) : string :=
  match x with
  | Some u => if is_empty u then "Unknown" else u
  | None => "Unknown"
  end.

(** *** Notification outbox: the drain *)

(** The loop of [check_pending_notifications].  The default of
    [notification.get("_id", ...)] is evaluated on every turn, so the clock
    is read on every turn.  The two messages of the source differ in
    wording only; both hand the entry to the transport. *)
Fixpoint drain (chat_id username : string) (ns : list notification)
  : M W unit :=
  match ns with
  | [] => ret tt
  | n :: rest =>
      try_except
        (t <- now ;;
         let notification_id :=
           match n_id n with Some i => i | None => t end in
         if String.eqb (n_type n) "received_eth" then
           bot_send_message chat_id n ;;;
           remove_pending_notification username notification_id
         else ret tt)
        (fun _ => ret tt) ;;;
      drain chat_id username rest
  end.

(** [check_pending_notifications] for the user [chat_id], known to the
    chat under [username]. *)
Definition check_pending_notifications (chat_id : string)
    (username : option string) : M W unit :=
  match username with
  | None => ret tt
  | Some u =>
      if is_empty u then ret tt
      else
        let username := lower u in
        notifications <- get_pending_notifications username ;;
        drain chat_id username notifications
  end.

(** *** Batch dispatcher *)

(** One entry of [results]. *)
Inductive batch_result : Type :=
| BSuccess (recipient_name amount tx_hash : string) (is_new : bool)
    (address : string)
| BFailed (recipient_name amount error : string).

Definition is_success (r : batch_result) : bool :=
  match r with
  | BSuccess _ _ _ _ _ => true
  | BFailed _ _ _ => false
  end.

(** One turn of the loop over [enumerate(recipients, 1)].  The source
    appends the success entry inside the [try], before it writes the
    notification, and appends the failure entry in the [except]: the inner
    handler is the [except] reached after the success entry is in
    [results], the outer one the [except] reached before. *)
Definition batch_item (from_address key : string)
    (sender_username : option string) (i : Z) (r : recipient)
    (results : list batch_result) : M W (list batch_result) :=
  let display_name := r_display r in
  let failed e := BFailed display_name (r_amount r) e in
  try_except
    (count <- w3_get_transaction_count from_address ;;
     let nonce := count + i - 1 in
     gas <- calculate_optimal_gas ;;
     let t := mk_tx nonce (r_address r) (r_amount_wei r) gas 1 in
     tx_hash <- send_transaction t key ;;
     let results1 :=
       results ++ [BSuccess display_name (r_amount r) tx_hash
                     (r_is_new_wallet r) (r_address r)] in
     try_except
       ((if starts_with_at display_name then
           id <- now ;;
           ts <- now ;;
           let keyed :=
             r_is_new_wallet r &&
             match r_private_key r with
             | Some k => negb (is_empty k)
             | None => false
             end in
           save_pending_notification (lstrip_at display_name)
             (mk_notification (Some id) "received_eth" (r_amount r)
                (or_unknown sender_username) (Some tx_hash)
                (r_is_new_wallet r)
                (if keyed then Some (r_address r) else None)
                (if keyed then r_private_key r else None)
                ts)
         else ret tt) ;;;
        ret results1)
       (fun e => ret (results1 ++ [failed e])))
    (fun e => ret (results ++ [failed e])).

Fixpoint batch_loop (from_address key : string)
    (sender_username : option string) (i : Z) (rs : list recipient)
    (results : list batch_result) : M W (list batch_result) :=
  match rs with
  | [] => ret results
  | r :: rest =>
      results' <- batch_item from_address key sender_username i r results ;;
      batch_loop from_address key sender_username (i + 1) rest results'
  end.

Definition success_count (results : list batch_result) : Z :=
  Z.of_nat (List.length (filter is_success results)).

Definition failed_count (results : list batch_result) : Z :=
  Z.of_nat (List.length results) - success_count results.

(** [process_batch_transaction], once the stored batch has been found:
    [user_id] and [sender_username] are those of the confirming user.  The
    value returned is [results], which the source renders into the final
    message. *)
Definition process_batch_transaction (user_id : string)
    (sender_username : option string) (recipients : list recipient)
  : M W (list batch_result) :=
  wallet <- get_wallet user_id ;;
  match wallet with
  | None => reply_text (RText "wallet not found") ;;; ret []
  | Some w =>
      reply_text (RText "processing batch") ;;;
      results <- batch_loop (w_address w) (w_private_key w) sender_username
                   1 recipients [] ;;
      reply_text (RBatchResults (Z.of_nat (List.length results))
                    (success_count results) (failed_count results)) ;;;
      ret results
  end.

(** *** Due-payment tick *)

(** How the processing of one due record ends; the source writes it to the
    log.  The [except] of the loop is reached from two sides that the
    outcomes keep apart: [OError] from a step that comes before the store
    write is done, [OLateError] from the step that follows it. *)
Inductive outcome : Type :=
| ONoWallet                    (* "Wallet not found ..., skipping payment" *)
| OInsufficient                (* "Insufficient balance for scheduled payment" *)
| OUnknownType                 (* "Unknown schedule type" *)
| OCompleted (tx_hash : string)
| OError (e : string)          (* "Error processing scheduled payment" *)
| OLateError (tx_hash e : string).  (* the same line, after the store write *)

(** The body of the loop of [process_scheduled_payments] for the due
    record [p]; [has_bot] says whether a context came with the call, as it
    does when the job queue makes it.  With a context, the test
    [isinstance(context, ContextTypes.DEFAULT_TYPE)] that follows the store
    write raises [TypeError], a subscripted generic being no class for
    [isinstance]: the message to the sender is never sent and the [except]
    of the loop logs the error. *)
Definition dispatch_due (has_bot : bool) (p : payment) : M W outcome :=
  try_except
    (wallet <- get_wallet (sender_id p) ;;
     match wallet with
     | None => ret ONoWallet
     | Some w =>
         let from_address := w_address w in
         let display_name := recipient_display p in
         balance_wei <- w3_get_balance from_address ;;
         gas <- calculate_optimal_gas ;;
         if balance_wei <? amount_wei p + estimated_gas_cost_wei gas
         then ret OInsufficient
         else
           nonce <- w3_get_transaction_count from_address ;;
           let t := mk_tx nonce (recipient_address p) (amount_wei p) gas 1 in
           tx_hash <- send_transaction t (w_private_key w) ;;
           (if starts_with_at display_name then
              id <- now ;;
              ts <- now ;;
              save_pending_notification (lstrip_at display_name)
                (mk_notification (Some id) "received_eth" (amount p)
                   "Scheduled Payment" (Some tx_hash) (is_new_wallet p)
                   None None ts)
            else ret tt) ;;;
           let notify_sender : M W outcome :=
             if has_bot then ret (OLateError tx_hash "TypeError")
             else ret (OCompleted tx_hash) in
           if String.eqb (schedule_type p) "one-time" then
             update_scheduled_payment (p_id p) (SetActive false) ;;;
             notify_sender
           else if String.eqb (schedule_type p) "weekly" then
             t <- now ;;
             match schedule_value p with
             | SVCron expr =>
                 match croniter_get_next expr t with
                 | Ok next =>
                     update_scheduled_payment (p_id p) (SetNextExecution next) ;;;
                     notify_sender
                 | Raise e => raise e
                 end
             | _ => raise "TypeError"
             end
           else if String.eqb (schedule_type p) "periodic" then
             t <- now ;;
             match schedule_value p with
             | SVDays days =>
                 match add_days t days with
                 | Ok next =>
                     update_scheduled_payment (p_id p) (SetNextExecution next) ;;;
                     notify_sender
                 | Raise e => raise e
                 end
             | _ => raise "TypeError"
             end
           else ret OUnknownType
     end)
    (fun e => ret (OError e)).

Fixpoint process_due (has_bot : bool) (due : list payment)
  : M W (list (Z * outcome)) :=
  match due with
  | [] => ret []
  | p :: rest =>
      o <- dispatch_due has_bot p ;;
      os <- process_due has_bot rest ;;
      ret ((p_id p, o) :: os)
  end.

(** [process_scheduled_payments]: one tick.  The value returned pairs each
    due record's id with the line the source logs for it. *)
Definition process_scheduled_payments (has_bot : bool)
  : M W (list (Z * outcome)) :=
  due_payments <- get_all_due_scheduled_payments ;;
  process_due has_bot due_payments.

(** *** Recipient resolution, shared by the commands *)

(** [name.lower() == sender_username.lower()]; a sender without a username
    makes the comparison raise. *)
Definition is_own_username (sender_username : option string) (name : string)
  : M W bool :=
  match sender_username with
  | None => raise "AttributeError"
  | Some u => ret (String.eqb (lower name) (lower u))
  end.

(** ["0x" + secrets.token_hex(32)] and the address of the new account. *)
Definition new_wallet_key : M W (string * string) :=
  k <- new_token ;;
  let new_private_key := append "0x" k in
  ret (new_private_key, address_of_key E new_private_key).

(** *** Balance guard and the single payment *)

(** What [pay] leaves under [context.user_data["payment"]]. *)
Record pending_payment : Type := mk_pending_payment {
  pp_from_address : string;
  pp_private_key : string;
  pp_to_address : string;
  pp_display_name : string;
  pp_amount : string;
  pp_amount_wei : Z;
  pp_is_new_wallet : bool;
  pp_notification : option notification }.

Inductive pay_outcome : Type :=
| PayRefused                      (* own name, or not an address *)
| PayShortfall (required available : Z)
| PayPending (p : pending_payment).

(** The tail of [pay], from "Check sender's balance" on. *)
Definition pay_guard (w : wallet) (amount : string) (amount_wei : Z)
    (to_address display_name : string) (is_new : bool)
    (n : option notification) : M W pay_outcome :=
  balance_wei <- w3_get_balance (w_address w) ;;
  gas <- calculate_optimal_gas ;;
  let estimated := estimated_gas_cost_wei gas in
  if balance_wei <? amount_wei + estimated then
    reply_text (RShortfall (amount_wei + estimated) balance_wei) ;;;
    ret (PayShortfall (amount_wei + estimated) balance_wei)
  else
    reply_text (RText "confirm transaction") ;;;
    ret (PayPending
           (mk_pending_payment (w_address w) (w_private_key w) to_address
              display_name amount amount_wei is_new n)).

(** [pay], once the sender's wallet [w] and the two arguments are there. *)
Definition pay (sender_username : option string) (w : wallet)
    (recipient_arg amount : string) (amount_wei : Z) : M W pay_outcome :=
  if starts_with_at recipient_arg then
    let username := lstrip_at recipient_arg in
    own <- is_own_username sender_username username ;;
    if own then reply_text (RText "cannot pay yourself") ;;; ret PayRefused
    else
      found <- get_wallet_by_username username ;;
      let display_name := append "@" username in
      match snd found with
      | None =>
          kp <- new_wallet_key ;;
          id <- now ;;
          ts <- now ;;
          pay_guard w amount amount_wei (snd kp) display_name true
            (Some (mk_notification (Some id) "received_eth" amount
                     (or_unknown sender_username) None true
                     (Some (snd kp)) (Some (fst kp)) ts))
      | Some rw =>
          id <- now ;;
          ts <- now ;;
          pay_guard w amount amount_wei (w_address rw) display_name false
            (Some (mk_notification (Some id) "received_eth" amount
                     (or_unknown sender_username) None false None None ts))
      end
  else if is_address E recipient_arg then
    pay_guard w amount amount_wei recipient_arg recipient_arg false None
  else reply_text (RText "invalid address") ;;; ret PayRefused.

Definition with_tx_hash (h : string) (n : notification) : notification :=
  mk_notification (n_id n) (n_type n) (n_amount n) (n_sender_username n)
    (Some h) (n_new_wallet n) (n_wallet_address n) (n_private_key n)
    (n_timestamp n).

Definition ensure_0x (h : string) : string :=
  if String.prefix "0x" h then h else append "0x" h.

(** [confirm_payment] on the stored request; the value is the confirmation
    id, or [None] when the [except] branch answered.  The acknowledgement
    of the click and the processing message come before the [try]; the
    success message is sent inside it, before the notification is saved,
    and the error message from the [except] branch. *)
Definition confirm_payment (p : pending_payment) : M W (option string) :=
  answer_query ;;;
  reply_or_raise (RText "processing payment") ;;;
  try_except
    (gas <- calculate_optimal_gas ;;
     nonce <- w3_get_transaction_count (pp_from_address p) ;;
     let t := mk_tx nonce (pp_to_address p) (pp_amount_wei p) gas 1 in
     tx_hash <- send_transaction t (pp_private_key p) ;;
     let tx_hash_hex := ensure_0x tx_hash in
     reply_or_raise (RText "payment sent") ;;;
     match pp_notification p with
     | Some n =>
         save_pending_notification (lstrip_at (pp_display_name p))
           (with_tx_hash tx_hash_hex n)
     | None => ret tt
     end ;;;
     ret (Some tx_hash_hex))
    (fun e => reply_or_raise (RText "error sending transaction") ;;; ret None).

(** *** Batch commands *)

Inductive batch_outcome : Type :=
| BatchNoRecipients
| BatchShortfall (required available : Z)
| BatchPending (recipients : list recipient) (total_amount_wei total_gas_wei : Z).

Definition sum_amounts (rs : list recipient) : Z :=
  fold_right (fun r acc => r_amount_wei r + acc) 0 rs.

(** The tail the two batch commands share, from "Check sender's balance"
    on. *)
Definition batch_guard (w : wallet) (processed : list recipient)
  : M W batch_outcome :=
  match processed with
  | [] => reply_text (RText "no valid recipients") ;;; ret BatchNoRecipients
  | _ =>
      balance_wei <- w3_get_balance (w_address w) ;;
      gas <- calculate_optimal_gas ;;
      let estimated := estimated_gas_cost_wei gas in
      let total_amount_wei := sum_amounts processed in
      let total_gas_wei := estimated * Z.of_nat (List.length processed) in
      let total_cost_wei := total_amount_wei + total_gas_wei in
      if balance_wei <? total_cost_wei then
        reply_text (RShortfall total_cost_wei balance_wei) ;;;
        ret (BatchShortfall total_cost_wei balance_wei)
      else
        reply_text (RText "confirm batch transaction") ;;;
        ret (BatchPending processed total_amount_wei total_gas_wei)
  end.

(** The loop of [batch_payment] over the recipients named on the command
    line; entries it skips get a reply and no place in the list. *)
Fixpoint batch_resolve (sender_username : option string)
    (amount : string) (amount_wei : Z) (names : list string)
  : M W (list recipient) :=
  match names with
  | [] => ret []
  | name :: rest =>
      let name := strip name in
      if starts_with_at name then
        let username_to_send := lstrip_at name in
        own <- is_own_username sender_username username_to_send ;;
        if own then
          reply_text (RText "cannot pay yourself, skipping") ;;;
          batch_resolve sender_username amount amount_wei rest
        else
          found <- get_wallet_by_username username_to_send ;;
          let display_name := append "@" username_to_send in
          match snd found with
          | None =>
              kp <- new_wallet_key ;;
              match fst found with
              | Some uid =>
                  if is_empty uid then ret tt
                  else
                    now ;;;
                    save_wallet (mk_wallet uid (snd kp) (fst kp)
                                   (Some username_to_send))
              | None => ret tt
              end ;;;
              others <- batch_resolve sender_username amount amount_wei rest ;;
              ret (mk_recipient (snd kp) display_name amount amount_wei true
                     (Some (fst kp)) (Some username_to_send) :: others)
          | Some rw =>
              others <- batch_resolve sender_username amount amount_wei rest ;;
              ret (mk_recipient (w_address rw) display_name amount amount_wei
                     false None (Some username_to_send) :: others)
          end
      else if is_address E name then
        others <- batch_resolve sender_username amount amount_wei rest ;;
        ret (mk_recipient name name amount amount_wei false None None :: others)
      else
        reply_text (RText "invalid address, skipping") ;;;
        batch_resolve sender_username amount amount_wei rest
  end.

(** [batch_payment], once the wallet and the arguments are there. *)
Definition batch_payment (sender_username : option string) (w : wallet)
    (names : list string) (amount : string) (amount_wei : Z)
  : M W batch_outcome :=
  processed <- batch_resolve sender_username amount amount_wei names ;;
  batch_guard w processed.

(** The loop of [batch_payment_multi] over the [recipient:amount] pairs
    that passed the format and amount checks.  The entry it appends has
    the five keys address, display, amount, amount_wei and is_new_wallet:
    the key generated for a new wallet is not among them. *)
Fixpoint batch_resolve_multi (sender_username : option string)
    (pairs : list (string * (string * Z))) : M W (list recipient) :=
  match pairs with
  | [] => ret []
  | (name, (amount, amount_wei)) :: rest =>
      if starts_with_at name then
        let username_to_send := lstrip_at name in
        own <- is_own_username sender_username username_to_send ;;
        if own then
          reply_text (RText "cannot pay yourself, skipping") ;;;
          batch_resolve_multi sender_username rest
        else
          found <- get_wallet_by_username username_to_send ;;
          let display_name := append "@" username_to_send in
          match snd found with
          | None =>
              kp <- new_wallet_key ;;
              others <- batch_resolve_multi sender_username rest ;;
              ret (mk_recipient (snd kp) display_name amount amount_wei true
                     None None :: others)
          | Some rw =>
              others <- batch_resolve_multi sender_username rest ;;
              ret (mk_recipient (w_address rw) display_name amount amount_wei
                     false None None :: others)
          end
      else if is_address E name then
        others <- batch_resolve_multi sender_username rest ;;
        ret (mk_recipient name name amount amount_wei false None None :: others)
      else
        reply_text (RText "invalid address, skipping") ;;;
        batch_resolve_multi sender_username rest
  end.

(** [batch_payment_multi], once the wallet and the pairs are there. *)
Definition batch_payment_multi (sender_username : option string) (w : wallet)
    (pairs : list (string * (string * Z))) : M W batch_outcome :=
  processed <- batch_resolve_multi sender_username pairs ;;
  batch_guard w processed.

(** *** Scheduling command *)

Inductive schedule_outcome : Type :=
| SchedRefused
| SchedSaveError
| SchedSaved (payment_id : Z) (next_execution : datetime).

(** The kind and the value [schedule_payment] keeps of a parse: for a
    periodic schedule the value is [extra[0]], the number of days. *)
Definition schedule_of_parsed (p : parsed) : option (string * sched_value) :=
  match p with
  | PWeekly cron => Some ("weekly", SVCron cron)
  | PPeriodic _ days => Some ("periodic", SVDays days)
  | POneTime d => Some ("one-time", SVDate d)
  | PNone => None
  | PRaise _ => None
  end.

(** The tail of [schedule_payment], from "Create the scheduled payment"
    on. *)
Definition schedule_store (user_id : string) (w : wallet)
    (amount : string) (amount_wei : Z) (stype : string) (svalue : sched_value)
    (next : datetime) (to_address display_name : string) (is_new : bool)
    (new_private_key : option string) : M W schedule_outcome :=
  created <- now ;;
  let key :=
    match new_private_key with
    | Some k => if is_new && negb (is_empty k) then Some k else None
    | None => None
    end in
  let payment_data :=
    mk_payment 0 user_id (w_address w) to_address display_name amount
      amount_wei stype svalue next created true is_new key in
  try_except
    (payment_id <- save_scheduled_payment payment_data ;;
     get_scheduled_payments user_id ;;;
     reply_text (RText "payment scheduled") ;;;
     ret (SchedSaved payment_id next))
    (fun e => reply_text (RText "error saving") ;;; ret SchedSaveError).

(** [schedule_payment], once the wallet and the three arguments are
    there.  The parser reads the clock for the texts that need it, the
    calculator on entry. *)
Definition schedule_payment (user_id : string)
    (sender_username : option string) (w : wallet)
    (recipient_arg amount : string) (amount_wei : Z) (schedule_str : string)
  : M W schedule_outcome :=
  t0 <- (if parse_reads_clock schedule_str then now else ret 0) ;;
  match parse_schedule_string t0 schedule_str with
  | PRaise e => raise e
  | parsed =>
      match schedule_of_parsed parsed with
      | None => reply_text (RText "invalid schedule format") ;;; ret SchedRefused
      | Some (stype, svalue) =>
          t1 <- now ;;
          match calculate_next_execution t1 stype svalue with
          | Raise e => raise e
          | Ok None =>
              reply_text (RText "no next execution") ;;; ret SchedRefused
          | Ok (Some next) =>
              if starts_with_at recipient_arg then
                let username_to_send := lstrip_at recipient_arg in
                own <- is_own_username sender_username username_to_send ;;
                if own then
                  reply_text (RText "cannot schedule to yourself") ;;;
                  ret SchedRefused
                else
                  found <- get_wallet_by_username username_to_send ;;
                  let display_name := append "@" username_to_send in
                  match snd found with
                  | None =>
                      kp <- new_wallet_key ;;
                      match fst found with
                      | Some uid =>
                          if is_empty uid then ret tt
                          else
                            now ;;;
                            save_wallet (mk_wallet uid (snd kp) (fst kp)
                                           (Some username_to_send))
                      | None => ret tt
                      end ;;;
                      schedule_store user_id w amount amount_wei stype svalue
                        next (snd kp) display_name true (Some (fst kp))
                  | Some rw =>
                      schedule_store user_id w amount amount_wei stype svalue
                        next (w_address rw) display_name false None
                  end
              else if is_address E recipient_arg then
                schedule_store user_id w amount amount_wei stype svalue
                  next recipient_arg recipient_arg false None
              else
                reply_text (RText "invalid address") ;;; ret SchedRefused
          end
      end
  end.

End Handlers.

(** ** A scripted world, to run the handlers on concrete inputs *)

Module Sim.

(** The clock advances by [s_step] at each reading.  A script lists the
    answers to the coming calls of its kind, [true] for a call that goes
    through and [false] for one that raises; a call beyond the script goes
    through.  With [s_mined_at_once] a transaction is mined as soon as it
    is accepted, so the transaction count follows. *)
Record sim : Type := mk_sim {
  s_now : datetime;
  s_step : Z;
  s_balance : Z;
  s_count : Z;
  s_mined_at_once : bool;
  s_gas : gas_params;
  s_mongo : list bool;
  s_submit : list bool;
  s_handoff : list bool;
  s_replies : list bool;
  s_keys : list string }.

Definition next_answer (script : list bool) : bool * list bool :=
  match script with
  | [] => (true, [])
  | b :: rest => (b, rest)
  end.

Definition sim_clock (w : sim) : datetime * sim :=
  (s_now w,
   mk_sim (s_now w + s_step w) (s_step w) (s_balance w) (s_count w)
     (s_mined_at_once w) (s_gas w) (s_mongo w) (s_submit w) (s_handoff w)
     (s_replies w) (s_keys w)).

Definition sim_mongo (w : sim) : res unit * sim :=
  let (ok, rest) := next_answer (s_mongo w) in
  (if ok then Ok tt else Raise "AutoReconnect",
   mk_sim (s_now w) (s_step w) (s_balance w) (s_count w)
     (s_mined_at_once w) (s_gas w) rest (s_submit w) (s_handoff w)
     (s_replies w) (s_keys w)).

Definition sim_submit (t : tx) (key : string) (w : sim) : res string * sim :=
  let (ok, rest) := next_answer (s_submit w) in
  (if ok then Ok (append "0xhash" (digit_string (tx_nonce t mod 10)))
   else Raise "submission refused",
   mk_sim (s_now w) (s_step w) (s_balance w)
     (if ok && s_mined_at_once w then s_count w + 1 else s_count w)
     (s_mined_at_once w) (s_gas w) (s_mongo w) rest (s_handoff w)
     (s_replies w) (s_keys w)).

Definition sim_handoff (chat_id : string) (n : notification) (w : sim)
  : res unit * sim :=
  let (ok, rest) := next_answer (s_handoff w) in
  (if ok then Ok tt else Raise "TimedOut",
   mk_sim (s_now w) (s_step w) (s_balance w) (s_count w)
     (s_mined_at_once w) (s_gas w) (s_mongo w) (s_submit w) rest
     (s_replies w) (s_keys w)).

Definition sim_reply (r : reply) (w : sim) : res unit * sim :=
  let (ok, rest) := next_answer (s_replies w) in
  (if ok then Ok tt else Raise "NetworkError",
   mk_sim (s_now w) (s_step w) (s_balance w) (s_count w)
     (s_mined_at_once w) (s_gas w) (s_mongo w) (s_submit w) (s_handoff w)
     rest (s_keys w)).

Definition sim_token (w : sim) : string * sim :=
  match s_keys w with
  | [] => ("00", w)
  | k :: rest =>
      (k, mk_sim (s_now w) (s_step w) (s_balance w) (s_count w)
            (s_mined_at_once w) (s_gas w) (s_mongo w) (s_submit w)
            (s_handoff w) (s_replies w) rest)
  end.

Definition world_with (clk : sim -> datetime * sim) : World sim :=
  mk_World sim
    clk
    (fun _ w => (Ok (s_balance w), w))
    (fun _ w => (Ok (s_count w), w))
    (fun w => (Ok (s_gas w), w))
    sim_submit
    sim_mongo
    sim_handoff
    sim_reply
    sim_token
    (fun k => append "addr-of-" k)
    (fun a => String.prefix "0x" a).

Definition world : World sim := world_with sim_clock.

(** 2025-06-04T09:30:00, a Wednesday. *)
Definition t_ref : datetime := 63884626200000000.

(** A world in which every call goes through: the clock starts at [t_ref]
    and advances by [step], the sender holds [balance] wei and has five
    transactions mined. *)
Definition quiet (step balance : Z) : sim :=
  mk_sim t_ref step balance 5 false (Legacy 10 21000) [] [] [] []
    ["a1"; "b2"].

Definition with_mongo (script : list bool) (w : sim) : sim :=
  mk_sim (s_now w) (s_step w) (s_balance w) (s_count w) (s_mined_at_once w)
    (s_gas w) script (s_submit w) (s_handoff w) (s_replies w) (s_keys w).

Definition with_submit (script : list bool) (w : sim) : sim :=
  mk_sim (s_now w) (s_step w) (s_balance w) (s_count w) (s_mined_at_once w)
    (s_gas w) (s_mongo w) script (s_handoff w) (s_replies w) (s_keys w).

Definition with_handoff (script : list bool) (w : sim) : sim :=
  mk_sim (s_now w) (s_step w) (s_balance w) (s_count w) (s_mined_at_once w)
    (s_gas w) (s_mongo w) (s_submit w) script (s_replies w) (s_keys w).

Definition with_replies (script : list bool) (w : sim) : sim :=
  mk_sim (s_now w) (s_step w) (s_balance w) (s_count w) (s_mined_at_once w)
    (s_gas w) (s_mongo w) (s_submit w) (s_handoff w) script (s_keys w).

Definition with_clock (t : datetime) (step : Z) (w : sim) : sim :=
  mk_sim t step (s_balance w) (s_count w) (s_mined_at_once w)
    (s_gas w) (s_mongo w) (s_submit w) (s_handoff w) (s_replies w) (s_keys w).

Definition mined_at_once (w : sim) : sim :=
  mk_sim (s_now w) (s_step w) (s_balance w) (s_count w) true
    (s_gas w) (s_mongo w) (s_submit w) (s_handoff w) (s_replies w) (s_keys w).

Definition alice : wallet := mk_wallet "1001" "0xA11CE" "0xkeyA" (Some "alice").

Definition empty_db : database := mk_database [alice] [("alice", "1001")] [] [].

Definition start (d : database) (w : sim) : state sim := mk_state d w [].

Definition db_with (ps : list payment) : database :=
  mk_database [alice] [("alice", "1001")] [] ps.

(** A one-time payment that fell due a day before [t_ref]. *)
Definition rent : payment :=
  mk_payment 1 "1001" "0xA11CE" "0xB0B" "0xB0B" "0.01" 1000 "one-time"
    (SVDate (t_ref - USEC_PER_DAY)) (t_ref - USEC_PER_DAY)
    (t_ref - 2 * USEC_PER_DAY) true false None.

(** A payment scheduled with "every 0 days" at [t_ref]. *)
Definition drip : payment :=
  mk_payment 2 "1001" "0xA11CE" "0xB0B" "0xB0B" "0.01" 1000 "periodic"
    (SVDays 0) t_ref t_ref true false None.

(** A payment scheduled with "every 3 days", due at [t_ref]. *)
Definition allowance : payment :=
  mk_payment 3 "1001" "0xA11CE" "0xB0B" "0xB0B" "0.01" 1000 "periodic"
    (SVDays 3) t_ref (t_ref - 3 * USEC_PER_DAY) true false None.

Definition rich : Z := 1000000000.

(** Three recipients named by address and one named by handle, who has a
    wallet. *)
Definition carol : recipient :=
  mk_recipient "0xCA401" "0xCA401" "0.01" 1000 false None None.

Definition dave : recipient :=
  mk_recipient "0xDA7E" "0xDA7E" "0.02" 2000 false None None.

Definition erin : recipient :=
  mk_recipient "0xE414" "0xE414" "0.03" 3000 false None None.

Definition bob : recipient :=
  mk_recipient "0xB0B" "@bob" "0.01" 1000 false None (Some "bob").

(** Two entries waiting for [bob]. *)
Definition note1 : notification :=
  mk_notification (Some (t_ref - 2)) "received_eth" "0.01" "alice"
    (Some "0xhash5") false None None (t_ref - 2).

Definition note2 : notification :=
  mk_notification (Some (t_ref - 1)) "received_eth" "0.02" "alice"
    (Some "0xhash6") false None None (t_ref - 1).

Definition db_outbox : database :=
  mk_database [alice] [("alice", "1001")] [("bob", [note1; note2])] [].

End Sim.

(** ** Lookups used to state the properties *)

(** The stored payment that carries an id. *)
Fixpoint find_payment (payment_id : Z) (ps : list payment) : option payment :=
  match ps with
  | [] => None
  | p :: rest =>
      if p_id p =? payment_id then Some p else find_payment payment_id rest
  end.

Definition payments_of {W} (s : state W) : list payment :=
  scheduled_payments (st_db s).

Definition outbox_of {W} (username : string) (s : state W)
  : list notification :=
  find_pending username (pending_notifications (st_db s)).

(** The transactions handed to the network in a trace, accepted or not. *)
Fixpoint submissions (tr : list event) : list tx :=
  match tr with
  | [] => []
  | EvSubmit t _ :: rest => t :: submissions rest
  | _ :: rest => submissions rest
  end.


(** The write a completed dispatch of [p] makes to its record: a one-time
    record is switched off, a weekly or periodic one gets the instant
    computed from a reading of the clock. *)
Definition reschedule {W} (E : World W) (p : payment) (u : payment_update)
  : Prop :=
  (schedule_type p = "one-time" /\ u = SetActive false)
  \/ (schedule_type p = "weekly" /\
      exists w expr next,
        schedule_value p = SVCron expr /\
        croniter_get_next expr (fst (clock E w)) = Ok next /\
        u = SetNextExecution next)
  \/ (schedule_type p = "periodic" /\
      exists w days next,
        schedule_value p = SVDays days /\
        add_days (fst (clock E w)) days = Ok next /\
        u = SetNextExecution next).

(** [after_ticks E b s s']: [s'] is reached from [s] by some number of
    ticks, the world being in any condition at the start of each. *)
Inductive after_ticks {W} (E : World W) (b : bool)
  : state W -> state W -> Prop :=
| ticks_none (s : state W) : after_ticks E b s s
| ticks_more (s s1 s2 : state W) (w : W) (r : res (list (Z * outcome))) :
    process_scheduled_payments E b (mk_state (st_db s) w (st_trace s))
    = (r, s1) ->
    after_ticks E b s1 s2 ->
    after_ticks E b s s2.

(** The number of transaction-count queries in a trace. *)
Fixpoint count_queries (tr : list event) : nat :=
  match tr with
  | [] => O
  | EvTxCount _ _ :: rest => S (count_queries rest)
  | _ :: rest => count_queries rest
  end.




(** The entries that pulls of the ids in [removed] leave in place. *)
Definition kept (removed : list datetime) (n : notification) : bool :=
  negb (existsb (fun i => has_id i n) removed).

(** The outcomes of a dispatch that sent its transaction and made its
    store write: the spec's successful dispatch.  With a context the
    processing of such a record still ends in the [except] of the loop. *)
Definition made_its_write (o : outcome) : bool :=
  match o with
  | OCompleted _ => true
  | OLateError _ _ => true
  | _ => false
  end.

(** The first 12:00:00 strictly after [t]. *)
Definition next_noon (t : datetime) : datetime :=
  ((t - 12 * USEC_PER_HOUR) / USEC_PER_DAY + 1) * USEC_PER_DAY
  + 12 * USEC_PER_HOUR.

(** [keeps E I]: none of the operations that a tick calls leads out of
    the worlds in [I]. *)
Definition keeps {W} (E : World W) (I : W -> Prop) : Prop :=
  (forall w, I w -> I (snd (clock E w)))
  /\ (forall a w, I w -> I (snd (get_balance E a w)))
  /\ (forall a w, I w -> I (snd (get_transaction_count E a w)))
  /\ (forall w, I w -> I (snd (optimal_gas E w)))
  /\ (forall t k w, I w -> I (snd (sign_and_send E t k w)))
  /\ (forall w, I w -> I (snd (mongo E w)))
  /\ (forall c n w, I w -> I (snd (send_message E c n w)))
  /\ (forall w, I w -> I (snd (token_hex E w))).

(** [within E n w0 w]: the world [w] is [w0] after at most [n] calls of
    the operations that a tick calls. *)
Inductive within {W} (E : World W) : nat -> W -> W -> Prop :=
| within_here (n : nat) (w : W) : within E n w w
| within_clock (n : nat) (w0 w : W) :
    within E n w0 w -> within E (S n) w0 (snd (clock E w))
| within_get_balance (n : nat) (w0 w : W) (a : string) :
    within E n w0 w -> within E (S n) w0 (snd (get_balance E a w))
| within_get_transaction_count (n : nat) (w0 w : W) (a : string) :
    within E n w0 w -> within E (S n) w0 (snd (get_transaction_count E a w))
| within_optimal_gas (n : nat) (w0 w : W) :
    within E n w0 w -> within E (S n) w0 (snd (optimal_gas E w))
| within_sign_and_send (n : nat) (w0 w : W) (t : tx) (k : string) :
    within E n w0 w -> within E (S n) w0 (snd (sign_and_send E t k w))
| within_mongo (n : nat) (w0 w : W) :
    within E n w0 w -> within E (S n) w0 (snd (mongo E w))
| within_send_message (n : nat) (w0 w : W) (c : string) (m : notification) :
    within E n w0 w -> within E (S n) w0 (snd (send_message E c m w))
| within_token_hex (n : nat) (w0 w : W) :
    within E n w0 w -> within E (S n) w0 (snd (token_hex E w)).

(** [reschedule], with the clock read in a world of [I]. *)
Definition reschedule_in {W} (E : World W) (I : W -> Prop) (p : payment)
    (u : payment_update) : Prop :=
  (schedule_type p = "one-time" /\ u = SetActive false)
  \/ (schedule_type p = "weekly" /\
      exists w expr next,
        I w /\ schedule_value p = SVCron expr /\
        croniter_get_next expr (fst (clock E w)) = Ok next /\
        u = SetNextExecution next)
  \/ (schedule_type p = "periodic" /\
      exists w days next,
        I w /\ schedule_value p = SVDays days /\
        add_days (fst (clock E w)) days = Ok next /\
        u = SetNextExecution next).

(** ** The remaining store helpers and commands *)

Section MoreHandlers.

Context {W : Type} (E : World W).

Definition set_mapping (d : database) (m : list (string * string))
  : database :=
  mk_database (wallets d) m (pending_notifications d) (scheduled_payments d).

(** [update_one({"username": name}, {"$set": {"user_id": id}},
    upsert=True)]. *)
Fixpoint upsert_mapping (username user_id : string)
    (l : list (string * string)) : list (string * string) :=
  match l with
  | [] => [(username, user_id)]
  | (u, uid) :: rest =>
      if String.eqb u username then (u, user_id) :: rest
      else (u, uid) :: upsert_mapping username user_id rest
  end.

(** [update_username_mapping]; [user_id] is [str(user_id)]. *)
Definition update_username_mapping (user_id : string)
    (username : option string) : M W unit :=
  match username with
  | None => ret tt
  | Some u =>
      if is_empty u then ret tt
      else
        db_call E ;;; d <- get_db ;;
        put_db (set_mapping d
                  (upsert_mapping (lower u) user_id (username_mapping d)))
  end.

(** The [$set] of [save_wallet] on a [wallet_data] that may lack the
    ["username"] key: the address and the key are overwritten, the
    username only when one is given. *)
Fixpoint set_wallet_fields (user_id address key : string)
    (username : option string) (ws : list wallet) : list wallet :=
  match ws with
  | [] => [mk_wallet user_id address key username]
  | x :: rest =>
      if String.eqb (w_user_id x) user_id then
        mk_wallet user_id address key
          (match username with
           | Some u => Some u
           | None => w_username x
           end) :: rest
      else x :: set_wallet_fields user_id address key username rest
  end.

(** [save_wallet(user_id, wallet_data)] for the [wallet_data] that
    [create_wallet] and [import_wallet] build. *)
Definition save_wallet_data (user_id address key : string)
    (username : option string) : M W unit :=
  db_call E ;;; d <- get_db ;;
  put_db (set_wallets d
            (set_wallet_fields user_id address key username (wallets d))).

(** [x if x else None] for a username: an empty one counts as absent. *)
Definition truthy (x : option string) : option string :=
  match x with
  | Some u => if is_empty u then None else Some u
  | None => None
  end.

(** [create_wallet].  [via_button] says whether the call came from the
    menu button rather than from the command; the value is the address and
    the key that the success message shows, once it and the message that
    follows it are sent.  No [try] is around the handler: the wallet is
    saved before the two messages are sent, and only the last edit, made
    for a button, is guarded. *)
Definition create_wallet (user_id : string) (username : option string)
    (via_button : bool) : M W (option (string * string)) :=
  update_username_mapping user_id username ;;;
  (if via_button then ret tt
   else check_pending_notifications E user_id username) ;;;
  existing_wallet <- get_wallet E user_id ;;
  match existing_wallet with
  | Some _ =>
      reply_or_raise E (RText "you already have a wallet") ;;; ret None
  | None =>
      (if via_button then
         answer_query E ;;;
         reply_or_raise E (RText "creating your wallet")
       else ret tt) ;;;
      kp <- new_wallet_key E ;;
      now E ;;;
      save_wallet_data user_id (snd kp) (fst kp) (truthy username) ;;;
      reply_or_raise E (RText "wallet created") ;;;
      reply_or_raise E (RText "what next") ;;;
      (if via_button then
         try_except (reply_or_raise E (RText "wallet created"))
           (fun _ => ret tt)
       else ret tt) ;;;
      ret (Some (snd kp, fst kp))
  end.

(** [import_wallet], once the debounce has let the call through.
    [key_ok] tells the keys [Account.from_key] accepts; on the others it
    raises.  The value is the address and the key that the success message
    shows, once it is sent; it is [None] when another message was the
    last one sent.  Inside the [try] the wallet is saved before the
    success message is sent. *)
Definition import_wallet (key_ok : string -> bool) (user_id : string)
    (username : option string) (args : list string)
  : M W (option (string * string)) :=
  update_username_mapping user_id username ;;;
  check_pending_notifications E user_id username ;;;
  match args with
  | [] => reply_or_raise E (RText "usage: /import key") ;;; ret None
  | private_key :: _ =>
      reply_or_raise E (RText "importing your wallet") ;;;
      if negb (String.prefix "0x" private_key)
         || negb (Nat.eqb (String.length private_key) 66)
      then reply_or_raise E (RText "invalid private key format") ;;; ret None
      else
        try_except
          ((if key_ok private_key then ret tt else raise "ValueError") ;;;
           now E ;;;
           save_wallet_data user_id (address_of_key E private_key)
             private_key (truthy username) ;;;
           reply_or_raise E (RText "wallet imported") ;;;
           ret (Some (address_of_key E private_key, private_key)))
          (fun _ =>
             reply_or_raise E (RText "error importing wallet") ;;; ret None)
  end.

(** The branch of [button_handler] for a ["cancel_scheduled_<id>"]
    button, once the debounce has let the click through and the id has
    been read off the button.  Nothing in it looks at who clicks. *)
Definition cancel_scheduled (user_id : string) (username : option string)
    (payment_id : Z) : M W unit :=
  update_username_mapping user_id username ;;;
  update_scheduled_payment E payment_id (SetActive false) ;;;
  reply_text (RText "scheduled payment cancelled").

(** [manage_scheduled_payments].  The value is the list of ids for which
    a cancel button is shown, in the order of the listing; it is empty
    when the answer is "no scheduled payments" or the apology of the
    catch-all [except].  The apology is itself a message that can fail to
    be sent, and then the handler raises. *)
Definition manage_scheduled_payments (user_id : string)
    (username : option string) (via_button : bool) : M W (list Z) :=
  try_except
    (update_username_mapping user_id username ;;;
     (if via_button then ret tt
      else check_pending_notifications E user_id username) ;;;
     payments <- get_scheduled_payments E user_id ;;
     let active_payments := filter active payments in
     match active_payments with
     | [] => reply_or_raise E (RText "no scheduled payments") ;;; ret []
     | _ =>
         reply_or_raise E (RText "your scheduled payments") ;;;
         ret (map p_id active_payments)
     end)
    (fun _ => reply_or_raise E (RText "something went wrong") ;;; ret []).

(** [start]. *)
Definition start_command (user_id : string) (username : option string)
  : M W unit :=
  match truthy username with
  | Some u =>
      update_username_mapping user_id (Some u) ;;;
      wallet <- get_wallet E user_id ;;
      match wallet with
      | Some w =>
          save_wallet_data user_id (w_address w) (w_private_key w) (Some u)
      | None => ret tt
      end
  | None => ret tt
  end ;;;
  check_pending_notifications E user_id username ;;;
  reply_text (RText "welcome").

End MoreHandlers.

(** ** More sample data *)

(** The scripted world with a database and a chat transport that never
    fail. *)
Definition steady : World Sim.sim :=
  mk_World Sim.sim
    Sim.sim_clock
    (fun _ w => (Ok (Sim.s_balance w), w))
    (fun _ w => (Ok (Sim.s_count w), w))
    (fun w => (Ok (Sim.s_gas w), w))
    Sim.sim_submit
    (fun w => (Ok tt, w))
    (fun _ _ w => (Ok tt, w))
    (fun _ w => (Ok tt, w))
    Sim.sim_token
    (fun k => append "addr-of-" k)
    (fun a => String.prefix "0x" a).

(** The entry [/batchpay] prepares for a [bob] without a wallet when the
    next token is ["a1"]. *)
Definition newcomer : recipient :=
  mk_recipient "addr-of-0xa1" "@bob" "0.01" 1000 true (Some "0xa1")
    (Some "bob").

(** A weekly payment for Mondays whose next execution is Monday
    2025-06-02 at noon, two days before [t_ref]. *)
Definition monday_noon : datetime := 63884462400000000.

Definition weekly_gift : payment :=
  mk_payment 5 "1001" "0xA11CE" "0xB0B" "0xB0B" "0.01" 1000 "weekly"
    (SVCron "0 12 * * 1") monday_noon (monday_noon - USEC_PER_WEEK)
    true false None.

(** ** More notions used to state properties *)

(** The transaction [t] pays the record [p]: to its recipient, its amount,
    on chain 1. *)
Definition pays (p : payment) (t : tx) : Prop :=
  tx_to t = recipient_address p /\ tx_value t = amount_wei p
  /\ tx_chainId t = 1.

(** [q] is [p] up to the two fields a dispatch or a cancellation writes. *)
Definition same_terms (p q : payment) : Prop :=
  p_id q = p_id p /\ sender_id q = sender_id p
  /\ sender_address q = sender_address p
  /\ recipient_address q = recipient_address p
  /\ recipient_display q = recipient_display p
  /\ amount q = amount p /\ amount_wei q = amount_wei p
  /\ schedule_type q = schedule_type p
  /\ schedule_value q = schedule_value p
  /\ created_at q = created_at p
  /\ is_new_wallet q = is_new_wallet p
  /\ private_key q = private_key p.

(** The transaction [t] pays the batch entry [r]. *)
Definition pays_recipient (r : recipient) (t : tx) : Prop :=
  tx_to t = r_address r /\ tx_value t = r_amount_wei r /\ tx_chainId t = 1.

(** The hand-offs of a trace, in order. *)
Fixpoint hand_offs (tr : list event) : list notification :=
  match tr with
  | [] => []
  | EvHandOff _ n _ :: rest => n :: hand_offs rest
  | _ :: rest => hand_offs rest
  end.

Definition deliverable (n : notification) : bool :=
  String.eqb (n_type n) "received_eth".

Definition known_kind (schedule_type : string) : bool :=
  String.eqb schedule_type "one-time" || String.eqb schedule_type "weekly"
  || String.eqb schedule_type "periodic".

(** What holds of a batch entry prepared for the sender [sender] over the
    wallets [ws]: an entry for a username is displayed under that name,
    which is not the sender's, and either is for a new wallet, holds its
    key and pays to the address of that key, or holds no key and pays to
    the address of a stored wallet; an entry for a literal address pays to
    that address, which passed the address check, and holds no key. *)
Definition well_prepared {W} (E : World W) (sender : option string)
    (ws : list wallet) (r : recipient) : Prop :=
  match r_username r with
  | Some name =>
      r_display r = append "@" name
      /\ (forall u, sender = Some u -> lower name <> lower u)
      /\ (if r_is_new_wallet r
          then exists k, r_private_key r = Some k
                         /\ r_address r = address_of_key E k
                         /\ String.prefix "0x" k = true
          else r_private_key r = None
               /\ exists rw, In rw ws /\ r_address r = w_address rw)
  | None =>
      r_display r = r_address r
      /\ is_address E (r_address r) = true
      /\ r_is_new_wallet r = false
      /\ r_private_key r = None
  end.

(** The transactions [ts] pay entries of [rs], each entry at most once, in
    the order of [rs]. *)
Inductive pays_in_order : list recipient -> list tx -> Prop :=
| pays_none : pays_in_order [] []
| pays_skip (r : recipient) (rs : list recipient) (ts : list tx) :
    pays_in_order rs ts -> pays_in_order (r :: rs) ts
| pays_next (r : recipient) (rs : list recipient) (t : tx) (ts : list tx) :
    pays_recipient r t -> pays_in_order rs ts ->
    pays_in_order (r :: rs) (t :: ts).

(** The transactions [ts] pay records of [due], each record at most once,
    in the order of [due]. *)
Inductive pays_due_in_order : list payment -> list tx -> Prop :=
| pays_due_none : pays_due_in_order [] []
| pays_due_skip (p : payment) (due : list payment) (ts : list tx) :
    pays_due_in_order due ts -> pays_due_in_order (p :: due) ts
| pays_due_next (p : payment) (due : list payment) (t : tx) (ts : list tx) :
    pays p t -> pays_due_in_order due ts ->
    pays_due_in_order (p :: due) (t :: ts).

(** The name and the amount an entry of the results is reported under. *)
Definition result_name (x : batch_result) : string :=
  match x with
  | BSuccess name _ _ _ _ => name
  | BFailed name _ _ => name
  end.

Definition result_amount (x : batch_result) : string :=
  match x with
  | BSuccess _ amount _ _ _ => amount
  | BFailed _ amount _ => amount
  end.

(** The transactions of a trace that the network accepted, in order. *)
Fixpoint accepted (tr : list event) : list tx :=
  match tr with
  | [] => []
  | EvSubmit t (Ok _) :: rest => t :: accepted rest
  | _ :: rest => accepted rest
  end.

(** * Properties *)

Import Sim.

(** ** Parser and calculator *)

Lemma cron_dow_of_weekday (c : Z) :
  0 <= c <= 6 -> cron_dow (cron_of_weekday c) = Some c.
Proof.
  intros H.
  assert (c = 0 \/ c = 1 \/ c = 2 \/ c = 3 \/ c = 4 \/ c = 5 \/ c = 6) as D by lia.
  repeat (destruct D as [-> | D]; [reflexivity |]).
  subst c; reflexivity.
Qed.

Lemma find_weekday_range (s : string) (c : Z) :
  find_weekday 0 weekday_names s = Some c -> 0 <= c <= 6.
Proof.
  unfold weekday_names; cbn [find_weekday].
  repeat (destruct (contains _ s);
          [intros H; injection H as <-; vm_compute; split; discriminate |]).
  discriminate.
Qed.




Lemma croniter_get_next_later (expr : string) (t r : datetime) :
  croniter_get_next expr t = Ok r -> t < r <= t + USEC_PER_WEEK.
Proof.
  unfold croniter_get_next.
  destruct (cron_dow expr) as [d |]; [| discriminate].
  set (offset := ((d + 6) mod 7) * USEC_PER_DAY + 12 * USEC_PER_HOUR).
  destruct (valid_datetime _); [| discriminate].
  intros H; injection H as <-.
  pose proof (Z.div_mod (t - offset) USEC_PER_WEEK) as D.
  pose proof (Z.mod_pos_bound (t - offset) USEC_PER_WEEK) as B.
  unfold USEC_PER_WEEK, USEC_PER_DAY in *. lia.
Qed.

Lemma croniter_get_next_total (expr : string) (d : Z) (t : datetime) :
  cron_dow expr = Some d -> 0 <= t -> t + USEC_PER_WEEK < MAXDT ->
  exists r, croniter_get_next expr t = Ok r.
Proof.
  intros Hd H0 Hmax. unfold croniter_get_next. rewrite Hd.
  set (offset := ((d + 6) mod 7) * USEC_PER_DAY + 12 * USEC_PER_HOUR).
  set (r := offset + ((t - offset) / USEC_PER_WEEK + 1) * USEC_PER_WEEK).
  assert (t < r <= t + USEC_PER_WEEK) as R.
  { subst r.
    pose proof (Z.div_mod (t - offset) USEC_PER_WEEK) as D.
    pose proof (Z.mod_pos_bound (t - offset) USEC_PER_WEEK) as B.
    unfold USEC_PER_WEEK, USEC_PER_DAY in *. lia. }
  assert (valid_datetime r = true) as ->.
  { unfold valid_datetime. apply andb_true_intro; split.
    - apply Z.leb_le; lia.
    - apply Z.ltb_lt; lia. }
  eauto.
Qed.

Lemma add_days_ok (t r : datetime) (n : Z) :
  add_days t n = Ok r -> r = t + n * USEC_PER_DAY /\ valid_datetime r = true.
Proof.
  unfold add_days.
  destruct (Z.abs n <=? 999999999); [| discriminate].
  destruct (valid_datetime (t + n * USEC_PER_DAY)) eqn:V; [| discriminate].
  intros H; injection H as <-. auto.
Qed.

Lemma add_days_bound (t r : datetime) (n : Z) :
  add_days t n = Ok r -> Z.abs n <= 999999999.
Proof.
  unfold add_days.
  destruct (Z.abs n <=? 999999999) eqn:B; [| discriminate].
  intros _. now apply Z.leb_le.
Qed.

Lemma add_days_total (t : datetime) (n : Z) :
  Z.abs n <= 999999999 -> valid_datetime (t + n * USEC_PER_DAY) = true ->
  add_days t n = Ok (t + n * USEC_PER_DAY).
Proof.
  intros B V. unfold add_days.
  apply Z.leb_le in B. rewrite B, V. reflexivity.
Qed.

(** What the parser can hand to the calculator. *)
Lemma schedule_of_parsed_cases (t0 : datetime) (s stype : string)
    (sv : sched_value) :
  schedule_of_parsed (parse_schedule_string t0 s) = Some (stype, sv) ->
  (exists c, 0 <= c <= 6 /\ stype = "weekly" /\ sv = SVCron (cron_of_weekday c))
  \/ (exists n, Z.abs n <= 999999999 /\ stype = "periodic" /\ sv = SVDays n)
  \/ (exists d, stype = "one-time" /\ sv = SVDate d).
Proof.
  unfold parse_schedule_string.
  destruct (find_weekday 0 weekday_names _) as [c |] eqn:Fw.
  - cbn. intros H; injection H as <- <-. left. exists c.
    split; [eapply find_weekday_range; eassumption | auto].
  - destruct (search_every_days _) as [g |].
    + destruct (add_days t0 (int_of_digits g)) as [r | e] eqn:A; cbn.
      * intros H; injection H as <- <-. right; left.
        exists (int_of_digits g). split; [eapply add_days_bound; eassumption | auto].
      * discriminate.
    + destruct (search_date _) as [[[g1 g2] g3] |]; cbn; [| discriminate].
      destruct (datetime_new _ _ _ _ _) as [d |]; cbn; [| discriminate].
      intros H; injection H as <- <-. right; right. eauto.
Qed.

Lemma calculate_weekly (now : datetime) (expr : string) :
  calculate_next_execution now "weekly" (SVCron expr)
  = match croniter_get_next expr now with
    | Ok t => Ok (Some t)
    | Raise e => Raise e
    end.
Proof. reflexivity. Qed.

Lemma calculate_periodic (now : datetime) (n : Z) :
  calculate_next_execution now "periodic" (SVDays n)
  = match add_days now n with
    | Ok t => Ok (Some t)
    | Raise e => Raise e
    end.
Proof. reflexivity. Qed.

(** Claim C2, as amended.  At reference time [now], with a week of
    calendar left after it, the calculator applied to whatever the parser
    accepted gives: for a weekly schedule, an instant strictly after [now]
    and at most a week after it; for a periodic schedule of [n] days,
    [now] plus [n] days whenever that is a date, which is after [now]
    exactly when [n] is positive; for a one-time schedule, the stored
    date itself, wherever it lies. *)
Theorem next_execution_by_kind (t0 now : datetime) (s stype : string)
    (sv : sched_value) :
  0 <= now -> now + USEC_PER_WEEK < MAXDT ->
  schedule_of_parsed (parse_schedule_string t0 s) = Some (stype, sv) ->
  match sv with
  | SVCron _ =>
      exists r, calculate_next_execution now stype sv = Ok (Some r)
                /\ now < r <= now + USEC_PER_WEEK
  | SVDays n =>
      (now < now + n * USEC_PER_DAY <-> 0 < n)
      /\ (valid_datetime (now + n * USEC_PER_DAY) = true ->
          calculate_next_execution now stype sv
          = Ok (Some (now + n * USEC_PER_DAY)))
      /\ (forall r, calculate_next_execution now stype sv = Ok (Some r) ->
                    r = now + n * USEC_PER_DAY)
  | SVDate d => calculate_next_execution now stype sv = Ok (Some d)
  | SVTuple _ _ => False
  end.
Proof.
  intros H0 Hmax Hp.
  destruct (schedule_of_parsed_cases _ _ _ _ Hp)
    as [(c & Hc & -> & ->) | [(n & Hn & -> & ->) | (d & -> & ->)]].
  - destruct (croniter_get_next_total _ c now (cron_dow_of_weekday c Hc) H0 Hmax)
      as [r Hr].
    exists r. split.
    + rewrite calculate_weekly, Hr. reflexivity.
    + eapply croniter_get_next_later; eassumption.
  - split; [unfold USEC_PER_DAY; lia |]. split.
    + intros V. rewrite calculate_periodic, (add_days_total _ _ Hn V).
      reflexivity.
    + intros r. rewrite calculate_periodic.
      destruct (add_days now n) as [x | e] eqn:A; [| discriminate].
      intros H; injection H as <-. now apply add_days_ok in A.
  - reflexivity.
Qed.

Lemma next_execution_by_kind_witness :
  exists r, calculate_next_execution t_ref "weekly" (SVCron "0 12 * * 1")
            = Ok (Some r)
            /\ t_ref < r <= t_ref + USEC_PER_WEEK.
Proof.
  apply (next_execution_by_kind t_ref t_ref "every monday" "weekly"
           (SVCron "0 12 * * 1")).
  - vm_compute; discriminate.
  - vm_compute; reflexivity.
  - vm_compute; reflexivity.
Defined.

(** Claim C2 as stated fails: parsed and evaluated on 2025-06-04, the
    one-time schedule "01-01-2020" has its next execution in the past. *)
Lemma next_execution_not_always_later :
  ~ (forall (t : datetime) (s stype : string) (sv : sched_value) (r : datetime),
       valid_datetime t = true ->
       schedule_of_parsed (parse_schedule_string t s) = Some (stype, sv) ->
       calculate_next_execution t stype sv = Ok (Some r) ->
       t < r).
Proof.
  intros H.
  specialize (H t_ref "01-01-2020" "one-time" (SVDate 63713476800000000)
                63713476800000000).
  assert (t_ref < 63713476800000000) as C
    by (apply H; vm_compute; reflexivity).
  vm_compute in C. discriminate.
Qed.


(** ** Running the handlers *)

(** Unfold the monad and split on the answer of the next call. *)
Ltac simpl_state :=
  cbv beta iota zeta delta [bind try_except ret raise get_db put_db log call
    call_logged now new_token db_call w3_get_balance
    w3_get_transaction_count calculate_optimal_gas send_transaction
    bot_send_message reply_text reply_or_raise answer_query fst snd
    set_payments
    set_pending set_wallets payments_of outbox_of] in *;
  cbn [st_db st_world st_trace wallets username_mapping
       pending_notifications scheduled_payments] in *.

(** Split on the answer of the next call into the world. *)
Ltac split_op E :=
  match goal with
  | |- context [mongo E ?w] =>
      is_var w; destruct (mongo E w) as [[[] | ?] ?] eqn:?
  | |- context [clock E ?w] =>
      is_var w; destruct (clock E w) as [? ?] eqn:?
  | |- context [token_hex E ?w] =>
      is_var w; destruct (token_hex E w) as [? ?] eqn:?
  | |- context [get_balance E ?a ?w] =>
      is_var w; destruct (get_balance E a w) as [[? | ?] ?] eqn:?
  | |- context [get_transaction_count E ?a ?w] =>
      is_var w; destruct (get_transaction_count E a w) as [[? | ?] ?] eqn:?
  | |- context [optimal_gas E ?w] =>
      is_var w; destruct (optimal_gas E w) as [[? | ?] ?] eqn:?
  | |- context [sign_and_send E ?t ?k ?w] =>
      is_var w; destruct (sign_and_send E t k w) as [[? | ?] ?] eqn:?
  | |- context [send_message E ?c ?n ?w] =>
      is_var w; destruct (send_message E c n w) as [[[] | ?] ?] eqn:?
  | |- context [chat_reply E ?r ?w] =>
      is_var w; destruct (chat_reply E r w) as [[[] | ?] ?] eqn:?
  end; simpl_state.

(** Split on a test the handler makes on values it holds. *)
Ltac split_test :=
  match goal with
  | |- context [match ?x with _ => _ end] =>
      lazymatch type of x with
      | bool => destruct x eqn:?
      | option _ => destruct x eqn:?
      | sched_value => destruct x eqn:?
      | res datetime => destruct x eqn:?
      | parsed => destruct x eqn:?
      end
  | |- context [if ?x then _ else _] => destruct x eqn:?
  end; simpl_state.

Ltac run E := simpl_state; repeat first [split_op E | split_test].

(** Carry an invariant of the world along the calls a run has made. *)
Ltac track_inv E :=
  repeat match goal with
    | Hw : ?I ?w, H : clock E ?w = (_, ?w'),
      K : (forall w0, ?I w0 -> ?I (snd (clock E w0))) |- _ =>
        lazymatch goal with _ : I w' |- _ => fail | _ => idtac end;
        let X := fresh "Hinv" in
        pose proof (K w Hw) as X; rewrite H in X; cbn [snd] in X
    | Hw : ?I ?w, H : mongo E ?w = (_, ?w'),
      K : (forall w0, ?I w0 -> ?I (snd (mongo E w0))) |- _ =>
        lazymatch goal with _ : I w' |- _ => fail | _ => idtac end;
        let X := fresh "Hinv" in
        pose proof (K w Hw) as X; rewrite H in X; cbn [snd] in X
    | Hw : ?I ?w, H : optimal_gas E ?w = (_, ?w'),
      K : (forall w0, ?I w0 -> ?I (snd (optimal_gas E w0))) |- _ =>
        lazymatch goal with _ : I w' |- _ => fail | _ => idtac end;
        let X := fresh "Hinv" in
        pose proof (K w Hw) as X; rewrite H in X; cbn [snd] in X
    | Hw : ?I ?w, H : token_hex E ?w = (_, ?w'),
      K : (forall w0, ?I w0 -> ?I (snd (token_hex E w0))) |- _ =>
        lazymatch goal with _ : I w' |- _ => fail | _ => idtac end;
        let X := fresh "Hinv" in
        pose proof (K w Hw) as X; rewrite H in X; cbn [snd] in X
    | Hw : ?I ?w, H : get_balance E ?a ?w = (_, ?w'),
      K : (forall a0 w0, ?I w0 -> ?I (snd (get_balance E a0 w0))) |- _ =>
        lazymatch goal with _ : I w' |- _ => fail | _ => idtac end;
        let X := fresh "Hinv" in
        pose proof (K a w Hw) as X; rewrite H in X; cbn [snd] in X
    | Hw : ?I ?w, H : get_transaction_count E ?a ?w = (_, ?w'),
      K : (forall a0 w0, ?I w0 ->
                         ?I (snd (get_transaction_count E a0 w0))) |- _ =>
        lazymatch goal with _ : I w' |- _ => fail | _ => idtac end;
        let X := fresh "Hinv" in
        pose proof (K a w Hw) as X; rewrite H in X; cbn [snd] in X
    | Hw : ?I ?w, H : sign_and_send E ?t ?k ?w = (_, ?w'),
      K : (forall t0 k0 w0, ?I w0 ->
                            ?I (snd (sign_and_send E t0 k0 w0))) |- _ =>
        lazymatch goal with _ : I w' |- _ => fail | _ => idtac end;
        let X := fresh "Hinv" in
        pose proof (K t k w Hw) as X; rewrite H in X; cbn [snd] in X
    | Hw : ?I ?w, H : send_message E ?c ?n ?w = (_, ?w'),
      K : (forall c0 n0 w0, ?I w0 ->
                            ?I (snd (send_message E c0 n0 w0))) |- _ =>
        lazymatch goal with _ : I w' |- _ => fail | _ => idtac end;
        let X := fresh "Hinv" in
        pose proof (K c n w Hw) as X; rewrite H in X; cbn [snd] in X
    end.

(** The world of a goal [within E n w0 w], from the calls a run has made. *)
Ltac reach E :=
  first
    [ apply within_here
    | match goal with
      | H : clock E ?w = (_, ?w') |- within E _ _ ?w' =>
          replace w' with (snd (clock E w)) by (rewrite H; reflexivity);
          apply within_clock; reach E
      | H : mongo E ?w = (_, ?w') |- within E _ _ ?w' =>
          replace w' with (snd (mongo E w)) by (rewrite H; reflexivity);
          apply within_mongo; reach E
      | H : optimal_gas E ?w = (_, ?w') |- within E _ _ ?w' =>
          replace w' with (snd (optimal_gas E w))
            by (rewrite H; reflexivity);
          apply within_optimal_gas; reach E
      | H : token_hex E ?w = (_, ?w') |- within E _ _ ?w' =>
          replace w' with (snd (token_hex E w)) by (rewrite H; reflexivity);
          apply within_token_hex; reach E
      | H : get_balance E ?a ?w = (_, ?w') |- within E _ _ ?w' =>
          replace w' with (snd (get_balance E a w))
            by (rewrite H; reflexivity);
          apply within_get_balance; reach E
      | H : get_transaction_count E ?a ?w = (_, ?w') |- within E _ _ ?w' =>
          replace w' with (snd (get_transaction_count E a w))
            by (rewrite H; reflexivity);
          apply within_get_transaction_count; reach E
      | H : sign_and_send E ?t ?k ?w = (_, ?w') |- within E _ _ ?w' =>
          replace w' with (snd (sign_and_send E t k w))
            by (rewrite H; reflexivity);
          apply within_sign_and_send; reach E
      | H : send_message E ?c ?n ?w = (_, ?w') |- within E _ _ ?w' =>
          replace w' with (snd (send_message E c n w))
            by (rewrite H; reflexivity);
          apply within_send_message; reach E
      end ].

Section Tick.

Context {W : Type} (E : World W).

Lemma keeps_all : keeps E (fun _ => True).
Proof. unfold keeps. repeat split. Qed.

Lemma reschedule_in_all (p : payment) (u : payment_update) :
  reschedule_in E (fun _ => True) p u -> reschedule E p u.
Proof.
  intros [H | [(H & w & x & n & _ & H1 & H2 & H3)
              | (H & w & x & n & _ & H1 & H2 & H3)]].
  - now left.
  - right; left. split; [assumption |]. now exists w, x, n.
  - right; right. split; [assumption |]. now exists w, x, n.
Qed.

(** The processing of one due record always ends in an outcome; it writes
    to the payments exactly when it reaches its store write, and the
    clock it reads for the new date is read in a world the run has
    reached. *)
Lemma dispatch_due_in (I : W -> Prop) (b : bool) (p : payment)
    (s : state W) :
  keeps E I -> I (st_world s) ->
  exists o s',
    dispatch_due E b p s = (Ok o, s') /\ I (st_world s') /\
    if made_its_write o
    then exists u, reschedule_in E I p u /\
                   payments_of s' = update_payment (p_id p) u (payments_of s)
    else payments_of s' = payments_of s.
Proof.
  intros HK.
  unfold dispatch_due, get_wallet, save_pending_notification,
    update_scheduled_payment.
  destruct s as [d w tr]. cbn [st_db st_world st_trace]. intros Hw.
  run E.
  all: destruct HK as (K1 & K2 & K3 & K4 & K5 & K6 & K7 & K8).
  all: track_inv E.
  all: eexists; eexists; (split; [reflexivity |]); simpl_state.
  all: (split; [assumption |]); cbn [made_its_write].
  all: try reflexivity.
  all: eexists; (split; [| reflexivity]); unfold reschedule_in.
  all: repeat match goal with
         | H : String.eqb _ _ = true |- _ => apply String.eqb_eq in H
         end.
  all: try (left; split; [assumption | reflexivity]).
  all: match goal with
       | C : clock E ?w = (?t, _), N : croniter_get_next ?x ?t = Ok ?n |- _ =>
           right; left; split; [assumption |];
           exists w, x, n; rewrite C; auto
       | C : clock E ?w = (?t, _), N : add_days ?t ?x = Ok ?n |- _ =>
           right; right; split; [assumption |];
           exists w, x, n; rewrite C; auto
       end.
Qed.

Lemma dispatch_due_spec (b : bool) (p : payment) (s : state W) :
  exists o s',
    dispatch_due E b p s = (Ok o, s') /\
    if made_its_write o
    then exists u, reschedule E p u /\
                   payments_of s' = update_payment (p_id p) u (payments_of s)
    else payments_of s' = payments_of s.
Proof.
  destruct (dispatch_due_in (fun _ => True) b p s keeps_all I)
    as (o & s' & Hrun & _ & Ho).
  exists o, s'. split; [assumption |].
  destruct (made_its_write o); [| assumption].
  destruct Ho as (u & Hu & Hps). exists u.
  split; [now apply reschedule_in_all | assumption].
Qed.


(** *** The payments collection under updates *)

Lemma update_payment_ids (i : Z) (u : payment_update) (ps : list payment) :
  map p_id (update_payment i u ps) = map p_id ps.
Proof.
  induction ps as [| p ps IH]; [reflexivity |].
  cbn [update_payment]. destruct (p_id p =? i).
  - destruct u; reflexivity.
  - cbn [map]. now rewrite IH.
Qed.

Lemma apply_update_id (u : payment_update) (p : payment) :
  p_id (apply_update u p) = p_id p.
Proof. destruct u; reflexivity. Qed.

Lemma find_update_same (i : Z) (u : payment_update) (ps : list payment) :
  find_payment i (update_payment i u ps)
  = option_map (apply_update u) (find_payment i ps).
Proof.
  induction ps as [| p ps IH]; [reflexivity |].
  cbn [update_payment find_payment].
  destruct (p_id p =? i) eqn:Hi.
  - cbn [find_payment]. rewrite apply_update_id, Hi. reflexivity.
  - cbn [find_payment]. rewrite Hi. exact IH.
Qed.

Lemma find_update_other (i j : Z) (u : payment_update) (ps : list payment) :
  i <> j ->
  find_payment j (update_payment i u ps) = find_payment j ps.
Proof.
  intros Hij. induction ps as [| p ps IH]; [reflexivity |].
  cbn [update_payment find_payment].
  destruct (p_id p =? i) eqn:Hi.
  - cbn [find_payment]. rewrite apply_update_id.
    apply Z.eqb_eq in Hi.
    destruct (p_id p =? j) eqn:Hj; [apply Z.eqb_eq in Hj; lia | reflexivity].
  - cbn [find_payment]. destruct (p_id p =? j); [reflexivity | exact IH].
Qed.

Lemma find_payment_some (i : Z) (p : payment) (ps : list payment) :
  find_payment i ps = Some p -> In p ps /\ p_id p = i.
Proof.
  induction ps as [| q ps IH]; [discriminate |].
  cbn [find_payment]. destruct (p_id q =? i) eqn:Hi.
  - intros H; injection H as ->. apply Z.eqb_eq in Hi. split; [now left | assumption].
  - intros H. destruct (IH H). split; [now right | assumption].
Qed.

Lemma find_payment_in (p : payment) (ps : list payment) :
  NoDup (map p_id ps) -> In p ps -> find_payment (p_id p) ps = Some p.
Proof.
  induction ps as [| q ps IH]; [contradiction |].
  cbn [map find_payment]. intros Hnd Hin.
  apply NoDup_cons_iff in Hnd. destruct Hnd as [Hq Hnd].
  destruct Hin as [-> | Hin].
  - now rewrite Z.eqb_refl.
  - destruct (p_id q =? p_id p) eqn:Hi.
    + apply Z.eqb_eq in Hi. exfalso. apply Hq. rewrite Hi. now apply in_map.
    + now apply IH.
Qed.

Lemma NoDup_map_filter {A B} (f : A -> B) (g : A -> bool) (l : list A) :
  NoDup (map f l) -> NoDup (map f (filter g l)).
Proof.
  induction l as [| a l IH]; [auto |].
  cbn [map filter]. intros H. apply NoDup_cons_iff in H. destruct H as [Ha Hl].
  destruct (g a); [| now apply IH].
  cbn [map]. apply NoDup_cons; [| now apply IH].
  intros Hin. apply Ha. apply in_map_iff in Hin.
  destruct Hin as (x & Hx & Hin). apply filter_In in Hin.
  apply in_map_iff. exists x. tauto.
Qed.

(** *** The loop of the tick *)

Lemma process_due_in (I : W -> Prop) (b : bool) (due : list payment) :
  keeps E I ->
  forall s : state W,
    I (st_world s) ->
    NoDup (map p_id due) ->
    exists outs s',
      process_due E b due s = (Ok outs, s') /\
      I (st_world s') /\
      map fst outs = map p_id due /\
      map p_id (payments_of s') = map p_id (payments_of s) /\
      (forall i, (forall o, In (i, o) outs -> made_its_write o = false) ->
                 find_payment i (payments_of s')
                 = find_payment i (payments_of s)) /\
      (forall p o, In p due -> In (p_id p, o) outs ->
                   made_its_write o = true ->
                   exists u, reschedule_in E I p u /\
                             find_payment (p_id p) (payments_of s')
                             = option_map (apply_update u)
                                 (find_payment (p_id p) (payments_of s))).
Proof.
  intros HK. induction due as [| p rest IH]; intros s Hw Hnd.
  - exists [], s. cbn. repeat split; auto. intros p o [].
  - cbn [map] in Hnd. apply NoDup_cons_iff in Hnd. destruct Hnd as [Hp Hnd].
    destruct (dispatch_due_in I b p s HK Hw) as (o & s1 & Hd & Hw1 & Ho).
    destruct (IH s1 Hw1 Hnd)
      as (os & s' & Hr & Hw' & Hids & Hmap & Hsame & Hdone).
    exists ((p_id p, o) :: os), s'.
    assert (forall x, ~ In (p_id p, x) os) as Hfresh.
    { intros x Hin. apply Hp. rewrite <- Hids.
      change (p_id p) with (fst (p_id p, x)). now apply in_map. }
    assert (map p_id (payments_of s1) = map p_id (payments_of s)) as Hmap1.
    { destruct (made_its_write o); [| now rewrite Ho].
      destruct Ho as (u & _ & ->). apply update_payment_ids. }
    assert (forall i, i <> p_id p ->
              find_payment i (payments_of s1) = find_payment i (payments_of s))
      as Hother.
    { intros i Hi. destruct (made_its_write o); [| now rewrite Ho].
      destruct Ho as (u & _ & ->). apply find_update_other. congruence. }
    split; [| split; [| split; [| split; [| split]]]].
    + cbn [process_due]. unfold bind at 1. rewrite Hd.
      unfold bind at 1. rewrite Hr. reflexivity.
    + exact Hw'.
    + cbn [map fst]. now rewrite Hids.
    + now rewrite Hmap.
    + intros i Hi. rewrite Hsame.
      * destruct (Z.eq_dec i (p_id p)) as [-> | Hne]; [| now apply Hother].
        rewrite (Hi o) in Ho by (now left). now rewrite Ho.
      * intros o' Hin. apply (Hi o'). now right.
    + intros q o' [<- | Hq] [Heq | Hin] Hwrote.
      * injection Heq as ->. rewrite Hwrote in Ho.
        destruct Ho as (u & Hu & Hps). exists u. split; [assumption |].
        rewrite Hsame by (intros x Hx; exfalso; exact (Hfresh _ Hx)).
        rewrite Hps. apply find_update_same.
      * exfalso. exact (Hfresh _ Hin).
      * exfalso. apply Hp. injection Heq as Heq _. rewrite Heq.
        now apply in_map.
      * destruct (Hdone q o' Hq Hin Hwrote) as (u & Hu & Hf). exists u.
        split; [assumption |]. rewrite Hf, Hother; [reflexivity |].
        intros Heq. apply Hp. rewrite <- Heq. now apply in_map.
Qed.

(** One tick: the scan raises and nothing changes, or the due records are
    processed in order. *)
Lemma tick_in (I : W -> Prop) (b : bool) (s : state W) :
  keeps E I -> I (st_world s) ->
  NoDup (map p_id (payments_of s)) ->
  let t := fst (clock E (st_world s)) in
  let due := filter (is_due t) (payments_of s) in
  (exists e s', process_scheduled_payments E b s = (Raise e, s') /\
                st_db s' = st_db s /\ st_trace s' = st_trace s)
  \/ (exists outs s',
        process_scheduled_payments E b s = (Ok outs, s') /\
        map fst outs = map p_id due /\
        map p_id (payments_of s') = map p_id (payments_of s) /\
        (forall i, (forall o, In (i, o) outs -> made_its_write o = false) ->
                   find_payment i (payments_of s')
                   = find_payment i (payments_of s)) /\
        (forall p o, In p due -> In (p_id p, o) outs ->
                     made_its_write o = true ->
                     exists u, reschedule_in E I p u /\
                               find_payment (p_id p) (payments_of s')
                               = option_map (apply_update u)
                                   (find_payment (p_id p) (payments_of s))) /\
        (due = [] -> st_trace s' = st_trace s)).
Proof.
  intros HK Hw Hnd t due. subst t due.
  unfold process_scheduled_payments, get_all_due_scheduled_payments.
  destruct s as [d w tr]. cbn [st_world] in Hw. simpl_state.
  destruct (clock E w) as [t w1] eqn:Hc. simpl_state.
  destruct (mongo E w1) as [[[] | e] w2] eqn:Hm; simpl_state.
  - right. pose proof HK as (K1 & _ & _ & _ & _ & K6 & _). track_inv E.
    destruct (process_due_in I b (filter (is_due t) (scheduled_payments d))
                HK (mk_state d w2 tr))
      as (outs & s' & Hr & _ & H1 & H2 & H3 & H4).
    { assumption. }
    { now apply NoDup_map_filter. }
    exists outs, s'. rewrite Hr. repeat split; try assumption.
    intros Hnil. rewrite Hnil in Hr. cbn in Hr. injection Hr as _ <-. reflexivity.
  - left. eexists; eexists. repeat split.
Qed.

Lemma tick_spec (b : bool) (s : state W) :
  NoDup (map p_id (payments_of s)) ->
  let t := fst (clock E (st_world s)) in
  let due := filter (is_due t) (payments_of s) in
  (exists e s', process_scheduled_payments E b s = (Raise e, s') /\
                st_db s' = st_db s /\ st_trace s' = st_trace s)
  \/ (exists outs s',
        process_scheduled_payments E b s = (Ok outs, s') /\
        map fst outs = map p_id due /\
        map p_id (payments_of s') = map p_id (payments_of s) /\
        (forall i, (forall o, In (i, o) outs -> made_its_write o = false) ->
                   find_payment i (payments_of s')
                   = find_payment i (payments_of s)) /\
        (forall p o, In p due -> In (p_id p, o) outs ->
                     made_its_write o = true ->
                     exists u, reschedule E p u /\
                               find_payment (p_id p) (payments_of s')
                               = option_map (apply_update u)
                                   (find_payment (p_id p) (payments_of s))) /\
        (due = [] -> st_trace s' = st_trace s)).
Proof.
  intros Hnd t due.
  destruct (tick_in (fun _ => True) b s keeps_all I Hnd)
    as [H | (outs & s' & Hr & H1 & H2 & H3 & H4 & H5)]; [now left |].
  right. exists outs, s'. repeat split; try assumption.
  intros p o Hp Ho Hwr. destruct (H4 p o Hp Ho Hwr) as (u & Hu & Hf).
  exists u. split; [now apply reschedule_in_all | assumption].
Qed.


Lemma NoDup_map_inj {A B} (f : A -> B) (l : list A) (a b : A) :
  NoDup (map f l) -> In a l -> In b l -> f a = f b -> a = b.
Proof.
  induction l as [| x l IH]; [contradiction |].
  cbn [map]. intros H Ha Hb Hf. apply NoDup_cons_iff in H. destruct H as [Hx Hl].
  destruct Ha as [-> | Ha], Hb as [-> | Hb]; auto.
  - exfalso. apply Hx. rewrite Hf. now apply in_map.
  - exfalso. apply Hx. rewrite <- Hf. now apply in_map.
Qed.

Lemma NoDup_fst_functional {A B} (l : list (A * B)) (a : A) (x y : B) :
  NoDup (map fst l) -> In (a, x) l -> In (a, y) l -> x = y.
Proof.
  intros H Hx Hy.
  assert ((a, x) = (a, y)) as Heq
    by (eapply (NoDup_map_inj fst); eauto).
  now injection Heq.
Qed.

(** A record whose id is in the outcomes of a tick was due at the scan. *)
Lemma outcome_was_due (t : datetime) (ps : list payment)
    (outs : list (Z * outcome)) (p : payment) (o : outcome) :
  NoDup (map p_id ps) ->
  map fst outs = map p_id (filter (is_due t) ps) ->
  In p ps -> In (p_id p, o) outs ->
  In p (filter (is_due t) ps).
Proof.
  intros Hnd Hids Hp Ho.
  assert (In (p_id p) (map p_id (filter (is_due t) ps))) as Hin.
  { rewrite <- Hids. change (p_id p) with (fst (p_id p, o)). now apply in_map. }
  apply in_map_iff in Hin. destruct Hin as (q & Hq & Hin).
  assert (q = p) as <-; [| assumption].
  apply filter_In in Hin. eapply (NoDup_map_inj p_id); eauto. tauto.
Qed.

Lemma is_due_later (t t2 : datetime) (p : payment) :
  is_due t p = true -> t <= t2 -> is_due t2 p = true.
Proof.
  unfold is_due. intros H Ht. apply andb_true_iff in H. destruct H as [H ->].
  apply Z.leb_le in H. rewrite andb_true_r. apply Z.leb_le. lia.
Qed.

(** Claim C7.  In a tick over a store with unique ids, with or without a
    context, a due record whose processing ends in the insufficient-funds
    branch, or in the [except] branch reached from a step that comes
    before the store write is done (building, signing and submitting the
    transaction are among these steps), is stored after the tick exactly
    as before it, [active] and [next_execution] included, and any scan at
    or after the time of this tick's scan returns it. *)
Theorem failed_dispatch_leaves_record_due (b : bool) (s s' : state W)
    (outs : list (Z * outcome)) (p : payment) (o : outcome) (t2 : datetime) :
  NoDup (map p_id (payments_of s)) ->
  process_scheduled_payments E b s = (Ok outs, s') ->
  In p (payments_of s) ->
  In (p_id p, o) outs ->
  (o = OInsufficient \/ exists e, o = OError e) ->
  fst (clock E (st_world s)) <= t2 ->
  find_payment (p_id p) (payments_of s') = Some p
  /\ In p (filter (is_due t2) (payments_of s')).
Proof.
  intros Hnd Hrun Hp Ho Hfail Ht.
  destruct (tick_spec b s Hnd)
    as [(e & s0 & Hr & _) | (outs0 & s0 & Hr & Hids & Hmap & Hsame & _)];
    rewrite Hrun in Hr; [discriminate |].
  injection Hr as <- <-.
  assert (find_payment (p_id p) (payments_of s') = Some p) as Hfind.
  { rewrite Hsame; [now apply find_payment_in |].
    intros o' Hin.
    assert (NoDup (map fst outs)) as Hnd'
      by (rewrite Hids; now apply NoDup_map_filter).
    pose proof (NoDup_fst_functional _ _ _ _ Hnd' Ho Hin) as <-.
    destruct Hfail as [-> | [e ->]]; reflexivity. }
  split; [assumption |].
  apply filter_In. split.
  - now apply find_payment_some in Hfind.
  - pose proof (outcome_was_due _ _ _ _ _ Hnd Hids Hp Ho) as Hdue.
    apply filter_In in Hdue. eapply is_due_later; [apply Hdue | assumption].
Qed.

(** A record that is switched off stays as it is through any ticks. *)
Lemma inactive_is_kept (b : bool) (i : Z) (q : payment) (s s' : state W) :
  after_ticks E b s s' ->
  NoDup (map p_id (payments_of s)) ->
  find_payment i (payments_of s) = Some q ->
  active q = false ->
  NoDup (map p_id (payments_of s'))
  /\ find_payment i (payments_of s') = Some q.
Proof.
  induction 1 as [s | s s1 s2 w r Hrun _ IH]; intros Hnd Hfind Hoff; [auto |].
  set (s0 := mk_state (st_db s) w (st_trace s)) in *.
  assert (payments_of s0 = payments_of s) as Hps by reflexivity.
  destruct (tick_spec b s0) as [(e & s3 & Hr & Hdb & _)
                               | (outs & s3 & Hr & Hids & Hmap & Hsame & _)].
  - now rewrite Hps.
  - rewrite Hrun in Hr. injection Hr as _ <-.
    apply IH; [| | assumption]; unfold payments_of in *; rewrite Hdb;
      assumption.
  - rewrite Hrun in Hr. injection Hr as _ <-. rewrite Hps in *.
    apply IH; [now rewrite Hmap | | assumption].
    rewrite Hsame; [assumption |].
    intros o Hin. exfalso.
    destruct (find_payment_some _ _ _ Hfind) as [Hq <-].
    pose proof (outcome_was_due _ _ _ _ _ Hnd Hids Hq Hin) as Hdue.
    apply filter_In in Hdue. destruct Hdue as [_ Hdue].
    unfold is_due in Hdue. rewrite Hoff, andb_false_r in Hdue. discriminate.
Qed.

Lemma dispatch_due_completed (b : bool) (p : payment) (s s1 : state W)
    (o : outcome) :
  dispatch_due E b p s = (Ok o, s1) ->
  made_its_write o = true ->
  exists u, reschedule E p u /\
            payments_of s1 = update_payment (p_id p) u (payments_of s).
Proof.
  intros Hrun Hw. destruct (dispatch_due_spec b p s) as (o' & s' & Hd & Ho).
  rewrite Hrun in Hd. injection Hd as <- <-. rewrite Hw in Ho. exact Ho.
Qed.

(** Claim C6.  The processing of an active one-time record of a store with
    unique ids that reaches its store write, with or without a context,
    switches the record off; from then on, through any number of ticks,
    the record stays as it is, so it is not switched again, and no scan at
    any time returns it. *)
Theorem one_time_deactivated_for_good (b : bool) (p : payment)
    (s s1 : state W) (o : outcome) :
  NoDup (map p_id (payments_of s)) ->
  In p (payments_of s) ->
  schedule_type p = "one-time" ->
  active p = true ->
  dispatch_due E b p s = (Ok o, s1) ->
  made_its_write o = true ->
  let q := apply_update (SetActive false) p in
  find_payment (p_id p) (payments_of s1) = Some q
  /\ active q = false
  /\ forall s2, after_ticks E b s1 s2 ->
        find_payment (p_id p) (payments_of s2) = Some q
        /\ forall t r, In r (filter (is_due t) (payments_of s2)) ->
                       p_id r <> p_id p.
Proof.
  intros Hnd Hp Hone Hon Hrun Hwrote q.
  destruct (dispatch_due_completed _ _ _ _ _ Hrun Hwrote) as (u & Hu & Hps).
  assert (u = SetActive false) as ->.
  { destruct Hu as [[_ ->] | [[Hw _] | [Hw _]]]; [reflexivity | |];
      rewrite Hone in Hw; discriminate. }
  assert (find_payment (p_id p) (payments_of s1) = Some q) as Hfind.
  { rewrite Hps, find_update_same, (find_payment_in _ _ Hnd Hp). reflexivity. }
  assert (NoDup (map p_id (payments_of s1))) as Hnd1
    by (rewrite Hps, update_payment_ids; assumption).
  split; [assumption |]. split; [reflexivity |].
  intros s2 Hticks.
  destruct (inactive_is_kept b _ _ _ _ Hticks Hnd1 Hfind eq_refl)
    as [Hnd2 Hfind2].
  split; [assumption |].
  intros t r Hr Hid. apply filter_In in Hr. destruct Hr as [Hr Hdue].
  pose proof (find_payment_in _ _ Hnd2 Hr) as Hfr.
  rewrite Hid, Hfind2 in Hfr. injection Hfr as <-.
  unfold is_due in Hdue. cbn in Hdue. rewrite andb_false_r in Hdue.
  discriminate.
Qed.




(** *** The zero-day interval *)

Lemma parse_every_zero_days (now : datetime) :
  valid_datetime now = true ->
  parse_schedule_string now "every 0 days" = PPeriodic now 0.
Proof.
  intros V.
  assert (parse_schedule_string now "every 0 days"
          = match add_days now 0 with
            | Ok next_date => PPeriodic next_date 0
            | Raise e => PRaise e
            end) as -> by reflexivity.
  rewrite add_days_total; rewrite ?Z.add_0_r; cbn; rewrite ?Z.add_0_r; auto.
  lia.
Qed.

(** Claim C10.  The parser turns "every 0 days" into a periodic schedule
    of 0 days whose next execution is the reference time itself; the
    processing of such a record that reaches its store write, with or
    without a context, stores as next execution the clock reading taken
    at the dispatch, so the record is due at that instant and at every
    later one. *)
Theorem every_zero_days_is_due_again (now : datetime) (b : bool)
    (p : payment) (s s1 : state W) (o : outcome) :
  valid_datetime now = true ->
  schedule_type p = "periodic" ->
  schedule_value p = SVDays 0 ->
  active p = true ->
  find_payment (p_id p) (payments_of s) = Some p ->
  dispatch_due E b p s = (Ok o, s1) ->
  made_its_write o = true ->
  parse_schedule_string now "every 0 days" = PPeriodic now 0
  /\ calculate_next_execution now "periodic" (SVDays 0) = Ok (Some now)
  /\ exists w,
       let d := fst (clock E w) in
       find_payment (p_id p) (payments_of s1)
       = Some (apply_update (SetNextExecution d) p)
       /\ forall t, d <= t ->
                    is_due t (apply_update (SetNextExecution d) p) = true.
Proof.
  intros V Hper Hv Hon Hfind Hrun Hwrote.
  split; [now apply parse_every_zero_days |]. split.
  { rewrite calculate_periodic, add_days_total; rewrite ?Z.add_0_r; cbn;
      rewrite ?Z.add_0_r; auto. lia. }
  destruct (dispatch_due_completed _ _ _ _ _ Hrun Hwrote) as (u & Hu & Hps).
  destruct Hu as [[Ht _] | [[Ht _] | (_ & w & n & next & Hn & Ha & ->)]];
    try (rewrite Hper in Ht; discriminate).
  rewrite Hv in Hn. injection Hn as <-.
  apply add_days_ok in Ha. destruct Ha as [Ha _].
  rewrite Z.mul_0_l, Z.add_0_r in Ha. subst next.
  exists w. cbn zeta. split.
  - rewrite Hps, find_update_same, Hfind. reflexivity.
  - intros t Ht. unfold is_due. cbn. rewrite Hon, andb_true_r.
    now apply Z.leb_le.
Qed.

End Tick.


(** ** The tick on concrete stores *)



Lemma failed_dispatch_leaves_record_due_witness :
  let s := start (db_with [rent]) (with_submit [false] (quiet 1 rich)) in
  find_payment 1 (payments_of (snd (process_scheduled_payments world true s)))
  = Some rent
  /\ In rent
       (filter (is_due (t_ref + 60000000))
          (payments_of (snd (process_scheduled_payments world true s)))).
Proof.
  apply (failed_dispatch_leaves_record_due world true
           (start (db_with [rent]) (with_submit [false] (quiet 1 rich))) _
           [(1, OError "submission refused")] rent
           (OError "submission refused") (t_ref + 60000000)).
  - repeat constructor. intros [].
  - vm_compute. reflexivity.
  - left. reflexivity.
  - left. reflexivity.
  - right. eexists. reflexivity.
  - vm_compute. discriminate.
Defined.

Lemma one_time_deactivated_for_good_witness :
  let s1 := snd (dispatch_due world true rent
                   (start (db_with [rent]) (quiet 1 rich))) in
  let q := apply_update (SetActive false) rent in
  find_payment 1 (payments_of s1) = Some q
  /\ active q = false
  /\ forall s2, after_ticks world true s1 s2 ->
       find_payment 1 (payments_of s2) = Some q
       /\ forall t r, In r (filter (is_due t) (payments_of s2)) ->
                      p_id r <> 1.
Proof.
  apply (one_time_deactivated_for_good world true rent
           (start (db_with [rent]) (quiet 1 rich)) _
           (OLateError "0xhash5" "TypeError")).
  - repeat constructor. intros [].
  - left. reflexivity.
  - reflexivity.
  - reflexivity.
  - vm_compute. reflexivity.
  - reflexivity.
Defined.



(** The second scan is asked to come before the noon that follows the
    first for a reason.  A weekly record left unpaid for a week and paid
    a moment before the noon of its day is moved to that noon, and a tick
    whose scan comes a moment after that noon finds it due and pays it
    again. *)
Lemma second_tick_after_noon_pays_weekly_record_again :
  let s :=
    start (db_with [weekly_gift])
      (with_clock (monday_noon + USEC_PER_WEEK - 3) 2
         (mined_at_once (quiet 1 rich))) in
  let run1 := process_scheduled_payments world true s in
  let run2 := process_scheduled_payments world true (snd run1) in
  let t1 := fst (clock world (st_world s)) in
  let t2 := fst (clock world (st_world (snd run1))) in
  fst run1 = Ok [(5, OLateError "0xhash5" "TypeError")]
  /\ map next_execution (payments_of (snd run1))
     = [monday_noon + USEC_PER_WEEK]
  /\ next_noon t1 <= t2
  /\ fst run2 = Ok [(5, OLateError "0xhash6" "TypeError")]
  /\ List.length (submissions (st_trace (snd run2))) = 2%nat.
Proof.
  vm_compute. repeat split; discriminate.
Qed.

Lemma every_zero_days_is_due_again_witness :
  parse_schedule_string t_ref "every 0 days" = PPeriodic t_ref 0
  /\ calculate_next_execution t_ref "periodic" (SVDays 0) = Ok (Some t_ref)
  /\ exists w,
       let d := fst (clock world w) in
       find_payment 2
         (payments_of (snd (dispatch_due world true drip
                              (start (db_with [drip]) (quiet 1 rich)))))
       = Some (apply_update (SetNextExecution d) drip)
       /\ forall t, d <= t ->
                    is_due t (apply_update (SetNextExecution d) drip) = true.
Proof.
  apply (every_zero_days_is_due_again world t_ref true drip
           (start (db_with [drip]) (quiet 1 rich)) _
           (OLateError "0xhash5" "TypeError")).
  - reflexivity.
  - reflexivity.
  - reflexivity.
  - reflexivity.
  - reflexivity.
  - vm_compute. reflexivity.
  - reflexivity.
Defined.


(** ** Balance guard *)

Lemma submissions_app (a b : list event) :
  submissions (a ++ b) = submissions a ++ submissions b.
Proof.
  induction a as [| e a IH]; [reflexivity |].
  destruct e; cbn; now rewrite IH.
Qed.



Section Guard.

Context {W : Type} (E : World W).


End Guard.


(** ** Batch dispatcher *)


Section Batch.

Context {W : Type} (E : World W).




End Batch.


Lemma batch_asks_the_count_again :
  count_queries
    (st_trace (snd (batch_loop world "0xA11CE" "0xkeyA" (Some "alice")
                      1 [carol; dave] [] (start empty_db (quiet 1 rich)))))
  = 2%nat.
Proof. vm_compute. reflexivity. Qed.

(** Claim C5, where the code departs from it: one recipient, whose
    transaction is accepted and whose notification the database then
    refuses, is recorded twice, as a success and as a failure, and the
    summary counts two payments. *)
Theorem batch_records_one_recipient_twice :
  let run :=
    process_batch_transaction world "1001" (Some "alice") [bob]
      (start empty_db (with_mongo [true; false] (quiet 1 rich))) in
  fst run = Ok [BSuccess "@bob" "0.01" "0xhash5" false "0xB0B";
                BFailed "@bob" "0.01" "AutoReconnect"]
  /\ In (EvReply (RBatchResults 2 1 1)) (st_trace (snd run))
  /\ List.length (submissions (st_trace (snd run))) = 1%nat.
Proof. vm_compute. repeat split. auto. Qed.

(** The scenario of the specification, with a database that answers: of
    three recipients the second is refused by the network. *)
Lemma batch_of_three_second_refused :
  let run :=
    process_batch_transaction world "1001" (Some "alice") [carol; dave; erin]
      (start empty_db (with_submit [true; false; true] (quiet 1 rich))) in
  fst run = Ok [BSuccess "0xCA401" "0.01" "0xhash5" false "0xCA401";
                BFailed "0xDA7E" "0.02" "submission refused";
                BSuccess "0xE414" "0.03" "0xhash7" false "0xE414"]
  /\ In (EvReply (RBatchResults 3 2 1)) (st_trace (snd run)).
Proof. vm_compute. split; [reflexivity | auto 10]. Qed.

(** ** What holds of every batch *)

Section BatchFacts.

Context {W : Type} (E : World W).

(** Whatever the recipients and the world, no entry prepared by
    [batch_payment_multi] holds a key. *)
Lemma batch_resolve_multi_keeps_no_key (u : option string)
    (pairs : list (string * (string * Z))) :
  forall (s s' : state W) (rs : list recipient),
    batch_resolve_multi E u pairs s = (Ok rs, s') ->
    Forall (fun r => r_private_key r = None) rs.
Proof.
  induction pairs as [| [name [amount amount_wei]] rest IH]; intros s s' rs.
  - cbn. intros H; injection H as <- _. constructor.
  - cbn [batch_resolve_multi].
    unfold is_own_username, get_wallet_by_username, get_user_id_by_username,
      get_wallet, new_wallet_key.
    destruct s as [d w tr]. run E.
    all: try discriminate.
    all: try match goal with
           | |- context [batch_resolve_multi E ?a ?b ?st] =>
               destruct (batch_resolve_multi E a b st) as [[? | ?] ?]
                 eqn:Hrec; [apply IH in Hrec |]
           end.
    all: simpl_state; intros H; try discriminate H.
    all: injection H as <- _; try assumption.
    all: constructor; [reflexivity | assumption].
Qed.

(** With a database that answers, a batch records one outcome per
    recipient. *)
Lemma batch_loop_one_outcome_each (from_address key : string)
    (u : option string) (rs : list recipient) :
  (forall w, fst (mongo E w) = Ok tt) ->
  forall (i : Z) (results results' : list batch_result) (s s' : state W),
    batch_loop E from_address key u i rs results s = (Ok results', s') ->
    List.length results' = (List.length results + List.length rs)%nat.
Proof.
  intros Hdb. induction rs as [| r rs IH]; intros i results results' s s'.
  - cbn. intros H; injection H as <- _. lia.
  - cbn [batch_loop]. unfold bind at 1.
    destruct (batch_item E from_address key u i r results s)
      as [[res1 | e] s1] eqn:Hitem; [| discriminate].
    intros Hrest. apply IH in Hrest. rewrite Hrest. cbn [List.length].
    enough (List.length res1 = S (List.length results)) by lia.
    revert Hitem. unfold batch_item, save_pending_notification.
    destruct s as [d w tr]. run E.
    all: try match goal with
           | H : mongo E ?w = (Raise _, _) |- _ =>
               pose proof (Hdb w) as Hc; rewrite H in Hc; discriminate
           end.
    all: intros H; try discriminate H.
    all: injection H as <- _; rewrite ?length_app; cbn; lia.
Qed.

End BatchFacts.

(** ** Auto-provisioned recipients *)

(** Claim C1, where the code departs from it: [/batchpaymulti @bob:0.01]
    for a [bob] without a wallet generates a key, pays into the address of
    that key, and keeps the key nowhere: the entry prepared for the batch
    does not hold it, the notification written for [bob] announces a new
    wallet without it, and no wallet or payment record is written. *)
Theorem multi_batch_discards_the_new_key :
  let prepared :=
    batch_payment_multi world (Some "alice") alice [("@bob", ("0.01", 1000))]
      (start empty_db (quiet 1 rich)) in
  exists rs total_amount total_gas,
    fst prepared = Ok (BatchPending rs total_amount total_gas)
    /\ map r_private_key rs = [None]
    /\ let sent :=
         process_batch_transaction world "1001" (Some "alice") rs
           (snd prepared) in
       map tx_to (submissions (st_trace (snd sent)))
       = [address_of_key world "0xa1"]
       /\ map n_new_wallet (outbox_of "bob" (snd sent)) = [true]
       /\ map n_private_key (outbox_of "bob" (snd sent)) = [None]
       /\ wallets (st_db (snd sent)) = [alice]
       /\ payments_of (snd sent) = [].
Proof.
  cbv zeta. do 3 eexists. split; [vm_compute; reflexivity |].
  vm_compute. repeat split.
Qed.

(** The sibling command, [/batchpay @bob 0.01], keeps the key in the entry
    and passes it on in the notification. *)
Lemma same_amount_batch_keeps_the_new_key :
  let prepared :=
    batch_payment world (Some "alice") alice ["@bob"] "0.01" 1000
      (start empty_db (quiet 1 rich)) in
  exists rs total_amount total_gas,
    fst prepared = Ok (BatchPending rs total_amount total_gas)
    /\ map r_private_key rs = [Some "0xa1"]
    /\ let sent :=
         process_batch_transaction world "1001" (Some "alice") rs
           (snd prepared) in
       map tx_to (submissions (st_trace (snd sent)))
       = [address_of_key world "0xa1"]
       /\ map n_private_key (outbox_of "bob" (snd sent)) = [Some "0xa1"].
Proof.
  cbv zeta. do 3 eexists. split; [vm_compute; reflexivity |].
  vm_compute. repeat split.
Qed.

(** [/schedule @bob 0.01 25-12-2025] keeps the key on the payment record. *)
Lemma scheduled_payment_keeps_the_new_key :
  let run :=
    schedule_payment world "1001" (Some "alice") alice "@bob" "0.01" 1000
      "25-12-2025" (start empty_db (quiet 1 rich)) in
  map recipient_address (payments_of (snd run))
  = [address_of_key world "0xa1"]
  /\ map private_key (payments_of (snd run)) = [Some "0xa1"].
Proof. vm_compute. split; reflexivity. Qed.

(** [/pay @bob 0.01] and its confirmation pass the key on in the
    notification. *)
Lemma single_payment_keeps_the_new_key :
  let asked :=
    pay world (Some "alice") alice "@bob" "0.01" 1000
      (start empty_db (quiet 1 rich)) in
  exists p,
    fst asked = Ok (PayPending p)
    /\ let sent := confirm_payment world p (snd asked) in
       map tx_to (submissions (st_trace (snd sent)))
       = [address_of_key world "0xa1"]
       /\ map n_private_key (outbox_of "bob" (snd sent)) = [Some "0xa1"].
Proof.
  cbv zeta. eexists. split; [vm_compute; reflexivity |].
  vm_compute. split; reflexivity.
Qed.


(** ** Notification outbox *)

Lemma lower_char_idem (c : ascii) : lower_char (lower_char c) = lower_char c.
Proof.
  destruct c as [[] [] [] [] [] [] [] []]; reflexivity.
Qed.

Lemma lower_idem (s : string) : lower (lower s) = lower s.
Proof.
  induction s as [| c s IH]; [reflexivity |].
  cbn [lower]. now rewrite lower_char_idem, IH.
Qed.

Lemma find_pending_pull (u : string) (i : datetime)
    (o : list (string * list notification)) :
  find_pending u (pull_pending u i o)
  = filter (kept [i]) (find_pending u o).
Proof.
  induction o as [| [k ns] o IH]; [reflexivity |].
  cbn [pull_pending find_pending].
  destruct (String.eqb k u) eqn:Hk; cbn [find_pending]; rewrite Hk.
  - apply filter_ext. intros n. unfold kept. cbn. now rewrite orb_false_r.
  - exact IH.
Qed.

Lemma filter_kept_nil (l : list notification) : filter (kept []) l = l.
Proof.
  induction l as [| n l IH]; [reflexivity |]. cbn. now rewrite IH.
Qed.

Lemma kept_app (r1 r2 : list datetime) (n : notification) :
  kept (r1 ++ r2) n = kept r1 n && kept r2 n.
Proof. unfold kept. now rewrite existsb_app, negb_orb. Qed.

Lemma filter_kept_app (r1 r2 : list datetime) (l : list notification) :
  filter (kept r2) (filter (kept r1) l) = filter (kept (r1 ++ r2)) l.
Proof.
  induction l as [| n l IH]; [reflexivity |].
  cbn [filter]. rewrite kept_app.
  destruct (kept r1 n); cbn [andb filter]; [| exact IH].
  destruct (kept r2 n); now rewrite IH.
Qed.

Section Outbox.

Context {W : Type} (E : World W).

(** One turn of the drain, for an entry that carries an id. *)
Lemma drain_turn (chat_id username : string) (n : notification)
    (rest : list notification) (i : datetime) (s : state W) :
  n_id n = Some i ->
  exists s1 evs removed,
    drain E chat_id username (n :: rest) s
    = drain E chat_id username rest s1
    /\ st_trace s1 = st_trace s ++ evs
    /\ outbox_of (lower username) s1
       = filter (kept removed) (outbox_of (lower username) s)
    /\ (evs = [] \/ exists answer, evs = [EvHandOff chat_id n answer]
                                    /\ n_type n = "received_eth")
    /\ (n_type n = "received_eth" ->
        exists answer, evs = [EvHandOff chat_id n answer])
    /\ (removed = []
        \/ (removed = [i] /\ evs = [EvHandOff chat_id n (Ok tt)])).
Proof.
  intros Hid. cbn [drain]. unfold remove_pending_notification.
  rewrite Hid. destruct s as [d w tr]. run E.
  all: match goal with
       | |- exists s1 evs removed,
             drain _ _ _ _ ?st = _ /\ _ =>
           exists st
       end.
  all: simpl_state.
  all: try match goal with
           | H : String.eqb _ _ = true |- _ => apply String.eqb_eq in H
           end.
  all: first
    [ (* the entry was handed off and pulled *)
      eexists; exists [i]; rewrite find_pending_pull;
      repeat split; eauto; fail
    | (* the hand-off was attempted *)
      eexists; exists []; rewrite filter_kept_nil;
      repeat split; eauto; fail
    | (* the entry is of another type *)
      exists [], []; rewrite app_nil_r, filter_kept_nil;
      repeat split; auto;
      intros Hty; rewrite Hty in *; discriminate ].
Qed.

Lemma drain_spec (chat_id username : string) (ns : list notification) :
  forall s : state W,
    Forall (fun n => n_id n <> None) ns ->
    NoDup (map n_id ns) ->
    exists s' evs removed,
      drain E chat_id username ns s = (Ok tt, s')
      /\ st_trace s' = st_trace s ++ evs
      /\ outbox_of (lower username) s'
         = filter (kept removed) (outbox_of (lower username) s)
      /\ (forall n answer, In (EvHandOff chat_id n answer) evs ->
                           In n ns /\ n_type n = "received_eth")
      /\ (forall n, In n ns -> n_type n = "received_eth" ->
                    exists answer, In (EvHandOff chat_id n answer) evs)
      /\ (forall i, In i removed ->
                    exists n, In n ns /\ n_id n = Some i
                              /\ In (EvHandOff chat_id n (Ok tt)) evs)
      /\ (forall n e i, In (EvHandOff chat_id n (Raise e)) evs ->
                        n_id n = Some i -> ~ In i removed).
Proof.
  induction ns as [| n rest IH]; intros s Hids Hnd.
  - exists s, [], []. cbn. rewrite app_nil_r, filter_kept_nil.
    repeat split; auto; intros; contradiction.
  - apply Forall_cons_iff in Hids. destruct Hids as [Hn Hids].
    cbn [map] in Hnd. apply NoDup_cons_iff in Hnd. destruct Hnd as [Hfresh Hnd].
    destruct (n_id n) as [i |] eqn:Hid; [| congruence].
    destruct (drain_turn chat_id username n rest i s Hid)
      as (s1 & ev1 & rm1 & Hrun1 & Htr1 & Hout1 & Hev1 & Hatt1 & Hrm1).
    destruct (IH s1 Hids Hnd)
      as (s' & ev2 & rm2 & Hrun2 & Htr2 & Hout2 & Hin2 & Hatt2 & Hrm2 & Hfail2).
    exists s', (ev1 ++ ev2), (rm1 ++ rm2).
    assert (forall m a, In (EvHandOff chat_id m a) ev1 ->
                        m = n /\ ev1 = [EvHandOff chat_id n a]
                        /\ n_type n = "received_eth") as Hown.
    { intros m a Hm. destruct Hev1 as [-> | [a' [-> Hty]]]; [contradiction |].
      destruct Hm as [Hm | []]. injection Hm as <- <-. auto. }
    assert (forall j, In j rm2 -> j <> i) as Hother.
    { intros j Hj ->. destruct (Hrm2 _ Hj) as (m & Hm & Hmid & _).
      apply Hfresh. rewrite <- Hmid. now apply in_map. }
    split; [rewrite Hrun1; exact Hrun2 |].
    split; [now rewrite Htr2, Htr1, app_assoc |].
    split; [now rewrite Hout2, Hout1, filter_kept_app |].
    split; [| split; [| split]].
    + intros m a Hm. apply in_app_or in Hm. destruct Hm as [Hm | Hm].
      * destruct (Hown m a Hm) as (-> & _ & Hty). split; [now left | assumption].
      * destruct (Hin2 m a Hm). split; [now right | assumption].
    + intros m [<- | Hm] Hty.
      * destruct (Hatt1 Hty) as [a ->]. exists a. now left.
      * destruct (Hatt2 m Hm Hty) as [a Ha]. exists a.
        apply in_or_app. now right.
    + intros j Hj. apply in_app_or in Hj. destruct Hj as [Hj | Hj].
      * destruct Hrm1 as [-> | [-> ->]]; [contradiction |].
        destruct Hj as [<- | []]. exists n.
        split; [now left | split; [assumption | now left]].
      * destruct (Hrm2 _ Hj) as (m & Hm & Hmid & Hok). exists m.
        split; [now right | split; [assumption | apply in_or_app; now right]].
    + intros m e j Hm Hmid Hj.
      apply in_app_or in Hm. apply in_app_or in Hj.
      destruct Hm as [Hm | Hm].
      * destruct (Hown _ _ Hm) as (-> & Hev & _). rewrite Hid in Hmid.
        injection Hmid as <-.
        destruct Hj as [Hj | Hj]; [| exact (Hother _ Hj eq_refl)].
        destruct Hrm1 as [-> | [_ Hok]]; [contradiction |].
        rewrite Hev in Hok. discriminate.
      * destruct Hj as [Hj | Hj]; [| exact (Hfail2 _ _ _ Hm Hmid Hj)].
        destruct Hrm1 as [-> | [-> _]]; [contradiction |].
        destruct Hj as [<- | []].
        apply Hfresh. rewrite <- Hmid. apply in_map.
        now destruct (Hin2 _ _ Hm).
Qed.


(** Claim C8.  In a drain of an outbox whose entries carry distinct ids:
    an entry that is gone afterwards was handed off successfully in this
    drain; an entry whose hand-off raised is still there afterwards; and
    the next drain that reads the outbox attempts its hand-off again. *)
Theorem at_least_once_hand_off (chat_id u : string) (s : state W) :
  u <> "" ->
  NoDup (map n_id (outbox_of (lower u) s)) ->
  Forall (fun n => n_id n <> None) (outbox_of (lower u) s) ->
  let pending := outbox_of (lower u) s in
  let run := check_pending_notifications E chat_id (Some u) s in
  let left_over := outbox_of (lower u) (snd run) in
  exists evs,
    st_trace (snd run) = st_trace s ++ evs
    /\ (forall n, In n pending -> ~ In n left_over ->
                  In (EvHandOff chat_id n (Ok tt)) evs)
    /\ (forall n e, In n pending ->
                    In (EvHandOff chat_id n (Raise e)) evs ->
                    In n left_over)
    /\ (forall n e w tr,
          In n pending ->
          In (EvHandOff chat_id n (Raise e)) evs ->
          let next :=
            check_pending_notifications E chat_id (Some u)
              (mk_state (st_db (snd run)) w tr) in
          fst next = Ok tt ->
          exists evs' answer,
            st_trace (snd next) = tr ++ evs'
            /\ In (EvHandOff chat_id n answer) evs').
Proof.
  intros Hu Hnd Hids pending run left_over.
  assert (is_empty u = false) as Hne by (destruct u; [congruence | reflexivity]).
  (* what a drain that reads the outbox does *)
  assert (forall s0 : state W,
            NoDup (map n_id (outbox_of (lower u) s0)) ->
            Forall (fun n => n_id n <> None) (outbox_of (lower u) s0) ->
            let run0 := check_pending_notifications E chat_id (Some u) s0 in
            (exists e, fst run0 = Raise e /\ st_db (snd run0) = st_db s0
                       /\ st_trace (snd run0) = st_trace s0)
            \/ (exists evs removed,
                  fst run0 = Ok tt
                  /\ st_trace (snd run0) = st_trace s0 ++ evs
                  /\ outbox_of (lower u) (snd run0)
                     = filter (kept removed) (outbox_of (lower u) s0)
                  /\ (forall n answer, In (EvHandOff chat_id n answer) evs ->
                         In n (outbox_of (lower u) s0)
                         /\ n_type n = "received_eth")
                  /\ (forall n, In n (outbox_of (lower u) s0) ->
                         n_type n = "received_eth" ->
                         exists answer, In (EvHandOff chat_id n answer) evs)
                  /\ (forall i, In i removed ->
                         exists n, In n (outbox_of (lower u) s0)
                                   /\ n_id n = Some i
                                   /\ In (EvHandOff chat_id n (Ok tt)) evs)
                  /\ (forall n e i, In (EvHandOff chat_id n (Raise e)) evs ->
                         n_id n = Some i -> ~ In i removed))) as Hdrain.
  { intros s0 Hnd0 Hids0 run0. subst run0.
    unfold check_pending_notifications, get_pending_notifications.
    rewrite Hne. destruct s0 as [d w tr]. simpl_state.
    destruct (mongo E w) as [[[] | e] w1] eqn:Hm; simpl_state.
    - right. rewrite lower_idem.
      destruct (drain_spec chat_id (lower u)
                  (find_pending (lower u) (pending_notifications d))
                  (mk_state d w1 tr) Hids0 Hnd0)
        as (s' & evs & removed & Hrun & Htr & Hout & H1 & H2 & H3 & H4).
      rewrite lower_idem in Hout.
      exists evs, removed. rewrite Hrun. cbn [fst snd]. auto 10.
    - left. exists e. auto. }
  destruct (Hdrain s Hnd Hids)
    as [(e & Hr & Hdb & Htr)
       | (evs & removed & Hr & Htr & Hout & Hin & Hatt & Hrm & Hfail)].
  - exists []. fold run in Hr, Hdb, Htr. rewrite app_nil_r.
    split; [assumption |].
    unfold left_over, outbox_of. rewrite Hdb.
    split; [intros n Hn Hgone; contradiction |].
    split; intros; contradiction.
  - exists evs. fold run in Hr, Htr, Hout. fold left_over pending in Hout.
    split; [assumption |]. split; [| split].
    + intros n Hn Hgone.
      assert (kept removed n = false) as Hk.
      { destruct (kept removed n) eqn:Hk; [| reflexivity].
        exfalso. apply Hgone. rewrite Hout. apply filter_In. auto. }
      unfold kept in Hk. apply negb_false_iff, existsb_exists in Hk.
      destruct Hk as (i & Hi & Hhas).
      destruct (Hrm i Hi) as (m & Hm & Hmid & Hok).
      assert (m = n) as <-; [| assumption].
      apply (NoDup_map_inj n_id _ _ _ Hnd Hm Hn).
      unfold has_id in Hhas. destruct (n_id n) as [j |]; [| discriminate].
      apply Z.eqb_eq in Hhas. congruence.
    + intros n e Hn Hraise. rewrite Hout. apply filter_In. split; [assumption |].
      unfold kept. apply negb_true_iff.
      destruct (existsb (fun i => has_id i n) removed) eqn:Hex; [| reflexivity].
      exfalso. apply existsb_exists in Hex. destruct Hex as (i & Hi & Hhas).
      unfold has_id in Hhas. destruct (n_id n) as [j |] eqn:Hj; [| discriminate].
      apply Z.eqb_eq in Hhas. subst j. exact (Hfail n e i Hraise Hj Hi).
    + intros n e w tr Hn Hraise next Hok.
      assert (In n left_over) as Hstays.
      { rewrite Hout. apply filter_In. split; [assumption |].
        unfold kept. apply negb_true_iff.
        destruct (existsb (fun i => has_id i n) removed) eqn:Hex; [| reflexivity].
        exfalso. apply existsb_exists in Hex. destruct Hex as (i & Hi & Hhas).
        unfold has_id in Hhas.
        destruct (n_id n) as [j |] eqn:Hj; [| discriminate].
        apply Z.eqb_eq in Hhas. subst j. exact (Hfail n e i Hraise Hj Hi). }
      set (s2 := mk_state (st_db (snd run)) w tr) in *.
      assert (outbox_of (lower u) s2 = left_over) as Hsame by reflexivity.
      destruct (Hdrain s2)
        as [(e2 & Hr2 & _) | (evs2 & rm2 & _ & Htr2 & _ & _ & Hatt2 & _)].
      * rewrite Hsame, Hout. now apply NoDup_map_filter.
      * rewrite Hsame, Hout. apply Forall_forall. intros m Hm.
        apply filter_In in Hm. rewrite Forall_forall in Hids.
        apply Hids. tauto.
      * fold next in Hr2. rewrite Hr2 in Hok. discriminate.
      * fold next in Htr2. destruct (Hin n _ Hraise) as [_ Hty].
        rewrite Hsame in Hatt2. destruct (Hatt2 n Hstays Hty) as [a Ha].
        exists evs2, a. auto.
Qed.

End Outbox.

Lemma at_least_once_hand_off_witness :
  let s := start db_outbox (with_handoff [false; true] (quiet 1 rich)) in
  let pending := outbox_of (lower "Bob") s in
  let run := check_pending_notifications world "2002" (Some "Bob") s in
  let left_over := outbox_of (lower "Bob") (snd run) in
  exists evs,
    st_trace (snd run) = st_trace s ++ evs
    /\ (forall n, In n pending -> ~ In n left_over ->
                  In (EvHandOff "2002" n (Ok tt)) evs)
    /\ (forall n e, In n pending ->
                    In (EvHandOff "2002" n (Raise e)) evs ->
                    In n left_over)
    /\ (forall n e w tr,
          In n pending ->
          In (EvHandOff "2002" n (Raise e)) evs ->
          let next :=
            check_pending_notifications world "2002" (Some "Bob")
              (mk_state (st_db (snd run)) w tr) in
          fst next = Ok tt ->
          exists evs' answer,
            st_trace (snd next) = tr ++ evs'
            /\ In (EvHandOff "2002" n answer) evs').
Proof.
  apply (at_least_once_hand_off world "2002" "Bob"
           (start db_outbox (with_handoff [false; true] (quiet 1 rich)))).
  - discriminate.
  - repeat constructor; cbn; intuition discriminate.
  - repeat constructor; discriminate.
Defined.

(** That drain, run: the first hand-off times out and its entry stays,
    the second goes through and its entry is pulled. *)
Lemma drain_keeps_what_it_could_not_hand_off :
  let run :=
    check_pending_notifications world "2002" (Some "Bob")
      (start db_outbox (with_handoff [false; true] (quiet 1 rich))) in
  st_trace (snd run)
  = [EvHandOff "2002" note1 (Raise "TimedOut"); EvHandOff "2002" note2 (Ok tt)]
  /\ outbox_of "bob" (snd run) = [note1].
Proof. vm_compute. split; reflexivity. Qed.


(** * Further properties of the code *)

(** ** More on the parser and the calculator *)

Lemma int_of_digits_acc_nonneg (s : string) :
  forall acc, 0 <= acc ->
    fst (span is_digit s) = s -> 0 <= int_of_digits_acc acc s.
Proof.
  induction s as [| c s IH]; intros acc Hacc Hs; [assumption |].
  cbn [span] in Hs. destruct (is_digit c) eqn:Hc.
  - destruct (span is_digit s) as [a b] eqn:Hsp. cbn [fst] in Hs.
    injection Hs as Hs. cbn [int_of_digits_acc]. apply IH.
    + unfold is_digit in Hc. apply andb_true_iff in Hc. destruct Hc as [Hc _].
      apply Z.leb_le in Hc. lia.
    + exact Hs.
  - discriminate.
Qed.

Lemma span_fst_idem (p : ascii -> bool) (s : string) :
  fst (span p (fst (span p s))) = fst (span p s).
Proof.
  induction s as [| c s IH]; [reflexivity |].
  cbn [span]. destruct (p c) eqn:Hc; [| reflexivity].
  destruct (span p s) as [a b]. cbn [fst] in *. cbn [span]. rewrite Hc.
  destruct (span p a) as [a' b']. cbn [fst] in *. now rewrite IH.
Qed.

Lemma match_every_days_digits (s g : string) :
  match_every_days s = Some g -> 0 <= int_of_digits g.
Proof.
  unfold match_every_days.
  destruct (drop_prefix "every" s) as [r1 |]; [| discriminate].
  destruct (span is_space r1) as [ws1 r2].
  destruct (is_empty ws1); [discriminate |].
  destruct (span is_digit r2) as [ds r3] eqn:Hds.
  destruct (is_empty ds); [discriminate |].
  destruct (span is_space r3) as [ws2 r4].
  destruct (is_empty ws2); [discriminate |].
  destruct (String.prefix "day" r4); [| discriminate].
  intros H; injection H as <-.
  apply int_of_digits_acc_nonneg; [lia |].
  replace ds with (fst (span is_digit r2)) by (now rewrite Hds).
  apply span_fst_idem.
Qed.

Lemma search_every_days_digits (s g : string) :
  search_every_days s = Some g -> 0 <= int_of_digits g.
Proof.
  induction s as [| c s IH]; cbn [search_every_days].
  - destruct (match_every_days "") eqn:Hm; [| discriminate].
    intros H; injection H as <-. eapply match_every_days_digits; eassumption.
  - destruct (match_every_days (String c s)) eqn:Hm.
    + intros H; injection H as <-. eapply match_every_days_digits; eassumption.
    + exact IH.
Qed.

(** A periodic parse has an interval that is not negative, and its first
    date is the reference time plus that many days: never before the
    reference time, and a date of the calendar. *)
Theorem parsed_interval_is_not_negative (t next : datetime) (s : string)
    (days : Z) :
  parse_schedule_string t s = PPeriodic next days ->
  0 <= days <= 999999999
  /\ next = t + days * USEC_PER_DAY
  /\ t <= next
  /\ valid_datetime next = true.
Proof.
  unfold parse_schedule_string.
  destruct (find_weekday 0 weekday_names _); [discriminate |].
  destruct (search_every_days _) as [g |] eqn:Hg.
  - pose proof (search_every_days_digits _ _ Hg) as Hpos.
    destruct (add_days t (int_of_digits g)) as [r | e] eqn:Ha; [| discriminate].
    intros H; injection H as <- <-.
    pose proof (add_days_bound _ _ _ Ha) as Hb.
    destruct (add_days_ok _ _ _ Ha) as [-> Hv].
    unfold USEC_PER_DAY. repeat split; try assumption; lia.
  - destruct (search_date _) as [[[g1 g2] g3] |]; [| discriminate].
    destruct (datetime_new _ _ _ _ _); discriminate.
Qed.

Lemma parsed_interval_is_not_negative_witness :
  0 <= 3 <= 999999999
  /\ t_ref + 3 * USEC_PER_DAY = t_ref + 3 * USEC_PER_DAY
  /\ t_ref <= t_ref + 3 * USEC_PER_DAY
  /\ valid_datetime (t_ref + 3 * USEC_PER_DAY) = true.
Proof.
  apply (parsed_interval_is_not_negative t_ref (t_ref + 3 * USEC_PER_DAY)
           "Every  3 days" 3).
  vm_compute. reflexivity.
Defined.

(** A one-time parse is noon of a day of the calendar. *)
Theorem parsed_date_is_noon_of_a_calendar_day (t d : datetime) (s : string) :
  parse_schedule_string t s = POneTime d ->
  exists year month day,
    1 <= year <= 9999 /\ 1 <= month <= 12
    /\ 1 <= day <= days_in_month year month
    /\ d = (ymd2ord year month day - 1) * USEC_PER_DAY + 12 * USEC_PER_HOUR
    /\ d mod USEC_PER_DAY = 12 * USEC_PER_HOUR.
Proof.
  unfold parse_schedule_string.
  destruct (find_weekday 0 weekday_names _); [discriminate |].
  destruct (search_every_days _) as [g |].
  - destruct (add_days t (int_of_digits g)); discriminate.
  - destruct (search_date _) as [[[g1 g2] g3] |]; [| discriminate].
    set (y := if int_of_digits g3 <? 100
              then year_of t / 100 * 100 + int_of_digits g3
              else int_of_digits g3).
    unfold datetime_new.
    destruct (_ && _) eqn:Hok; [| discriminate].
    intros H; injection H as <-.
    repeat (apply andb_true_iff in Hok; destruct Hok as [Hok ?]).
    repeat match goal with
           | H : (_ <=? _) = true |- _ => apply Z.leb_le in H
           end.
    exists y, (int_of_digits g2), (int_of_digits g1).
    repeat split; try assumption.
    + unfold USEC_PER_DAY, USEC_PER_HOUR, USEC_PER_MINUTE. lia.
    + match goal with
      | |- (?a * USEC_PER_DAY + ?h + ?m) mod _ = _ =>
          replace (a * USEC_PER_DAY + h + m)
            with (12 * USEC_PER_HOUR + a * USEC_PER_DAY)
            by (unfold USEC_PER_DAY, USEC_PER_HOUR, USEC_PER_MINUTE; lia)
      end.
      rewrite Z.mod_add by (unfold USEC_PER_DAY; lia). reflexivity.
Qed.

Lemma parsed_date_is_noon_of_a_calendar_day_witness :
  exists year month day,
    1 <= year <= 9999 /\ 1 <= month <= 12
    /\ 1 <= day <= days_in_month year month
    /\ 63902260800000000
       = (ymd2ord year month day - 1) * USEC_PER_DAY + 12 * USEC_PER_HOUR
    /\ 63902260800000000 mod USEC_PER_DAY = 12 * USEC_PER_HOUR.
Proof.
  apply (parsed_date_is_noon_of_a_calendar_day t_ref 63902260800000000
           "on 25/12/25").
  vm_compute. reflexivity.
Defined.

Lemma find_weekday_names (s : string) (c : Z) :
  find_weekday 0 weekday_names s = Some c ->
  exists (k : nat) (name : string),
    nth_error weekday_names k = Some name
    /\ contains (append "every " name) s = true
    /\ (c + 6) mod 7 = Z.of_nat k.
Proof.
  unfold weekday_names; cbn [find_weekday].
  repeat match goal with
         | |- (if contains ?x s then _ else _) = _ -> _ =>
             destruct (contains x s) eqn:?
         end.
  all: try discriminate.
  all: intros H; injection H as <-.
  - exists 0%nat, "monday". auto.
  - exists 1%nat, "tuesday". auto.
  - exists 2%nat, "wednesday". auto.
  - exists 3%nat, "thursday". auto.
  - exists 4%nat, "friday". auto.
  - exists 5%nat, "saturday". auto.
  - exists 6%nat, "sunday". auto.
Qed.

Lemma croniter_slot (expr : string) (c : Z) (t r : datetime) :
  cron_dow expr = Some c ->
  croniter_get_next expr t = Ok r ->
  weekday r = (c + 6) mod 7 /\ r mod USEC_PER_DAY = 12 * USEC_PER_HOUR.
Proof.
  intros Hc. unfold croniter_get_next. rewrite Hc.
  destruct (valid_datetime _); [| discriminate].
  intros H; injection H as <-.
  set (m := (c + 6) mod 7).
  set (q := _ / USEC_PER_WEEK + 1).
  assert (0 <= m < 7) as Hm by (apply Z.mod_pos_bound; lia).
  match goal with
  | |- weekday ?x = _ /\ _ =>
      replace x with (12 * USEC_PER_HOUR + (m + q * 7) * USEC_PER_DAY)
        by (unfold USEC_PER_WEEK, USEC_PER_DAY, USEC_PER_HOUR; lia)
  end.
  split.
  - unfold weekday.
    rewrite Z.div_add by (unfold USEC_PER_DAY; lia).
    replace (12 * USEC_PER_HOUR / USEC_PER_DAY) with 0 by reflexivity.
    rewrite Z.add_0_l, Z.mod_add by lia. now apply Z.mod_small.
  - rewrite Z.mod_add by (unfold USEC_PER_DAY; lia). reflexivity.
Qed.

(** A weekly parse names a day that the text names, and the calculator
    answers the next noon of that very day of the week: the index of the
    day in [monday .. sunday] is Python's [weekday()] of the answer. *)
Theorem weekly_schedule_falls_on_the_named_day (t now : datetime)
    (s cron : string) :
  parse_schedule_string t s = PWeekly cron ->
  0 <= now -> now + USEC_PER_WEEK < MAXDT ->
  exists (k : nat) (name : string) (r : datetime),
    nth_error weekday_names k = Some name
    /\ contains (append "every " name) (strip (lower s)) = true
    /\ calculate_next_execution now "weekly" (SVCron cron) = Ok (Some r)
    /\ weekday r = Z.of_nat k
    /\ r mod USEC_PER_DAY = 12 * USEC_PER_HOUR
    /\ now < r <= now + USEC_PER_WEEK.
Proof.
  unfold parse_schedule_string.
  destruct (find_weekday 0 weekday_names _) as [c |] eqn:Hf.
  - intros H H0 Hmax. injection H as <-.
    destruct (find_weekday_names _ _ Hf) as (k & name & Hk & Hin & Hkc).
    pose proof (find_weekday_range _ _ Hf) as Hr.
    pose proof (cron_dow_of_weekday c Hr) as Hd.
    destruct (croniter_get_next_total _ c now Hd H0 Hmax) as [r Hnext].
    destruct (croniter_slot _ _ _ _ Hd Hnext) as [Hw Hnoon].
    exists k, name, r. rewrite calculate_weekly, Hnext.
    repeat split; try assumption; try congruence;
      now apply croniter_get_next_later in Hnext.
  - destruct (search_every_days _) as [g |].
    + destruct (add_days t (int_of_digits g)); discriminate.
    + destruct (search_date _) as [[[g1 g2] g3] |]; [| discriminate].
      destruct (datetime_new _ _ _ _ _); discriminate.
Qed.

Lemma weekly_schedule_falls_on_the_named_day_witness :
  exists (k : nat) (name : string) (r : datetime),
    nth_error weekday_names k = Some name
    /\ contains (append "every " name) (strip (lower "Every FRIDAY")) = true
    /\ calculate_next_execution t_ref "weekly" (SVCron "0 12 * * 5")
       = Ok (Some r)
    /\ weekday r = Z.of_nat k
    /\ r mod USEC_PER_DAY = 12 * USEC_PER_HOUR
    /\ t_ref < r <= t_ref + USEC_PER_WEEK.
Proof.
  apply (weekly_schedule_falls_on_the_named_day t_ref t_ref "Every FRIDAY"
           "0 12 * * 5").
  - vm_compute. reflexivity.
  - vm_compute. discriminate.
  - vm_compute. reflexivity.
Defined.

(** ** More on the tick *)

Section TickMore.

Context {W : Type} (E : World W).

(** What the processing of one due record hands to the network, and when
    it leaves the store alone. *)
Lemma dispatch_due_trace (b : bool) (p : payment) (s : state W) :
  exists o s' evs,
    dispatch_due E b p s = (Ok o, s')
    /\ st_trace s' = st_trace s ++ evs
    /\ wallets (st_db s') = wallets (st_db s)
    /\ username_mapping (st_db s') = username_mapping (st_db s)
    /\ match o with
       | ONoWallet | OInsufficient =>
           submissions evs = [] /\ st_db s' = st_db s
       | OCompleted _ | OLateError _ _ =>
           known_kind (schedule_type p) = true
           /\ exists t, submissions evs = [t] /\ pays p t
       | OUnknownType =>
           known_kind (schedule_type p) = false
           /\ payments_of s' = payments_of s
           /\ exists t, submissions evs = [t] /\ pays p t
       | OError _ =>
           payments_of s' = payments_of s
           /\ (submissions evs = []
               \/ exists t, submissions evs = [t] /\ pays p t)
       end.
Proof.
  unfold dispatch_due, get_wallet, save_pending_notification,
    update_scheduled_payment.
  destruct s as [d w tr]. run E.
  all: eexists; eexists; eexists; (split; [reflexivity |]); simpl_state.
  all: rewrite <- ?app_assoc; cbn [app].
  all: try (split; [symmetry; apply app_nil_r |]).
  all: try (split; [reflexivity |]).
  all: (split; [reflexivity |]); (split; [reflexivity |]).
  all: unfold known_kind, pays;
    repeat match goal with
           | H : String.eqb _ _ = _ |- _ => rewrite H
           end; cbn.
  all: try (destruct d; cbn; auto; fail).
  all: eauto 10.
Qed.


Lemma process_due_trace (b : bool) (due : list payment) :
  forall s : state W,
  exists outs s' evs,
    process_due E b due s = (Ok outs, s')
    /\ st_trace s' = st_trace s ++ evs
    /\ wallets (st_db s') = wallets (st_db s)
    /\ username_mapping (st_db s') = username_mapping (st_db s)
    /\ pays_due_in_order due (submissions evs)
    /\ (List.length (submissions evs) <= List.length due)%nat
    /\ (forall t, In t (submissions evs) -> exists p, In p due /\ pays p t).
Proof.
  induction due as [| p rest IH]; intros s.
  - exists [], s, []. cbn. rewrite app_nil_r.
    repeat split; auto using pays_due_none.
    intros t [].
  - destruct (dispatch_due_trace b p s)
      as (o & s1 & ev1 & Hrun1 & Htr1 & Hw1 & Hm1 & Ho).
    destruct (IH s1)
      as (os & s2 & ev2 & Hrun2 & Htr2 & Hw2 & Hm2 & Hord & Hlen & Hin).
    exists ((p_id p, o) :: os), s2, (ev1 ++ ev2).
    assert (submissions ev1 = []
            \/ exists t, submissions ev1 = [t] /\ pays p t) as Hev1.
    { destruct o; try tauto; destruct Ho as (_ & Ho); tauto. }
    split; [cbn [process_due]; unfold bind; now rewrite Hrun1, Hrun2 |].
    split; [now rewrite Htr2, Htr1, app_assoc |].
    split; [congruence |]. split; [congruence |].
    rewrite submissions_app. split; [| split].
    + destruct Hev1 as [-> | (t & -> & Hp)]; cbn [app].
      * now apply pays_due_skip.
      * now apply pays_due_next.
    + rewrite length_app. cbn [List.length].
      destruct Hev1 as [-> | (t & -> & _)]; cbn [List.length]; lia.
    + intros t Ht. apply in_app_or in Ht. destruct Ht as [Ht | Ht].
      * destruct Hev1 as [Hnil | (t' & Hone & Hp)]; rewrite ?Hnil, ?Hone in Ht.
        -- contradiction.
        -- destruct Ht as [<- | []]. exists p. split; [now left | assumption].
      * destruct (Hin t Ht) as (q & Hq & Hpq). exists q.
        split; [now right | assumption].
Qed.

(** A tick hands to the network at most one transaction for each record
    that was due at the scan, and nothing else: the transactions of the
    tick, in the order they are handed over, are matched one to one with
    some of the due records taken in the order of the scan, each paying to
    its record's recipient its record's amount, so that no record is paid
    by two of them.  The wallets are not written. *)
Theorem tick_pays_only_due_records (b : bool) (s : state W) :
  let due :=
    filter (is_due (fst (clock E (st_world s)))) (payments_of s) in
  let run := process_scheduled_payments E b s in
  exists evs,
    st_trace (snd run) = st_trace s ++ evs
    /\ pays_due_in_order due (submissions evs)
    /\ (List.length (submissions evs) <= List.length due)%nat
    /\ (forall t, In t (submissions evs) -> exists p, In p due /\ pays p t)
    /\ wallets (st_db (snd run)) = wallets (st_db s).
Proof.
  cbv zeta.
  unfold process_scheduled_payments, get_all_due_scheduled_payments.
  destruct s as [d w tr]. simpl_state.
  destruct (clock E w) as [t w1] eqn:Hc. simpl_state.
  destruct (mongo E w1) as [[[] | e] w2] eqn:Hm; simpl_state.
  - destruct (process_due_trace b (filter (is_due t) (scheduled_payments d))
                (mk_state d w2 tr))
      as (outs & s' & evs & Hrun & Htr & Hw & _ & Hord & Hlen & Hin).
    rewrite Hrun. exists evs. auto.
  - exists []. rewrite app_nil_r. cbn [submissions].
    split; [reflexivity |].
    split; [induction (filter _ _); auto using pays_due_none, pays_due_skip |].
    repeat split; auto using Nat.le_0_l.
    intros t0 [].
Qed.

(** *** What a tick leaves of every record *)

Lemma same_terms_refl (p : payment) : same_terms p p.
Proof. unfold same_terms. tauto. Qed.

Lemma same_terms_update (u : payment_update) (p : payment) :
  same_terms p (apply_update u p).
Proof. destruct u; unfold same_terms; cbn; tauto. Qed.

Lemma same_terms_trans (p q r : payment) :
  same_terms p q -> same_terms q r -> same_terms p r.
Proof. unfold same_terms. intuition congruence. Qed.

Lemma Forall2_same_terms_refl (ps : list payment) : Forall2 same_terms ps ps.
Proof.
  induction ps; constructor; auto using same_terms_refl.
Qed.

Lemma Forall2_same_terms_update (i : Z) (u : payment_update)
    (ps : list payment) :
  Forall2 same_terms ps (update_payment i u ps).
Proof.
  induction ps as [| p ps IH]; [constructor |].
  cbn [update_payment]. destruct (p_id p =? i).
  - constructor; [apply same_terms_update | apply Forall2_same_terms_refl].
  - constructor; [apply same_terms_refl | exact IH].
Qed.

Lemma Forall2_same_terms_trans (a b c : list payment) :
  Forall2 same_terms a b -> Forall2 same_terms b c -> Forall2 same_terms a c.
Proof.
  intros Hab. revert c. induction Hab as [| x y a b Hxy _ IH]; intros c Hbc.
  - inversion Hbc. constructor.
  - inversion Hbc as [| y' z b' c' Hyz Hrest]; subst.
    constructor; [eapply same_terms_trans; eassumption | now apply IH].
Qed.

Lemma process_due_terms (b : bool) (due : list payment) :
  forall (s s' : state W) (r : res (list (Z * outcome))),
    process_due E b due s = (r, s') ->
    Forall2 same_terms (payments_of s) (payments_of s').
Proof.
  induction due as [| p rest IH]; intros s s' r.
  - cbn. intros H; injection H as _ <-. apply Forall2_same_terms_refl.
  - cbn [process_due]. unfold bind at 1.
    destruct (dispatch_due_spec E b p s) as (o & s1 & Hd & Ho).
    rewrite Hd. unfold bind at 1.
    destruct (process_due E b rest s1) as [[os | e] s2] eqn:Hrest;
      intros H; injection H as _ <-.
    all: apply Forall2_same_terms_trans with (b := payments_of s1);
      [| eapply IH; eassumption].
    all: destruct (made_its_write o);
      [| rewrite Ho; apply Forall2_same_terms_refl].
    all: destruct Ho as (u & _ & ->); apply Forall2_same_terms_update.
Qed.

(** Whatever happens in a tick, the store holds the same records
    afterwards, in the same order, and each of them with the same owner,
    addresses, amount, schedule, creation time and key as before: a tick
    writes nothing but [active] and [next_execution], and it neither adds
    nor deletes a record. *)
Theorem tick_keeps_the_terms_of_every_record (b : bool) (s : state W) :
  Forall2 same_terms (payments_of s)
    (payments_of (snd (process_scheduled_payments E b s))).
Proof.
  unfold process_scheduled_payments, get_all_due_scheduled_payments.
  destruct s as [d w tr]. simpl_state.
  destruct (clock E w) as [t w1] eqn:Hc. simpl_state.
  destruct (mongo E w1) as [[[] | e] w2] eqn:Hm; simpl_state.
  - destruct (process_due E b (filter (is_due t) (scheduled_payments d))
                (mk_state d w2 tr)) as [r s'] eqn:Hrun.
    apply process_due_terms in Hrun. exact Hrun.
  - apply Forall2_same_terms_refl.
Qed.


(** A record whose schedule type is none of the three is paid like any
    other, yet no write follows: the store is left as it was, so the
    record stays due, and the processing never ends as one that made its
    store write, with or without a context. *)
Theorem unknown_kind_is_paid_and_left_due (b : bool) (p : payment)
    (s : state W) :
  known_kind (schedule_type p) = false ->
  let run := dispatch_due E b p s in
  payments_of (snd run) = payments_of s
  /\ (forall o, fst run = Ok o -> made_its_write o = false)
  /\ (fst run = Ok OUnknownType ->
      exists evs t,
        st_trace (snd run) = st_trace s ++ evs
        /\ submissions evs = [t] /\ pays p t).
Proof.
  intros Hk run. subst run.
  destruct (dispatch_due_trace b p s)
    as (o & s' & evs & Hrun & Htr & _ & _ & Ho).
  rewrite Hrun. cbn [fst snd].
  assert (made_its_write o = false ->
          forall o', Ok o = Ok o' :> res outcome -> made_its_write o' = false)
    as Hsame by (intros Hf o' Heq; injection Heq as <-; exact Hf).
  destruct o; cbn in Ho.
  - destruct Ho as [_ Hdb]. unfold payments_of. rewrite Hdb.
    repeat split; try discriminate. now apply Hsame.
  - destruct Ho as [_ Hdb]. unfold payments_of. rewrite Hdb.
    repeat split; try discriminate. now apply Hsame.
  - destruct Ho as (_ & Hps & t & Hsub & Hp).
    split; [assumption |]. split; [now apply Hsame |]. intros _. eauto.
  - destruct Ho as [Hk' _]. congruence.
  - destruct Ho as [Hps _].
    split; [assumption |]. split; [now apply Hsame | discriminate].
  - destruct Ho as [Hk' _]. congruence.
Qed.


(** The pre-flight of a scheduled payment: once the sender's wallet is
    found, the balance [B] and the fee quote answered decide alone.  Below
    amount plus fee the record is skipped with nothing asked of the
    network any more and nothing written; from amount plus fee on
    (equality passes) the transaction count is the next thing asked. *)
Theorem scheduled_payment_is_guarded (b : bool) (p : payment) (s : state W)
    (wal : wallet) (w1 w2 w3 : W) (B : Z) (g : gas_params) :
  mongo E (st_world s) = (Ok tt, w1) ->
  find_wallet (sender_id p) (wallets (st_db s)) = Some wal ->
  get_balance E (w_address wal) w1 = (Ok B, w2) ->
  optimal_gas E w2 = (Ok g, w3) ->
  let required := amount_wei p + estimated_gas_cost_wei g in
  let run := dispatch_due E b p s in
  (fst run = Ok OInsufficient <-> B < required)
  /\ (B < required ->
      snd run = mk_state (st_db s) w3 (st_trace s))
  /\ (required <= B ->
      exists answer evs,
        st_trace (snd run)
        = st_trace s ++ EvTxCount (w_address wal) answer :: evs).
Proof.
  intros Hm Hw Hb Hg required run. subst required run.
  unfold dispatch_due, get_wallet, save_pending_notification,
    update_scheduled_payment.
  destruct s as [d w tr]. simpl_state. rewrite Hm. simpl_state.
  rewrite Hw. simpl_state. rewrite Hb. simpl_state. rewrite Hg. simpl_state.
  destruct (B <? amount_wei p + estimated_gas_cost_wei g) eqn:Hlt.
  - apply Z.ltb_lt in Hlt. simpl_state.
    split; [tauto |]. split; [reflexivity |]. lia.
  - apply Z.ltb_ge in Hlt. run E.
    all: rewrite <- ?app_assoc; cbn [app].
    all: split; [split; [discriminate | lia] |].
    all: split; [lia |].
    all: intros _; eexists; eexists; reflexivity.
Qed.

(** The clock reading that a processing moves its record by is taken at
    most eight calls after the processing began. *)
Lemma dispatch_due_reads (b : bool) (p : payment) (s s' : state W)
    (o : outcome) :
  dispatch_due E b p s = (Ok o, s') ->
  made_its_write o = true ->
  exists u, reschedule_in E (within E 8 (st_world s)) p u
            /\ payments_of s' = update_payment (p_id p) u (payments_of s).
Proof.
  unfold dispatch_due, get_wallet, save_pending_notification,
    update_scheduled_payment.
  destruct s as [d w tr]. cbn [st_world]. run E.
  all: intros H; injection H as <- <-; cbn [made_its_write]; intros Hwrote;
    try discriminate Hwrote.
  all: eexists; (split; [| reflexivity]); unfold reschedule_in.
  all: repeat match goal with
         | H : String.eqb _ _ = true |- _ => apply String.eqb_eq in H
         end.
  all: try (left; split; [assumption | reflexivity]).
  all: match goal with
       | C : clock E ?w = (?t, _), N : croniter_get_next ?x ?t = Ok ?n |- _ =>
           right; left; split; [assumption |];
           exists w, x, n; rewrite C; (split; [reach E |]); auto
       | C : clock E ?w = (?t, _), N : add_days ?t ?x = Ok ?n |- _ =>
           right; right; split; [assumption |];
           exists w, x, n; rewrite C; (split; [reach E |]); auto
       end.
Qed.

(** A weekly record whose stored next execution is an instant of its own
    cron rule, dispatched within the week that follows that instant, is
    moved on by exactly seven days, with or without a context.  That the
    dispatch falls in that week is asked of every reading the clock can
    give within the eight calls that come before the reading of the
    dispatch. *)
Theorem weekly_dispatch_moves_on_a_week (b : bool) (p : payment)
    (s s' : state W) (o : outcome) (expr : string) (t0 : datetime) :
  schedule_type p = "weekly" ->
  schedule_value p = SVCron expr ->
  croniter_get_next expr t0 = Ok (next_execution p) ->
  (forall w, within E 8 (st_world s) w ->
             next_execution p <= fst (clock E w)
             < next_execution p + USEC_PER_WEEK) ->
  find_payment (p_id p) (payments_of s) = Some p ->
  dispatch_due E b p s = (Ok o, s') ->
  made_its_write o = true ->
  find_payment (p_id p) (payments_of s')
  = Some (apply_update
            (SetNextExecution (next_execution p + USEC_PER_WEEK)) p).
Proof.
  intros Hty Hv Hslot Hclock Hfind Hrun Hwrote.
  destruct (dispatch_due_reads _ _ _ _ _ Hrun Hwrote) as (u & Hu & Hps).
  rewrite Hps, find_update_same, Hfind. cbn [option_map]. do 2 f_equal.
  destruct Hu as [[Ht _] | [(_ & w & x & next & Hw & Hx & Hn & ->)
                           | [Ht _]]];
    try (rewrite Hty in Ht; discriminate).
  rewrite Hv in Hx. injection Hx as <-. f_equal.
  specialize (Hclock w Hw).
  revert Hslot Hn. unfold croniter_get_next.
  destruct (cron_dow expr) as [c |]; [| discriminate].
  set (offset := (c + 6) mod 7 * USEC_PER_DAY + 12 * USEC_PER_HOUR).
  destruct (valid_datetime _); [| discriminate].
  intros H1; injection H1 as H1.
  destruct (valid_datetime _); [| discriminate].
  intros H2; injection H2 as <-.
  rewrite <- H1 in *.
  set (q0 := (t0 - offset) / USEC_PER_WEEK) in *.
  assert ((fst (clock E w) - offset) / USEC_PER_WEEK = q0 + 1) as ->.
  { symmetry. apply Z.div_unique with
      (r := fst (clock E w) - offset - (q0 + 1) * USEC_PER_WEEK).
    - left. unfold USEC_PER_WEEK, USEC_PER_DAY in *. lia.
    - unfold USEC_PER_WEEK, USEC_PER_DAY in *. lia. }
  unfold USEC_PER_WEEK, USEC_PER_DAY. lia.
Qed.

(** The processing of a periodic record of [n] days that reaches its
    store write, with or without a context, the clock being at or after
    the due time, sets the next execution [n] days after the reading of
    the clock taken at the dispatch: the new date is at least [n] days
    after the old one, and later by as much as the dispatch was late.
    That reading is taken at most eight calls after the processing began,
    and the clock is asked to be at or after the due time over these
    calls only. *)
Theorem periodic_dispatch_is_anchored_at_the_dispatch (b : bool)
    (p : payment) (s s' : state W) (o : outcome) (n : Z) :
  schedule_type p = "periodic" ->
  schedule_value p = SVDays n ->
  (forall w, within E 8 (st_world s) w ->
             next_execution p <= fst (clock E w)) ->
  find_payment (p_id p) (payments_of s) = Some p ->
  dispatch_due E b p s = (Ok o, s') ->
  made_its_write o = true ->
  exists w,
    let d := fst (clock E w) in
    find_payment (p_id p) (payments_of s')
    = Some (apply_update (SetNextExecution (d + n * USEC_PER_DAY)) p)
    /\ next_execution p + n * USEC_PER_DAY <= d + n * USEC_PER_DAY
    /\ within E 8 (st_world s) w.
Proof.
  intros Hty Hv Hclock Hfind Hrun Hwrote.
  destruct (dispatch_due_reads _ _ _ _ _ Hrun Hwrote) as (u & Hu & Hps).
  destruct Hu as [[Ht _] | [[Ht _]
                           | (_ & w & x & next & Hw & Hx & Hn & ->)]];
    try (rewrite Hty in Ht; discriminate).
  rewrite Hv in Hx. injection Hx as <-.
  apply add_days_ok in Hn. destruct Hn as [-> _].
  exists w. cbv zeta. split; [| split].
  - rewrite Hps, find_update_same, Hfind. reflexivity.
  - specialize (Hclock w Hw). lia.
  - exact Hw.
Qed.


(** A click on a cancel button, by whoever clicks, switches the record
    off and touches nothing else of it or of any other record; the record
    is kept in the store, and from then on no scan returns it and no tick
    changes it. *)
Theorem cancelled_payment_is_never_dispatched (b : bool)
    (user_id : string) (username : option string) (payment_id : Z)
    (p : payment) (s s1 : state W) :
  NoDup (map p_id (payments_of s)) ->
  find_payment payment_id (payments_of s) = Some p ->
  cancel_scheduled E user_id username payment_id s = (Ok tt, s1) ->
  let q := apply_update (SetActive false) p in
  find_payment payment_id (payments_of s1) = Some q
  /\ Forall2 same_terms (payments_of s) (payments_of s1)
  /\ (forall j, j <> payment_id ->
                find_payment j (payments_of s1)
                = find_payment j (payments_of s))
  /\ forall s2, after_ticks E b s1 s2 ->
        find_payment payment_id (payments_of s2) = Some q
        /\ forall t r, In r (filter (is_due t) (payments_of s2)) ->
                       p_id r <> payment_id.
Proof.
  intros Hnd Hfind Hrun q.
  assert (payments_of s1
          = update_payment payment_id (SetActive false) (payments_of s))
    as Hps.
  { revert Hrun. unfold cancel_scheduled, update_username_mapping,
      update_scheduled_payment.
    destruct s as [d w tr]. run E.
    all: intros H; try discriminate H.
    all: injection H as <-; reflexivity. }
  assert (find_payment payment_id (payments_of s1) = Some q) as Hq.
  { rewrite Hps, find_update_same, Hfind. reflexivity. }
  assert (NoDup (map p_id (payments_of s1))) as Hnd1
    by (rewrite Hps, update_payment_ids; assumption).
  split; [assumption |].
  split; [rewrite Hps; apply Forall2_same_terms_update |].
  split; [intros j Hj; rewrite Hps; apply find_update_other; congruence |].
  intros s2 Hticks.
  destruct (inactive_is_kept E b _ _ _ _ Hticks Hnd1 Hq eq_refl)
    as [Hnd2 Hq2].
  split; [assumption |].
  intros t r Hr Hid. apply filter_In in Hr. destruct Hr as [Hr Hdue].
  pose proof (find_payment_in _ _ Hnd2 Hr) as Hfr.
  rewrite Hid, Hq2 in Hfr. injection Hfr as <-.
  unfold is_due in Hdue. cbn in Hdue. rewrite andb_false_r in Hdue.
  discriminate.
Qed.


End TickMore.

Lemma unknown_kind_is_paid_and_left_due_witness :
  let p :=
    mk_payment 4 "1001" "0xA11CE" "0xB0B" "0xB0B" "0.01" 1000 "monthly"
      (SVDays 30) t_ref t_ref true false None in
  let s := start (db_with [p]) (quiet 1 rich) in
  let run := dispatch_due world true p s in
  payments_of (snd run) = payments_of s
  /\ (forall o, fst run = Ok o -> made_its_write o = false)
  /\ (fst run = Ok OUnknownType ->
      exists evs t,
        st_trace (snd run) = st_trace s ++ evs
        /\ submissions evs = [t] /\ pays p t).
Proof.
  apply (unknown_kind_is_paid_and_left_due world true). reflexivity.
Defined.


Lemma scheduled_payment_is_guarded_witness :
  let s := start (db_with [rent]) (quiet 1 211000) in
  let required := amount_wei rent + estimated_gas_cost_wei (Legacy 10 21000) in
  let run := dispatch_due world false rent s in
  (fst run = Ok OInsufficient <-> 211000 < required)
  /\ (211000 < required ->
      snd run = mk_state (st_db s) (quiet 1 211000) (st_trace s))
  /\ (required <= 211000 ->
      exists answer evs,
        st_trace (snd run)
        = st_trace s ++ EvTxCount (w_address alice) answer :: evs).
Proof.
  apply (scheduled_payment_is_guarded world false rent
           (start (db_with [rent]) (quiet 1 211000)) alice
           (quiet 1 211000) (quiet 1 211000) (quiet 1 211000) 211000
           (Legacy 10 21000));
    reflexivity.
Defined.

(** In the scripted world, [n] calls move the clock on by at most [n]
    steps, and never back. *)
Lemma within_world (n : nat) (w0 w : sim) :
  within world n w0 w ->
  0 <= s_step w0 ->
  s_step w = s_step w0
  /\ s_now w0 <= s_now w <= s_now w0 + Z.of_nat n * s_step w0.
Proof.
  induction 1 as [n w | n w0 w _ IH | n w0 w a _ IH | n w0 w a _ IH
                 | n w0 w _ IH | n w0 w t k _ IH | n w0 w _ IH
                 | n w0 w c m _ IH | n w0 w _ IH]; intros Hstep.
  all: try (specialize (IH Hstep); destruct IH as (IH1 & IH2 & IH3);
            rewrite Nat2Z.inj_succ).
  - split; [reflexivity | nia].
  - cbn -[Z.of_nat Z.mul Z.add]. nia.
  - cbn -[Z.of_nat Z.mul Z.add]. nia.
  - cbn -[Z.of_nat Z.mul Z.add]. nia.
  - cbn -[Z.of_nat Z.mul Z.add]. nia.
  - cbn -[Z.of_nat Z.mul Z.add]. unfold sim_submit.
    destruct (next_answer _). cbn -[Z.of_nat Z.mul Z.add]. nia.
  - cbn -[Z.of_nat Z.mul Z.add]. unfold sim_mongo.
    destruct (next_answer _). cbn -[Z.of_nat Z.mul Z.add]. nia.
  - cbn -[Z.of_nat Z.mul Z.add]. unfold sim_handoff.
    destruct (next_answer _). cbn -[Z.of_nat Z.mul Z.add]. nia.
  - cbn -[Z.of_nat Z.mul Z.add]. unfold sim_token.
    destruct (s_keys w); cbn -[Z.of_nat Z.mul Z.add]; nia.
Qed.

Lemma weekly_dispatch_moves_on_a_week_witness :
  find_payment 5
    (payments_of
       (snd (dispatch_due world true weekly_gift
               (start (db_with [weekly_gift]) (quiet 1 rich)))))
  = Some (apply_update (SetNextExecution (monday_noon + USEC_PER_WEEK))
            weekly_gift).
Proof.
  apply (weekly_dispatch_moves_on_a_week world true weekly_gift
           (start (db_with [weekly_gift]) (quiet 1 rich)) _
           (OLateError "0xhash5" "TypeError")
           "0 12 * * 1" (monday_noon - USEC_PER_DAY)).
  - reflexivity.
  - reflexivity.
  - vm_compute. reflexivity.
  - intros w Hw. apply within_world in Hw; [| cbn; lia].
    cbn in Hw |- *. unfold t_ref, monday_noon, USEC_PER_WEEK, USEC_PER_DAY in *.
    lia.
  - reflexivity.
  - vm_compute. reflexivity.
  - reflexivity.
Defined.

Lemma periodic_dispatch_is_anchored_at_the_dispatch_witness :
  exists w,
    let d := fst (clock world w) in
    find_payment 3
      (payments_of
         (snd (dispatch_due world true allowance
                 (start (db_with [allowance]) (quiet 1 rich)))))
    = Some (apply_update (SetNextExecution (d + 3 * USEC_PER_DAY)) allowance)
    /\ next_execution allowance + 3 * USEC_PER_DAY <= d + 3 * USEC_PER_DAY
    /\ within world 8 (st_world (start (db_with [allowance]) (quiet 1 rich)))
         w.
Proof.
  apply (periodic_dispatch_is_anchored_at_the_dispatch world true allowance
           (start (db_with [allowance]) (quiet 1 rich)) _
           (OLateError "0xhash5" "TypeError") 3).
  - reflexivity.
  - reflexivity.
  - intros w Hw. apply within_world in Hw; [| cbn; lia].
    cbn in Hw |- *. unfold t_ref in *. lia.
  - reflexivity.
  - vm_compute. reflexivity.
  - reflexivity.
Defined.

Lemma cancelled_payment_is_never_dispatched_witness :
  let s := start (db_with [rent; allowance]) (quiet 1 rich) in
  let s1 := snd (cancel_scheduled world "7777" (Some "mallory") 3 s) in
  let q := apply_update (SetActive false) allowance in
  find_payment 3 (payments_of s1) = Some q
  /\ Forall2 same_terms (payments_of s) (payments_of s1)
  /\ (forall j, j <> 3 ->
                find_payment j (payments_of s1)
                = find_payment j (payments_of s))
  /\ forall s2, after_ticks world false s1 s2 ->
        find_payment 3 (payments_of s2) = Some q
        /\ forall t r, In r (filter (is_due t) (payments_of s2)) ->
                       p_id r <> 3.
Proof.
  apply (cancelled_payment_is_never_dispatched world false "7777"
           (Some "mallory") 3 allowance
           (start (db_with [rent; allowance]) (quiet 1 rich))).
  - repeat constructor; cbn; intuition discriminate.
  - reflexivity.
  - vm_compute. reflexivity.
Defined.

(** ** The collections: what is written is what is read *)

Lemma find_mapping_upsert_same (u uid : string) (l : list (string * string)) :
  find_mapping u (upsert_mapping u uid l) = Some uid.
Proof.
  induction l as [| [k v] l IH]; cbn [upsert_mapping find_mapping].
  - now rewrite String.eqb_refl.
  - destruct (String.eqb k u) eqn:Hk; cbn [find_mapping]; now rewrite Hk.
Qed.

Lemma find_mapping_upsert_other (u v uid : string)
    (l : list (string * string)) :
  v <> u ->
  find_mapping v (upsert_mapping u uid l) = find_mapping v l.
Proof.
  intros Hne. induction l as [| [k x] l IH]; cbn [upsert_mapping find_mapping].
  - destruct (String.eqb u v) eqn:Huv; [| reflexivity].
    apply String.eqb_eq in Huv. congruence.
  - destruct (String.eqb k u) eqn:Hk; cbn [find_mapping].
    + apply String.eqb_eq in Hk. subst k.
      destruct (String.eqb u v) eqn:Huv; [| reflexivity].
      apply String.eqb_eq in Huv. congruence.
    + destruct (String.eqb k v); [reflexivity | exact IH].
Qed.

Lemma find_pending_push_same (u : string) (n : notification)
    (o : list (string * list notification)) :
  find_pending u (push_pending u n o) = find_pending u o ++ [n].
Proof.
  induction o as [| [k ns] o IH]; cbn [push_pending find_pending].
  - now rewrite String.eqb_refl.
  - destruct (String.eqb k u) eqn:Hk; cbn [find_pending]; now rewrite Hk.
Qed.

Lemma find_pending_push_other (u v : string) (n : notification)
    (o : list (string * list notification)) :
  v <> u ->
  find_pending v (push_pending u n o) = find_pending v o.
Proof.
  intros Hne. induction o as [| [k ns] o IH]; cbn [push_pending find_pending].
  - destruct (String.eqb u v) eqn:Huv; [| reflexivity].
    apply String.eqb_eq in Huv. congruence.
  - destruct (String.eqb k u) eqn:Hk; cbn [find_pending].
    + apply String.eqb_eq in Hk. subst k.
      destruct (String.eqb u v) eqn:Huv; [| reflexivity].
      apply String.eqb_eq in Huv. congruence.
    + destruct (String.eqb k v); [reflexivity | exact IH].
Qed.

Section RoundTrips.

Context {W : Type} (E : World W).

(** After [update_username_mapping] went through for a username, a lookup
    of that username in any letter case, whenever it answers, answers the
    user id just written; a lookup of a name that differs in more than
    case answers what it answered before. *)
Theorem username_mapping_round_trip (user_id u : string) (s s1 : state W) :
  u <> "" ->
  update_username_mapping E user_id (Some u) s = (Ok tt, s1) ->
  (forall u' w tr r s2,
      lower u' = lower u ->
      get_user_id_by_username E u' (mk_state (st_db s1) w tr) = (Ok r, s2) ->
      r = Some user_id)
  /\ (forall v w tr,
        lower v <> lower u ->
        fst (get_user_id_by_username E v (mk_state (st_db s1) w tr))
        = fst (get_user_id_by_username E v (mk_state (st_db s) w tr))).
Proof.
  intros Hu Hrun.
  assert (is_empty u = false) as Hne by (destruct u; [congruence | reflexivity]).
  assert (username_mapping (st_db s1)
          = upsert_mapping (lower u) user_id (username_mapping (st_db s)))
    as Hmap.
  { revert Hrun. unfold update_username_mapping. rewrite Hne.
    destruct s as [d w tr]. run E.
    all: intros H; try discriminate H.
    injection H as <-. reflexivity. }
  split.
  - intros u' w tr r s2 Hcase. unfold get_user_id_by_username. run E.
    all: intros H; try discriminate H.
    injection H as <- _. rewrite Hmap, Hcase.
    apply find_mapping_upsert_same.
  - intros v w tr Hcase. unfold get_user_id_by_username. run E.
    all: cbn [fst]; try reflexivity.
    rewrite Hmap. f_equal. now apply find_mapping_upsert_other.
Qed.

(** After [save_pending_notification] went through for a username, what
    [get_pending_notifications] reads under that username in any letter
    case, whenever it answers, is what was there followed by the new
    entry; the outbox of a name that differs in more than case is as it
    was. *)
Theorem outbox_round_trip (u : string) (n : notification)
    (s s1 : state W) :
  save_pending_notification E u n s = (Ok tt, s1) ->
  (forall u' w tr r s2,
      lower u' = lower u ->
      get_pending_notifications E u' (mk_state (st_db s1) w tr) = (Ok r, s2) ->
      r = outbox_of (lower u) s ++ [n])
  /\ (forall v, lower v <> lower u ->
                outbox_of (lower v) s1 = outbox_of (lower v) s)
  /\ wallets (st_db s1) = wallets (st_db s)
  /\ payments_of s1 = payments_of s.
Proof.
  intros Hrun.
  assert (st_db s1
          = set_pending (st_db s)
              (push_pending (lower u) n (pending_notifications (st_db s))))
    as Hdb.
  { revert Hrun. unfold save_pending_notification.
    destruct s as [d w tr]. run E.
    all: intros H; try discriminate H.
    injection H as <-. reflexivity. }
  split; [| split; [| split]].
  - intros u' w tr r s2 Hcase. unfold get_pending_notifications. run E.
    all: intros H; try discriminate H.
    injection H as <- _. rewrite Hdb, Hcase. cbn.
    apply find_pending_push_same.
  - intros v Hcase. unfold outbox_of. rewrite Hdb. cbn.
    now apply find_pending_push_other.
  - now rewrite Hdb.
  - unfold payments_of. now rewrite Hdb.
Qed.

End RoundTrips.

Lemma username_mapping_round_trip_witness :
  let s := start empty_db (quiet 1 rich) in
  let s1 := snd (update_username_mapping world "2002" (Some "Bob") s) in
  (forall u' w tr r s2,
      lower u' = lower "Bob" ->
      get_user_id_by_username world u' (mk_state (st_db s1) w tr) = (Ok r, s2) ->
      r = Some "2002")
  /\ (forall v w tr,
        lower v <> lower "Bob" ->
        fst (get_user_id_by_username world v (mk_state (st_db s1) w tr))
        = fst (get_user_id_by_username world v (mk_state (st_db s) w tr))).
Proof.
  apply (username_mapping_round_trip world "2002" "Bob"
           (start empty_db (quiet 1 rich))).
  - discriminate.
  - vm_compute. reflexivity.
Defined.

Lemma outbox_round_trip_witness :
  let s := start db_outbox (quiet 1 rich) in
  let n := mk_notification (Some t_ref) "received_eth" "0.03" "alice"
             (Some "0xhash7") false None None t_ref in
  let s1 := snd (save_pending_notification world "BOB" n s) in
  (forall u' w tr r s2,
      lower u' = lower "BOB" ->
      get_pending_notifications world u' (mk_state (st_db s1) w tr)
      = (Ok r, s2) ->
      r = outbox_of (lower "BOB") s ++ [n])
  /\ (forall v, lower v <> lower "BOB" ->
                outbox_of (lower v) s1 = outbox_of (lower v) s)
  /\ wallets (st_db s1) = wallets (st_db s)
  /\ payments_of s1 = payments_of s.
Proof.
  apply (outbox_round_trip world "BOB"
           (mk_notification (Some t_ref) "received_eth" "0.03" "alice"
              (Some "0xhash7") false None None t_ref)
           (start db_outbox (quiet 1 rich))).
  vm_compute. reflexivity.
Defined.

(** ** The commands that prepare a payment *)

Lemma find_wallet_some (uid : string) (ws : list wallet) (w : wallet) :
  find_wallet uid ws = Some w -> In w ws.
Proof.
  induction ws as [| x ws IH]; cbn [find_wallet]; [discriminate |].
  destruct (String.eqb (w_user_id x) uid).
  - intros H; injection H as <-. now left.
  - intros H. right. auto.
Qed.

Lemma find_wallet_by_name_some (name : string) (ws : list wallet)
    (w : wallet) :
  find_wallet_by_name name ws = Some w -> In w ws.
Proof.
  induction ws as [| x ws IH]; cbn [find_wallet_by_name]; [discriminate |].
  destruct (w_username x) as [u |].
  - destruct (String.eqb (lower u) (lower name)).
    + intros H; injection H as <-. now left.
    + intros H. right. auto.
  - intros H. right. auto.
Qed.

Lemma submissions_reply (tr : list event) (r : reply) :
  submissions (tr ++ [EvReply r]) = submissions tr.
Proof. rewrite submissions_app. cbn. apply app_nil_r. Qed.

Section Prepare.

Context {W : Type} (E : World W).

Lemma batch_resolve_frame (u : option string) (amount : string)
    (amount_wei : Z) (names : list string) :
  forall s : state W,
    st_db (snd (batch_resolve E u amount amount_wei names s)) = st_db s
    /\ submissions (st_trace (snd (batch_resolve E u amount amount_wei names s)))
       = submissions (st_trace s).
Proof.
  induction names as [| name rest IH]; intros s.
  - cbn. split; reflexivity.
  - cbn [batch_resolve].
    unfold is_own_username, get_wallet_by_username, get_user_id_by_username,
      get_wallet, new_wallet_key, save_wallet.
    destruct s as [d w tr]. run E.
    all: try match goal with
           | |- context [batch_resolve E ?a ?b ?c ?l ?st] =>
               let H := fresh "Hrec" in
               pose proof (IH st) as H;
               destruct (batch_resolve E a b c l st) as [[? | ?] ?];
               cbn [fst snd st_db st_trace] in H
           end.
    all: simpl_state; cbn [fst snd st_db st_trace].
    all: rewrite ?submissions_reply in *.
    all: try (split; reflexivity).
    all: try assumption.
    all: try (match goal with
              | H : is_empty _ = true |- _ => cbn in H; discriminate H
              end).
Qed.

Lemma batch_resolve_multi_frame (u : option string)
    (pairs : list (string * (string * Z))) :
  forall s : state W,
    st_db (snd (batch_resolve_multi E u pairs s)) = st_db s
    /\ submissions (st_trace (snd (batch_resolve_multi E u pairs s)))
       = submissions (st_trace s).
Proof.
  induction pairs as [| [name [amount amount_wei]] rest IH]; intros s.
  - cbn. split; reflexivity.
  - cbn [batch_resolve_multi].
    unfold is_own_username, get_wallet_by_username, get_user_id_by_username,
      get_wallet, new_wallet_key.
    destruct s as [d w tr]. run E.
    all: try match goal with
           | |- context [batch_resolve_multi E ?a ?l ?st] =>
               let H := fresh "Hrec" in
               pose proof (IH st) as H;
               destruct (batch_resolve_multi E a l st) as [[? | ?] ?];
               cbn [fst snd st_db st_trace] in H
           end.
    all: simpl_state; cbn [fst snd st_db st_trace].
    all: rewrite ?submissions_reply in *.
    all: try (split; reflexivity).
    all: assumption.
Qed.

Lemma batch_guard_frame (w : wallet) (rs : list recipient) (s : state W) :
  st_db (snd (batch_guard E w rs s)) = st_db s
  /\ submissions (st_trace (snd (batch_guard E w rs s)))
     = submissions (st_trace s).
Proof.
  unfold batch_guard. destruct s as [d w0 tr]. destruct rs; run E.
  all: cbn [fst snd st_db st_trace]; rewrite ?submissions_reply.
  all: split; reflexivity.
Qed.

(** [/pay], [/batchpay] and [/batchpaymulti] only prepare: whatever the
    arguments and the world, and however the command ends, the four
    collections are as they were and nothing has been submitted to the
    network.  In particular the wallet generated for a recipient without
    one is not written to the wallets collection. *)
Theorem preparing_a_payment_writes_nothing (u : option string) (w : wallet)
    (s : state W) :
  (forall recipient_arg amount amount_wei,
      let run := pay E u w recipient_arg amount amount_wei s in
      st_db (snd run) = st_db s
      /\ submissions (st_trace (snd run)) = submissions (st_trace s))
  /\ (forall names amount amount_wei,
        let run := batch_payment E u w names amount amount_wei s in
        st_db (snd run) = st_db s
        /\ submissions (st_trace (snd run)) = submissions (st_trace s))
  /\ (forall pairs,
        let run := batch_payment_multi E u w pairs s in
        st_db (snd run) = st_db s
        /\ submissions (st_trace (snd run)) = submissions (st_trace s)).
Proof.
  split; [| split].
  - intros recipient_arg amount amount_wei. cbv zeta.
    unfold pay, pay_guard, is_own_username, get_wallet_by_username,
      get_user_id_by_username, get_wallet, new_wallet_key.
    destruct s as [d w0 tr]. run E.
    all: cbn [fst snd st_db st_trace]; rewrite ?submissions_reply.
    all: split; reflexivity.
  - intros names amount amount_wei. cbv zeta. unfold batch_payment, bind.
    pose proof (batch_resolve_frame u amount amount_wei names s) as [Hd Ht].
    destruct (batch_resolve E u amount amount_wei names s) as [[rs | e] s1].
    + cbn [fst snd] in Hd, Ht.
      destruct (batch_guard_frame w rs s1) as [Hd2 Ht2].
      rewrite Hd2, Ht2. now split.
    + cbn [fst snd] in *. now split.
  - intros pairs. cbv zeta. unfold batch_payment_multi, bind.
    pose proof (batch_resolve_multi_frame u pairs s) as [Hd Ht].
    destruct (batch_resolve_multi E u pairs s) as [[rs | e] s1].
    + cbn [fst snd] in Hd, Ht.
      destruct (batch_guard_frame w rs s1) as [Hd2 Ht2].
      rewrite Hd2, Ht2. now split.
    + cbn [fst snd] in *. now split.
Qed.

End Prepare.

(** ** Scheduling command *)

Lemma fresh_id_above (ps : list payment) (p : payment) :
  In p ps -> p_id p < fresh_id ps.
Proof.
  unfold fresh_id. induction ps as [| q ps IH]; [intros [] |].
  cbn [fold_right]. intros [-> | Hin]; [lia |].
  specialize (IH Hin). lia.
Qed.

Lemma find_payment_last (i : Z) (ps : list payment) (q : payment) :
  (forall p, In p ps -> p_id p <> i) -> p_id q = i ->
  find_payment i (ps ++ [q]) = Some q.
Proof.
  intros Hne Hq. induction ps as [| p ps IH]; cbn [app find_payment].
  - rewrite Hq, Z.eqb_refl. reflexivity.
  - destruct (p_id p =? i) eqn:Hp.
    + apply Z.eqb_eq in Hp. exfalso. apply (Hne p); [now left | exact Hp].
    + apply IH. intros p' Hin. apply Hne. now right.
Qed.

Lemma find_payment_new (ps : list payment) (q : payment) :
  p_id q = fresh_id ps ->
  find_payment (fresh_id ps) (ps ++ [q]) = Some q
  /\ ~ In (fresh_id ps) (map p_id ps).
Proof.
  intros Hq. split.
  - apply find_payment_last; [| exact Hq].
    intros p Hin. pose proof (fresh_id_above ps p Hin). lia.
  - intros Hin. apply in_map_iff in Hin as (p & Hp & Hin).
    pose proof (fresh_id_above ps p Hin). lia.
Qed.

Lemma prefix_0x_append (s : string) :
  String.prefix "0x" (append "0x" s) = true.
Proof. cbn. destruct s; reflexivity. Qed.

(** The parser's answer for a text it reads no clock for is the same at
    every instant. *)
Lemma parse_ignores_clock (schedule_string : string) (t t' : datetime) :
  parse_reads_clock schedule_string = false ->
  parse_schedule_string t schedule_string
  = parse_schedule_string t' schedule_string.
Proof.
  unfold parse_reads_clock, parse_schedule_string. cbv zeta.
  destruct (find_weekday 0 weekday_names _); [reflexivity |].
  destruct (search_every_days _); [discriminate |].
  destruct (search_date _) as [[[g1 g2] g3] |]; [| reflexivity].
  intros ->. reflexivity.
Qed.

Section Schedule.

Context {W : Type} (E : World W).

Lemma schedule_store_saved (user_id : string) (w : wallet) (amount : string)
    (amount_wei : Z) (stype : string) (svalue : sched_value) (next : datetime)
    (to_address display_name : string) (is_new : bool) (key : option string)
    (s s' : state W) (id : Z) (nx : datetime) :
  schedule_store E user_id w amount amount_wei stype svalue next to_address
    display_name is_new key s = (Ok (SchedSaved id nx), s') ->
  nx = next /\ id = fresh_id (payments_of s)
  /\ wallets (st_db s') = wallets (st_db s)
  /\ exists created,
       payments_of s'
       = payments_of s
         ++ [mk_payment id user_id (w_address w) to_address display_name
               amount amount_wei stype svalue next created true is_new
               (match key with
                | Some k => if is_new && negb (is_empty k) then Some k else None
                | None => None
                end)].
Proof.
  unfold schedule_store, save_scheduled_payment, get_scheduled_payments.
  destruct s as [d w0 tr]. run E.
  all: try (intros H; discriminate H).
  all: try match goal with
         | |- context [match ?l with [] => _ | _ :: _ => _ end] =>
             destruct l eqn:?
         end.
  all: run E.
  all: intros H; try discriminate H.
  all: injection H as <- <- <-.
  all: cbn [st_db wallets scheduled_payments].
  all: repeat split; eexists; reflexivity.
Qed.

Lemma schedule_payment_saved (user_id : string) (u : option string)
    (w : wallet) (recipient_arg amount : string) (amount_wei : Z)
    (schedule_str : string) (s s' : state W) (id : Z) (next : datetime) :
  schedule_payment E user_id u w recipient_arg amount amount_wei schedule_str s
  = (Ok (SchedSaved id next), s') ->
  exists stype svalue created to_address display_name is_new key,
    payments_of s'
    = payments_of s
      ++ [mk_payment id user_id (w_address w) to_address display_name amount
            amount_wei stype svalue next created true is_new key]
    /\ id = fresh_id (payments_of s)
    /\ wallets (st_db s') = wallets (st_db s)
    /\ schedule_of_parsed
         (parse_schedule_string (fst (clock E (st_world s))) schedule_str)
       = Some (stype, svalue)
    /\ calculate_next_execution
         (fst (clock E (if parse_reads_clock schedule_str
                        then snd (clock E (st_world s))
                        else st_world s)))
         stype svalue
       = Ok (Some next)
    /\ ((starts_with_at recipient_arg = true
         /\ display_name = append "@" (lstrip_at recipient_arg)
         /\ (forall name, u = Some name ->
                          lower (lstrip_at recipient_arg) <> lower name)
         /\ ((is_new = true
              /\ exists k, key = Some k /\ to_address = address_of_key E k
                           /\ String.prefix "0x" k = true)
             \/ (is_new = false /\ key = None
                 /\ exists rw, In rw (wallets (st_db s))
                               /\ to_address = w_address rw)))
        \/ (starts_with_at recipient_arg = false
            /\ is_address E recipient_arg = true
            /\ to_address = recipient_arg /\ display_name = recipient_arg
            /\ is_new = false /\ key = None)).
Proof.
  unfold schedule_payment. destruct s as [d w0 tr]. cbn [st_world].
  destruct (parse_reads_clock schedule_str) eqn:Hreads;
    [ simpl_state; destruct (clock E w0) as [t0 w1]; simpl_state
    | rewrite (parse_ignores_clock schedule_str (fst (clock E w0)) 0 Hreads);
      simpl_state ].
  all: match goal with
       | |- context [parse_schedule_string ?t ?x] =>
           destruct (parse_schedule_string t x)
             as [cron | unit days | date | | e] eqn:Hparse
       end; cbn [schedule_of_parsed]; simpl_state.
  all: try (intros H; discriminate H).
  all: match goal with
       | |- context [clock E ?w] =>
           is_var w; destruct (clock E w) as [t1 w2]
       end; simpl_state.
  all: match goal with
       | |- context [calculate_next_execution ?t ?a ?b] =>
           destruct (calculate_next_execution t a b) as [[nx |] | e] eqn:Hcalc
       end; simpl_state.
  all: try (intros H; discriminate H).
  all: unfold is_own_username, get_wallet_by_username, get_user_id_by_username,
         get_wallet, new_wallet_key, save_wallet.
  all: run E.
  all: try (intros H; discriminate H).
  all: try match goal with
         | H : is_empty _ = true |- _ => cbn in H; discriminate H
         end.
  all: intros H; apply schedule_store_saved in H;
         destruct H as (-> & Hid & Hw & created & Hps).
  all: cbn [payments_of st_db wallets scheduled_payments] in *.
  all: do 7 eexists.
  all: (split; [exact Hps |]); (split; [exact Hid |]); (split; [exact Hw |]).
  all: (split; [reflexivity |]); (split; [exact Hcalc |]).
  all: first
         [ right; repeat split; reflexivity
         | left; split; [reflexivity |]; split; [reflexivity |]; split;
           [ intros name Hname; injection Hname as <-;
             match goal with
             | Hq : String.eqb _ _ = false |- _ =>
                 apply String.eqb_neq in Hq; exact Hq
             end
           | first
               [ left; split; [reflexivity |]; eexists;
                 split; [reflexivity |]; split;
                 [reflexivity | apply prefix_0x_append]
               | right; split; [reflexivity |]; split; [reflexivity |];
                 eexists; split; [| reflexivity];
                 eauto using find_wallet_some, find_wallet_by_name_some ] ] ].
Qed.

(** A [/schedule] that answers "payment scheduled" has added one record to
    the collection and changed no other: the record carries a new id, is
    active, is the sender's, holds the amount asked, has the kind and the
    value that the parser reads in the schedule text at the first reading
    of the command's clock, and is first due at the instant announced,
    which the calculator gave for that kind and value at the reading it
    took: the second reading of the command when the parser took the
    first, the first when the parser took none.  A literal recipient is
    kept as typed and passed the address check; a username is never the
    sender's own. *)
Theorem scheduled_payment_is_stored_as_asked (user_id : string)
    (u : option string) (w : wallet) (recipient_arg amount_arg : string)
    (wei : Z) (schedule_str : string) (s s' : state W) (id : Z)
    (next : datetime) :
  schedule_payment E user_id u w recipient_arg amount_arg wei schedule_str s
  = (Ok (SchedSaved id next), s') ->
  exists p,
    payments_of s' = payments_of s ++ [p]
    /\ find_payment id (payments_of s') = Some p
    /\ ~ In id (map p_id (payments_of s))
    /\ p_id p = id /\ sender_id p = user_id
    /\ sender_address p = w_address w
    /\ amount p = amount_arg /\ amount_wei p = wei
    /\ active p = true /\ next_execution p = next
    /\ (let t0 := fst (clock E (st_world s)) in
        let w1 := if parse_reads_clock schedule_str
                  then snd (clock E (st_world s)) else st_world s in
        let t1 := fst (clock E w1) in
        schedule_of_parsed (parse_schedule_string t0 schedule_str)
        = Some (schedule_type p, schedule_value p)
        /\ calculate_next_execution t1 (schedule_type p) (schedule_value p)
           = Ok (Some next))
    /\ (if starts_with_at recipient_arg
        then recipient_display p = append "@" (lstrip_at recipient_arg)
             /\ forall name, u = Some name ->
                             lower (lstrip_at recipient_arg) <> lower name
        else recipient_address p = recipient_arg
             /\ recipient_display p = recipient_arg
             /\ is_address E recipient_arg = true).
Proof.
  intros Hrun. apply schedule_payment_saved in Hrun.
  destruct Hrun as (stype & svalue & created & to_address & display_name
                    & is_new & key & Hps & Hid & _ & Hparse & Hcalc
                    & Hrec).
  eexists. split; [exact Hps |].
  rewrite Hps, Hid.
  destruct (find_payment_new (payments_of s)
              (mk_payment (fresh_id (payments_of s)) user_id (w_address w)
                 to_address display_name amount_arg wei stype svalue next
                 created true is_new key) eq_refl) as [Hfind Hfresh].
  rewrite <- Hid in *.
  split; [exact Hfind |]. split; [exact Hfresh |].
  cbn. repeat (split; [reflexivity |]).
  split; [split; assumption |].
  destruct Hrec as [(-> & -> & Hown & _) | (-> & Haddr & -> & -> & _)].
  - split; [reflexivity | exact Hown].
  - repeat split; assumption.
Qed.

(** The record a [/schedule] stores for a username without a wallet holds
    the key generated for it, and its recipient address is the address of
    that key; the record stored for a username with a wallet holds no key
    and pays to the address of a stored wallet; the wallets collection is
    not written either way. *)
Theorem scheduled_payment_to_a_new_wallet_holds_its_key (user_id : string)
    (u : option string) (w : wallet) (recipient_arg amount : string)
    (amount_wei : Z) (schedule_str : string) (s s' : state W) (id : Z)
    (next : datetime) :
  schedule_payment E user_id u w recipient_arg amount amount_wei schedule_str s
  = (Ok (SchedSaved id next), s') ->
  exists p,
    find_payment id (payments_of s') = Some p
    /\ wallets (st_db s') = wallets (st_db s)
    /\ (if is_new_wallet p
        then exists k, private_key p = Some k
                       /\ recipient_address p = address_of_key E k
                       /\ String.prefix "0x" k = true
        else private_key p = None
             /\ (starts_with_at recipient_arg = true ->
                 exists rw, In rw (wallets (st_db s))
                            /\ recipient_address p = w_address rw)).
Proof.
  intros Hrun. apply schedule_payment_saved in Hrun.
  destruct Hrun as (stype & svalue & created & to_address & display_name
                    & is_new & key & Hps & Hid & Hw & _ & _ & Hrec).
  eexists. rewrite Hps, Hid.
  split; [apply find_payment_new; reflexivity |].
  split; [exact Hw |]. cbn [is_new_wallet private_key recipient_address].
  destruct Hrec as [(Hat & _ & _ & [(-> & k & -> & -> & Hk)
                                   | (-> & -> & rw & Hin & ->)])
                   | (Hat & _ & _ & _ & -> & ->)].
  - exists k. repeat split. exact Hk.
  - split; [reflexivity |]. intros _. exists rw. now split.
  - split; [reflexivity |]. rewrite Hat. discriminate.
Qed.

End Schedule.

Lemma scheduled_payment_is_stored_as_asked_witness :
  let s := start (db_with [rent]) (quiet 1 rich) in
  let s' :=
    snd (schedule_payment world "1001" (Some "alice") alice "0xB0B" "0.01"
           1000 "every 3 days" s) in
  exists p,
    payments_of s' = payments_of s ++ [p]
    /\ find_payment 2 (payments_of s') = Some p
    /\ ~ In 2 (map p_id (payments_of s))
    /\ p_id p = 2 /\ sender_id p = "1001"
    /\ sender_address p = w_address alice
    /\ amount p = "0.01" /\ amount_wei p = 1000
    /\ active p = true /\ next_execution p = 63884885400000001
    /\ (let t0 := fst (clock world (st_world s)) in
        let w1 := if parse_reads_clock "every 3 days"
                  then snd (clock world (st_world s)) else st_world s in
        let t1 := fst (clock world w1) in
        schedule_of_parsed (parse_schedule_string t0 "every 3 days")
        = Some (schedule_type p, schedule_value p)
        /\ calculate_next_execution t1 (schedule_type p) (schedule_value p)
           = Ok (Some 63884885400000001))
    /\ (if starts_with_at "0xB0B"
        then recipient_display p = append "@" (lstrip_at "0xB0B")
             /\ forall name, Some "alice" = Some name ->
                             lower (lstrip_at "0xB0B") <> lower name
        else recipient_address p = "0xB0B"
             /\ recipient_display p = "0xB0B"
             /\ is_address world "0xB0B" = true).
Proof.
  apply (scheduled_payment_is_stored_as_asked world "1001" (Some "alice")
           alice "0xB0B" "0.01" 1000 "every 3 days"
           (start (db_with [rent]) (quiet 1 rich))).
  vm_compute. reflexivity.
Defined.

Lemma scheduled_payment_to_a_new_wallet_holds_its_key_witness :
  let s := start empty_db (quiet 1 rich) in
  let s' :=
    snd (schedule_payment world "1001" (Some "alice") alice "@bob" "0.01"
           1000 "25-12-2025" s) in
  exists p,
    find_payment 1 (payments_of s') = Some p
    /\ wallets (st_db s') = wallets (st_db s)
    /\ (if is_new_wallet p
        then exists k, private_key p = Some k
                       /\ recipient_address p = address_of_key world k
                       /\ String.prefix "0x" k = true
        else private_key p = None
             /\ (starts_with_at "@bob" = true ->
                 exists rw, In rw (wallets (st_db s))
                            /\ recipient_address p = w_address rw)).
Proof.
  apply (scheduled_payment_to_a_new_wallet_holds_its_key world "1001"
           (Some "alice") alice "@bob" "0.01" 1000 "25-12-2025"
           (start empty_db (quiet 1 rich)) _ 1 63902260800000000).
  vm_compute. reflexivity.
Defined.

Lemma sum_amounts_same (a : Z) (rs : list recipient) :
  Forall (fun r => r_amount_wei r = a) rs ->
  sum_amounts rs = a * Z.of_nat (List.length rs).
Proof.
  unfold sum_amounts. induction 1 as [| r l Hr _ IH]; [cbn; lia |].
  cbn [fold_right List.length]. rewrite IH, Hr. lia.
Qed.

Section Entries.

Context {W : Type} (E : World W).

Lemma batch_resolve_entries (u : option string) (amount : string)
    (amount_wei : Z) (names : list string) :
  forall (s s' : state W) (rs : list recipient),
    batch_resolve E u amount amount_wei names s = (Ok rs, s') ->
    Forall (fun r => r_amount r = amount /\ r_amount_wei r = amount_wei
                     /\ well_prepared E u (wallets (st_db s)) r) rs
    /\ (List.length rs <= List.length names)%nat.
Proof.
  induction names as [| name rest IH]; intros s s' rs.
  - cbn. intros H; injection H as <- _. split; [apply Forall_nil | cbn; lia].
  - cbn [batch_resolve].
    unfold is_own_username, get_wallet_by_username, get_user_id_by_username,
      get_wallet, new_wallet_key, save_wallet.
    destruct s as [d w tr]. run E.
    all: try discriminate.
    all: try match goal with
           | H : is_empty _ = true |- _ => cbn in H; discriminate H
           end.
    all: try match goal with
           | |- context [batch_resolve E ?a ?b ?c ?l ?st] =>
               destruct (batch_resolve E a b c l st) as [[? | ?] ?]
                 eqn:Hrec; [apply IH in Hrec; destruct Hrec as [Hall Hlen];
                            cbn [st_db] in Hall |]
           end.
    all: simpl_state; intros H; try discriminate H.
    all: injection H as <- _; cbn [List.length].
    all: try (split; [assumption | lia]).
    all: split; [| lia].
    all: constructor; [| assumption].
    all: split; [reflexivity |]; split; [reflexivity |].
    all: unfold well_prepared;
         cbn [r_username r_display r_address r_is_new_wallet r_private_key].
    all: try (repeat split; (reflexivity || assumption)).
    all: split; [reflexivity |]; split;
           [ intros name0 Hname; injection Hname as <-;
             match goal with
             | Hq : String.eqb _ _ = false |- _ =>
                 apply String.eqb_neq in Hq; exact Hq
             end |].
    all: first
           [ eexists; split; [reflexivity |]; split;
             [reflexivity | apply prefix_0x_append]
           | split; [reflexivity |]; eexists; split; [| reflexivity];
             eauto using find_wallet_some, find_wallet_by_name_some ].
Qed.

(** Every entry that [/batchpay] puts before the sender for confirmation
    carries the one amount of the command; an entry for a username is never
    for the sender's own name, whatever the letter case; an entry for a
    username without a wallet holds the key generated for it and pays to
    the address of that key; an entry for a username with a wallet pays to
    the address of a stored wallet; an entry for a literal address passed
    the address check.  There are at most as many entries as recipients
    named, and the total is the amount times their number. *)
Theorem same_amount_batch_prepares_each_recipient (u : option string)
    (w : wallet) (names : list string) (amount : string) (amount_wei : Z)
    (s s' : state W) (rs : list recipient) (total_amount total_gas : Z) :
  batch_payment E u w names amount amount_wei s
  = (Ok (BatchPending rs total_amount total_gas), s') ->
  Forall (fun r => r_amount r = amount /\ r_amount_wei r = amount_wei
                   /\ well_prepared E u (wallets (st_db s)) r) rs
  /\ (List.length rs <= List.length names)%nat
  /\ total_amount = amount_wei * Z.of_nat (List.length rs).
Proof.
  unfold batch_payment, bind.
  destruct (batch_resolve E u amount amount_wei names s) as [[rs0 | e] s1]
    eqn:Hres; [| discriminate].
  apply batch_resolve_entries in Hres. destruct Hres as [Hall Hlen].
  unfold batch_guard. destruct s1 as [d1 w1 tr1].
  destruct rs0 as [| r0 rs0]; run E.
  all: intros H; try discriminate H.
  injection H as <- <- _ _.
  split; [exact Hall |]. split; [exact Hlen |].
  change (sum_amounts (r0 :: rs0)
          = amount_wei * Z.of_nat (List.length (r0 :: rs0))).
  apply sum_amounts_same. revert Hall. apply Forall_impl.
  intros r (_ & Hr & _). exact Hr.
Qed.

End Entries.

Lemma same_amount_batch_prepares_each_recipient_witness :
  let s := start empty_db (quiet 1 rich) in
  let names := ["@bob"; "@Alice"; "0xCA401"; "nobody"] in
  let rs := [newcomer; carol] in
  Forall (fun r => r_amount r = "0.01" /\ r_amount_wei r = 1000
                   /\ well_prepared world (Some "alice")
                        (wallets (st_db s)) r) rs
  /\ (List.length rs <= List.length names)%nat
  /\ 2000 = 1000 * Z.of_nat (List.length rs).
Proof.
  apply (same_amount_batch_prepares_each_recipient world (Some "alice") alice
           ["@bob"; "@Alice"; "0xCA401"; "nobody"] "0.01" 1000
           (start empty_db (quiet 1 rich))
           (snd (batch_payment world (Some "alice") alice
                   ["@bob"; "@Alice"; "0xCA401"; "nobody"] "0.01" 1000
                   (start empty_db (quiet 1 rich))))
           _ 2000 420000).
  vm_compute. reflexivity.
Defined.

(** ** Sending a confirmed batch *)

Section Send.

Context {W : Type} (E : World W).

(** A batch entry for a username whose transaction was accepted, and whose
    turn recorded nothing but that success, has left one notification in
    that user's outbox, behind those already there: it carries the hash
    the network answered and the amount of the entry and, when the entry is
    for a new wallet and holds its key, that key and the address paid. *)
Theorem paid_batch_entry_is_announced_with_its_key (from_address key : string)
    (u : option string) (i : Z) (r : recipient)
    (results : list batch_result) (x : batch_result) (s s' : state W) :
  starts_with_at (r_display r) = true ->
  batch_item E from_address key u i r results s = (Ok (results ++ [x]), s') ->
  is_success x = true ->
  exists n h,
    x = BSuccess (r_display r) (r_amount r) h (r_is_new_wallet r) (r_address r)
    /\ outbox_of (lower (lstrip_at (r_display r))) s'
       = outbox_of (lower (lstrip_at (r_display r))) s ++ [n]
    /\ n_type n = "received_eth" /\ n_tx_hash n = Some h
    /\ n_amount n = r_amount r /\ n_new_wallet n = r_is_new_wallet r
    /\ (forall k, r_is_new_wallet r = true -> r_private_key r = Some k ->
                  k <> "" ->
                  n_private_key n = Some k
                  /\ n_wallet_address n = Some (r_address r)).
Proof.
  intros Hat. unfold batch_item, save_pending_notification. rewrite Hat.
  destruct s as [d w tr]. run E.
  all: intros H; injection H as H <-.
  all: rewrite <- ?app_assoc in H; cbn [app] in H.
  all: apply app_inv_head in H; try discriminate H.
  all: injection H as <-.
  all: intros Hok; try discriminate Hok.
  all: do 2 eexists; split; [reflexivity |].
  all: cbn [outbox_of st_db pending_notifications].
  all: rewrite find_pending_push_same.
  all: split; [reflexivity |]; cbn.
  all: repeat (split; [reflexivity |]).
  all: intros k Hnew Hk Hne.
  - split; [exact Hk | reflexivity].
  - match goal with
    | Hb : _ && _ = false |- _ => rewrite Hnew, Hk in Hb; cbn in Hb
    end.
    destruct k; [congruence | discriminate].
Qed.

Lemma batch_item_pays (from_address key : string) (u : option string)
    (i : Z) (r : recipient) (results : list batch_result) (s : state W) :
  exists results' s' evs,
    batch_item E from_address key u i r results s = (Ok results', s')
    /\ st_trace s' = st_trace s ++ evs
    /\ (submissions evs = []
        \/ exists t, submissions evs = [t] /\ pays_recipient r t)
    /\ success_count results'
       = success_count results + Z.of_nat (List.length (accepted evs))
    /\ wallets (st_db s') = wallets (st_db s)
    /\ payments_of s' = payments_of s.
Proof.
  unfold batch_item, save_pending_notification.
  destruct s as [d w tr]. run E.
  all: do 3 eexists; (split; [reflexivity |]).
  all: rewrite <- ?app_assoc; cbn [app].
  all: (split; [reflexivity |]).
  all: cbn [submissions accepted List.length].
  all: unfold success_count; rewrite ?filter_app, ?length_app;
       cbn [filter is_success List.length app].
  all: split; [| split; [lia | split; reflexivity]].
  all: first [ left; reflexivity
             | right; eexists; split; [reflexivity |];
               unfold pays_recipient; cbn; repeat split ].
Qed.

Lemma accepted_app (a b : list event) :
  accepted (a ++ b) = accepted a ++ accepted b.
Proof.
  induction a as [| [? ? | ? [? | ?] | ? ? ? | ?] a IH]; cbn;
    rewrite ?IH; reflexivity.
Qed.

Lemma batch_loop_pays (from_address key : string) (u : option string)
    (rs : list recipient) :
  forall (i : Z) (results : list batch_result) (s : state W),
  exists results' s' evs,
    batch_loop E from_address key u i rs results s = (Ok results', s')
    /\ st_trace s' = st_trace s ++ evs
    /\ pays_in_order rs (submissions evs)
    /\ success_count results'
       = success_count results + Z.of_nat (List.length (accepted evs))
    /\ wallets (st_db s') = wallets (st_db s)
    /\ payments_of s' = payments_of s.
Proof.
  induction rs as [| r rs IH]; intros i results s.
  - exists results, s, []. cbn. rewrite app_nil_r.
    repeat split; [constructor | lia].
  - destruct (batch_item_pays from_address key u i r results s)
      as (res1 & s1 & ev1 & Hrun1 & Htr1 & Hpay1 & Hc1 & Hw1 & Hp1).
    destruct (IH (i + 1) res1 s1)
      as (res2 & s2 & ev2 & Hrun2 & Htr2 & Hpay2 & Hc2 & Hw2 & Hp2).
    exists res2, s2, (ev1 ++ ev2).
    split; [cbn [batch_loop]; unfold bind; rewrite Hrun1; exact Hrun2 |].
    split; [now rewrite Htr2, Htr1, app_assoc |].
    split; [| split; [| split]].
    + rewrite submissions_app.
      destruct Hpay1 as [-> | (t & -> & Ht)]; cbn [app].
      * now apply pays_skip.
      * now apply pays_next.
    + rewrite Hc2, Hc1, accepted_app, length_app. lia.
    + now rewrite Hw2.
    + now rewrite Hp2.
Qed.

(** Whatever the world does while a confirmed batch is sent, the
    transactions handed to the network pay entries of the batch, each entry
    at most once and in the order of the batch, with the address and the
    amount of the entry, on chain 1; the number of successes reported is
    the number of transactions the network accepted; and neither the
    wallets nor the scheduled payments are written. *)
Theorem batch_pays_each_entry_at_most_once (user_id : string)
    (u : option string) (rs : list recipient) (s : state W) :
  let run := process_batch_transaction E user_id u rs s in
  exists evs,
    st_trace (snd run) = st_trace s ++ evs
    /\ pays_in_order rs (submissions evs)
    /\ (forall results, fst run = Ok results ->
          success_count results = Z.of_nat (List.length (accepted evs)))
    /\ wallets (st_db (snd run)) = wallets (st_db s)
    /\ payments_of (snd run) = payments_of s.
Proof.
  assert (forall l, pays_in_order l []) as Hskip.
  { induction l; constructor; assumption. }
  cbv zeta. unfold process_batch_transaction, get_wallet.
  destruct s as [d w tr]. run E.
  - match goal with
    | |- context [batch_loop E ?a ?k ?un ?i ?l ?res ?st] =>
        destruct (batch_loop_pays a k un l i res st)
          as (res2 & s2 & ev2 & Hrun & Htr & Hpay & Hc & Hw & Hp);
        rewrite Hrun
    end.
    simpl_state. cbn [fst snd st_db st_trace] in *.
    exists ([EvReply (RText "processing batch")] ++ ev2
            ++ [EvReply (RBatchResults (Z.of_nat (List.length res2))
                           (success_count res2) (failed_count res2))]).
    split; [rewrite Htr, <- !app_assoc; reflexivity |].
    split; [| split; [| split]].
    + rewrite !submissions_app. cbn. now rewrite app_nil_r.
    + intros results H; injection H as <-.
      rewrite Hc, !accepted_app, !length_app. cbn. lia.
    + exact Hw.
    + exact Hp.
  - exists [EvReply (RText "wallet not found")].
    cbn. repeat split; [apply Hskip | intros results H; now injection H as <-].
  - exists []. cbn. rewrite app_nil_r.
    repeat split; [apply Hskip | intros results H; discriminate H].
Qed.

End Send.

Lemma paid_batch_entry_is_announced_with_its_key_witness :
  let s := start empty_db (quiet 1 rich) in
  let x := BSuccess "@bob" "0.01" "0xhash5" true "addr-of-0xa1" in
  let s' :=
    snd (batch_item world "0xA11CE" "0xkeyA" (Some "alice") 1 newcomer [] s) in
  exists n h,
    x = BSuccess (r_display newcomer) (r_amount newcomer) h
          (r_is_new_wallet newcomer) (r_address newcomer)
    /\ outbox_of (lower (lstrip_at (r_display newcomer))) s'
       = outbox_of (lower (lstrip_at (r_display newcomer))) s ++ [n]
    /\ n_type n = "received_eth" /\ n_tx_hash n = Some h
    /\ n_amount n = r_amount newcomer
    /\ n_new_wallet n = r_is_new_wallet newcomer
    /\ (forall k, r_is_new_wallet newcomer = true ->
                  r_private_key newcomer = Some k ->
                  k <> "" ->
                  n_private_key n = Some k
                  /\ n_wallet_address n = Some (r_address newcomer)).
Proof.
  apply (paid_batch_entry_is_announced_with_its_key world "0xA11CE" "0xkeyA"
           (Some "alice") 1 newcomer []
           (BSuccess "@bob" "0.01" "0xhash5" true "addr-of-0xa1")
           (start empty_db (quiet 1 rich))).
  - reflexivity.
  - vm_compute. reflexivity.
  - reflexivity.
Defined.

(** ** The single payment *)

Lemma ensure_0x_prefix (h : string) : String.prefix "0x" (ensure_0x h) = true.
Proof.
  unfold ensure_0x. destruct (String.prefix "0x" h) eqn:Hp; [exact Hp |].
  apply prefix_0x_append.
Qed.

Section Single.

Context {W : Type} (E : World W).

Lemma lstrip_at_idem (x : string) : lstrip_at (lstrip_at x) = lstrip_at x.
Proof.
  induction x as [| c x IH]; [reflexivity |]. cbn [lstrip_at].
  destruct (Ascii.eqb c "@"%char) eqn:Hc; [exact IH |].
  cbn [lstrip_at]. now rewrite Hc.
Qed.

Lemma pay_spec (u : option string) (w : wallet)
    (recipient_arg amount : string) (amount_wei : Z) (s s' : state W)
    (p : pending_payment) :
  pay E u w recipient_arg amount amount_wei s = (Ok (PayPending p), s') ->
  pp_from_address p = w_address w
  /\ pp_private_key p = w_private_key w
  /\ pp_amount_wei p = amount_wei
  /\ (if starts_with_at recipient_arg
      then pp_display_name p = append "@" (lstrip_at recipient_arg)
           /\ (forall name, u = Some name ->
                            lower (lstrip_at recipient_arg) <> lower name)
           /\ exists n,
                pp_notification p = Some n
                /\ n_type n = "received_eth" /\ n_tx_hash n = None
                /\ n_new_wallet n = pp_is_new_wallet p
                /\ (if pp_is_new_wallet p
                    then exists k,
                           n_private_key n = Some k
                           /\ n_wallet_address n = Some (pp_to_address p)
                           /\ pp_to_address p = address_of_key E k
                           /\ String.prefix "0x" k = true
                    else n_private_key n = None
                         /\ exists rw, In rw (wallets (st_db s))
                                       /\ pp_to_address p = w_address rw)
      else pp_to_address p = recipient_arg
           /\ pp_display_name p = recipient_arg
           /\ is_address E recipient_arg = true
           /\ pp_is_new_wallet p = false
           /\ pp_notification p = None).
Proof.
  unfold pay, pay_guard, is_own_username, get_wallet_by_username,
    get_user_id_by_username, get_wallet, new_wallet_key.
  destruct s as [d w0 tr]. run E.
  all: intros H; try discriminate H.
  all: injection H as <- _.
  all: cbn [pp_from_address pp_private_key pp_amount_wei pp_display_name
            pp_notification pp_is_new_wallet pp_to_address st_db] in *.
  all: try congruence.
  all: repeat (split; [reflexivity |]).
  all: try (repeat split; (reflexivity || assumption)).
  all: split;
         [ intros name0 Hname; injection Hname as <-;
           match goal with
           | Hq : String.eqb _ _ = false |- _ =>
               apply String.eqb_neq in Hq; exact Hq
           end |].
  all: eexists; split; [reflexivity |]; cbn.
  all: repeat (split; [reflexivity |]).
  all: first
         [ eexists; repeat (split; [reflexivity |]);
           exact (prefix_0x_append _)
         | eexists; split; [| reflexivity];
           eauto using find_wallet_some, find_wallet_by_name_some ].
Qed.

(** The request that [/pay] leaves for confirmation is paid from the
    sender's own address with the sender's key and holds the amount asked.
    For a username it is never for the sender's own name; it carries a
    notification without a hash yet; for a user without a wallet it pays
    to the address of a key generated for the occasion, and the
    notification holds that key and that address; for a user with a wallet
    it pays to the address of a stored wallet and the notification holds
    no key.  For a literal address it pays to that address, which passed
    the address check, and carries no notification. *)
Theorem single_payment_is_prepared_for_the_named_recipient
    (u : option string) (w : wallet) (recipient_arg amount : string)
    (amount_wei : Z) (s s' : state W) (p : pending_payment) :
  pay E u w recipient_arg amount amount_wei s = (Ok (PayPending p), s') ->
  pp_from_address p = w_address w
  /\ pp_private_key p = w_private_key w
  /\ pp_amount_wei p = amount_wei
  /\ (if starts_with_at recipient_arg
      then pp_display_name p = append "@" (lstrip_at recipient_arg)
           /\ (forall name, u = Some name ->
                            lower (lstrip_at recipient_arg) <> lower name)
           /\ exists n,
                pp_notification p = Some n
                /\ n_type n = "received_eth" /\ n_tx_hash n = None
                /\ n_new_wallet n = pp_is_new_wallet p
                /\ (if pp_is_new_wallet p
                    then exists k,
                           n_private_key n = Some k
                           /\ n_wallet_address n = Some (pp_to_address p)
                           /\ pp_to_address p = address_of_key E k
                           /\ String.prefix "0x" k = true
                    else n_private_key n = None
                         /\ exists rw, In rw (wallets (st_db s))
                                       /\ pp_to_address p = w_address rw)
      else pp_to_address p = recipient_arg
           /\ pp_display_name p = recipient_arg
           /\ is_address E recipient_arg = true
           /\ pp_is_new_wallet p = false
           /\ pp_notification p = None).
Proof. apply pay_spec. Qed.

Lemma confirm_payment_spec (p : pending_payment)
    (s : state W) :
  let run := confirm_payment E p s in
  let box := lower (lstrip_at (pp_display_name p)) in
  exists evs,
    st_trace (snd run) = st_trace s ++ evs
    /\ (submissions evs = []
        \/ exists t, submissions evs = [t]
                     /\ tx_to t = pp_to_address p
                     /\ tx_value t = pp_amount_wei p /\ tx_chainId t = 1)
    /\ wallets (st_db (snd run)) = wallets (st_db s)
    /\ payments_of (snd run) = payments_of s
    /\ match fst run with
       | Ok (Some h) =>
           String.prefix "0x" h = true
           /\ accepted evs = submissions evs
           /\ List.length (accepted evs) = 1%nat
           /\ match pp_notification p with
              | Some n => outbox_of box (snd run)
                          = outbox_of box s ++ [with_tx_hash h n]
              | None => st_db (snd run) = st_db s
              end
       | Ok None => st_db (snd run) = st_db s
       | Raise _ => st_db (snd run) = st_db s
       end.
Proof.
  cbv zeta. unfold confirm_payment, save_pending_notification.
  destruct s as [d w tr]. run E.
  all: cbn [fst snd st_db st_trace].
  all: eexists; rewrite <- ?app_assoc; cbn [app];
    (split; [first [reflexivity | symmetry; apply app_nil_r] |]).
  all: cbn [submissions accepted List.length wallets payments_of st_db
            scheduled_payments].
  all: split; [first [ left; reflexivity
                     | right; eexists; repeat split ] |].
  all: repeat (split; [reflexivity |]).
  all: try reflexivity.
  all: split; [apply ensure_0x_prefix |]; split; [reflexivity |];
       split; [reflexivity |].
  all: try reflexivity.
  all: cbn [outbox_of st_db pending_notifications].
  all: apply find_pending_push_same.
Qed.

(** A confirmation hands at most one transaction to the network: the one
    of the stored request, to its address, of its amount, on chain 1.  If
    it answers with a confirmation id, that transaction was accepted, the
    id starts with 0x, and the notification of the request, if it has one,
    is now the last entry of the recipient's outbox, holding that id.  If
    it answers with the error message, or raises because a message to the
    chat could not be sent, the database is as it was.  The wallets and
    the scheduled payments are not written on any path. *)
Theorem confirmation_sends_the_prepared_payment (p : pending_payment)
    (s : state W) :
  let run := confirm_payment E p s in
  let box := lower (lstrip_at (pp_display_name p)) in
  exists evs,
    st_trace (snd run) = st_trace s ++ evs
    /\ (submissions evs = []
        \/ exists t, submissions evs = [t]
                     /\ tx_to t = pp_to_address p
                     /\ tx_value t = pp_amount_wei p /\ tx_chainId t = 1)
    /\ wallets (st_db (snd run)) = wallets (st_db s)
    /\ payments_of (snd run) = payments_of s
    /\ match fst run with
       | Ok (Some h) =>
           String.prefix "0x" h = true
           /\ accepted evs = submissions evs
           /\ List.length (accepted evs) = 1%nat
           /\ match pp_notification p with
              | Some n => outbox_of box (snd run)
                          = outbox_of box s ++ [with_tx_hash h n]
              | None => st_db (snd run) = st_db s
              end
       | Ok None => st_db (snd run) = st_db s
       | Raise _ => st_db (snd run) = st_db s
       end.
Proof. apply confirm_payment_spec. Qed.

(** End to end: when [/pay] prepared a payment to a username without a
    wallet and its confirmation answered with a confirmation id, the one
    transaction sent went to the address of a freshly generated key, with
    the amount asked, and the last entry of the recipient's outbox is a
    notification of type received_eth that holds that key, that address
    and the confirmation id. *)
Theorem payment_to_a_new_wallet_leaves_its_key_for_the_recipient
    (u : option string) (w : wallet) (recipient_arg amount : string)
    (amount_wei : Z) (s s1 s2 s3 : state W) (p : pending_payment)
    (h : string) :
  pay E u w recipient_arg amount amount_wei s = (Ok (PayPending p), s1) ->
  pp_is_new_wallet p = true ->
  confirm_payment E p s2 = (Ok (Some h), s3) ->
  let box := lower (lstrip_at recipient_arg) in
  exists k n t evs,
    st_trace s3 = st_trace s2 ++ evs
    /\ submissions evs = [t] /\ accepted evs = [t]
    /\ tx_to t = address_of_key E k /\ tx_value t = amount_wei
    /\ outbox_of box s3 = outbox_of box s2 ++ [n]
    /\ n_type n = "received_eth" /\ n_new_wallet n = true
    /\ n_private_key n = Some k
    /\ n_wallet_address n = Some (address_of_key E k)
    /\ n_tx_hash n = Some h.
Proof.
  intros Hpay Hnew Hconfirm. cbv zeta.
  apply pay_spec in Hpay. destruct Hpay as (_ & _ & Hwei & Hrec).
  destruct (starts_with_at recipient_arg).
  2: { destruct Hrec as (_ & _ & _ & Hold & _). congruence. }
  destruct Hrec as (Hname & _ & n0 & Hnote & Hty & _ & Hnw & Hkey).
  rewrite Hnew in Hkey, Hnw. destruct Hkey as (k & Hk & Haddr & Hto & _).
  pose proof (confirm_payment_spec p s2) as Hspec. cbv zeta in Hspec.
  rewrite Hconfirm in Hspec. cbn [fst snd] in Hspec.
  destruct Hspec as (evs & Htr & Hsub & _ & _ & _ & Hacc & Hlen & Hbox).
  rewrite Hnote, Hname in Hbox.
  replace (lstrip_at (append "@" (lstrip_at recipient_arg)))
    with (lstrip_at recipient_arg) in Hbox
    by (cbn; now rewrite lstrip_at_idem).
  destruct Hsub as [Hsub | (t & Hsub & Ht & Hv & _)].
  { rewrite Hacc, Hsub in Hlen. discriminate Hlen. }
  exists k, (with_tx_hash h n0), t, evs.
  split; [exact Htr |]. split; [exact Hsub |].
  split; [now rewrite Hacc |]. split; [now rewrite Ht |].
  split; [now rewrite Hv |]. split; [exact Hbox |].
  cbn. rewrite Hty, Hnw, Hk, Haddr, Hto. repeat split.
Qed.

End Single.

Lemma single_payment_is_prepared_for_the_named_recipient_witness :
  let s := start empty_db (quiet 1 rich) in
  let n :=
    mk_notification (Some t_ref) "received_eth" "0.01" "alice" None true
      (Some "addr-of-0xa1") (Some "0xa1") (t_ref + 1) in
  let p :=
    mk_pending_payment "0xA11CE" "0xkeyA" "addr-of-0xa1" "@bob" "0.01" 1000
      true (Some n) in
  pp_from_address p = w_address alice
  /\ pp_private_key p = w_private_key alice
  /\ pp_amount_wei p = 1000
  /\ (if starts_with_at "@bob"
      then pp_display_name p = append "@" (lstrip_at "@bob")
           /\ (forall name, Some "alice" = Some name ->
                            lower (lstrip_at "@bob") <> lower name)
           /\ exists n,
                pp_notification p = Some n
                /\ n_type n = "received_eth" /\ n_tx_hash n = None
                /\ n_new_wallet n = pp_is_new_wallet p
                /\ (if pp_is_new_wallet p
                    then exists k,
                           n_private_key n = Some k
                           /\ n_wallet_address n = Some (pp_to_address p)
                           /\ pp_to_address p = address_of_key world k
                           /\ String.prefix "0x" k = true
                    else n_private_key n = None
                         /\ exists rw, In rw (wallets (st_db s))
                                       /\ pp_to_address p = w_address rw)
      else pp_to_address p = "@bob"
           /\ pp_display_name p = "@bob"
           /\ is_address world "@bob" = true
           /\ pp_is_new_wallet p = false
           /\ pp_notification p = None).
Proof.
  apply (single_payment_is_prepared_for_the_named_recipient world
           (Some "alice") alice "@bob" "0.01" 1000
           (start empty_db (quiet 1 rich))
           (snd (pay world (Some "alice") alice "@bob" "0.01" 1000
                   (start empty_db (quiet 1 rich))))).
  vm_compute. reflexivity.
Defined.

Lemma payment_to_a_new_wallet_leaves_its_key_for_the_recipient_witness :
  let s := start empty_db (quiet 1 rich) in
  let asked := pay world (Some "alice") alice "@bob" "0.01" 1000 s in
  let p :=
    mk_pending_payment "0xA11CE" "0xkeyA" "addr-of-0xa1" "@bob" "0.01" 1000
      true
      (Some (mk_notification (Some t_ref) "received_eth" "0.01" "alice" None
               true (Some "addr-of-0xa1") (Some "0xa1") (t_ref + 1))) in
  let s2 := snd asked in
  let s3 := snd (confirm_payment world p s2) in
  let box := lower (lstrip_at "@bob") in
  exists k n t evs,
    st_trace s3 = st_trace s2 ++ evs
    /\ submissions evs = [t] /\ accepted evs = [t]
    /\ tx_to t = address_of_key world k /\ tx_value t = 1000
    /\ outbox_of box s3 = outbox_of box s2 ++ [n]
    /\ n_type n = "received_eth" /\ n_new_wallet n = true
    /\ n_private_key n = Some k
    /\ n_wallet_address n = Some (address_of_key world k)
    /\ n_tx_hash n = Some "0xhash5".
Proof.
  apply (payment_to_a_new_wallet_leaves_its_key_for_the_recipient world
           (Some "alice") alice "@bob" "0.01" 1000
           (start empty_db (quiet 1 rich))
           (snd (pay world (Some "alice") alice "@bob" "0.01" 1000
                   (start empty_db (quiet 1 rich))))
           _ _
           (mk_pending_payment "0xA11CE" "0xkeyA" "addr-of-0xa1" "@bob"
              "0.01" 1000 true
              (Some (mk_notification (Some t_ref) "received_eth" "0.01"
                       "alice" None true (Some "addr-of-0xa1") (Some "0xa1")
                       (t_ref + 1))))
           "0xhash5").
  - vm_compute. reflexivity.
  - reflexivity.
  - vm_compute. reflexivity.
Defined.

(** ** The drain when nothing fails *)

Lemma hand_offs_app (a b : list event) :
  hand_offs (a ++ b) = hand_offs a ++ hand_offs b.
Proof.
  induction a as [| [? ? | ? ? | ? ? ? | ?] a IH]; cbn; rewrite ?IH; reflexivity.
Qed.

Lemma filter_kept_one (i : datetime) (l : list notification) :
  (forall m, In m l -> n_id m <> Some i) -> filter (kept [i]) l = l.
Proof.
  intros Hne. induction l as [| m l IH]; [reflexivity |].
  cbn [filter]. unfold kept at 1. cbn [existsb]. unfold has_id.
  destruct (n_id m) as [j |] eqn:Hj.
  - destruct (j =? i) eqn:Hji.
    + apply Z.eqb_eq in Hji. subst j. exfalso.
      apply (Hne m); [now left | exact Hj].
    + cbn. rewrite IH; [reflexivity |]. intros m' Hin. apply Hne. now right.
  - cbn. rewrite IH; [reflexivity |]. intros m' Hin. apply Hne. now right.
Qed.

Lemma pull_the_one (i : datetime) (n : notification)
    (pre rest : list notification) :
  n_id n = Some i ->
  NoDup (map n_id (pre ++ n :: rest)) ->
  filter (kept [i]) (pre ++ n :: rest) = pre ++ rest.
Proof.
  intros Hid Hnd.
  assert (kept [i] n = false) as Hn.
  { unfold kept, has_id. cbn [existsb]. rewrite Hid, Z.eqb_refl. reflexivity. }
  rewrite filter_app. cbn [filter]. rewrite Hn.
  rewrite map_app in Hnd. cbn [map] in Hnd.
  apply NoDup_remove_2 in Hnd. rewrite Hid in Hnd.
  rewrite !filter_kept_one; [reflexivity | |].
  - intros m Hin Hm. apply Hnd. apply in_or_app. right.
    rewrite <- Hm. now apply in_map.
  - intros m Hin Hm. apply Hnd. apply in_or_app. left.
    rewrite <- Hm. now apply in_map.
Qed.

Section Reliable.

Context {W : Type} (E : World W).

Hypothesis database_answers : forall w, fst (mongo E w) = Ok tt.
Hypothesis transport_delivers :
  forall chat_id n w, fst (send_message E chat_id n w) = Ok tt.

Lemma drain_reliable (chat_id username : string) (ns : list notification) :
  forall (pre : list notification) (s : state W),
    outbox_of (lower username) s = pre ++ ns ->
    NoDup (map n_id (pre ++ ns)) ->
    Forall (fun n => n_id n <> None) ns ->
    exists s' evs,
      drain E chat_id username ns s = (Ok tt, s')
      /\ st_trace s' = st_trace s ++ evs
      /\ hand_offs evs = filter deliverable ns
      /\ outbox_of (lower username) s'
         = pre ++ filter (fun n => negb (deliverable n)) ns.
Proof.
  induction ns as [| n rest IH]; intros pre s Hbox Hnd Hids.
  - exists s, []. cbn. rewrite !app_nil_r in *. repeat split. exact Hbox.
  - apply Forall_cons_iff in Hids. destruct Hids as [Hn Hids].
    destruct (n_id n) as [i |] eqn:Hid; [| congruence].
    unfold deliverable in *.
    cbn [drain filter]. unfold remove_pending_notification.
    rewrite Hid. destruct s as [d w tr]. run E.
    all: try match goal with
           | H : mongo E ?w = (Raise _, _) |- _ =>
               pose proof (database_answers w) as Hc; rewrite H in Hc;
               discriminate Hc
           | H : send_message E ?c ?m ?w = (Raise _, _) |- _ =>
               pose proof (transport_delivers c m w) as Hc; rewrite H in Hc;
               discriminate Hc
           end.
    all: try match goal with
           | H : negb _ = _ |- _ => cbn in H; discriminate H
           end.
    + (* handed off and pulled *)
      match goal with
      | |- context [drain E chat_id username rest ?st] =>
          destruct (IH pre st) as (s' & evs & Hrun & Htr & Hho & Hout)
      end.
      * cbn [outbox_of st_db pending_notifications] in *.
        rewrite find_pending_pull, Hbox. now apply pull_the_one.
      * rewrite map_app in *. cbn [map] in Hnd.
        apply NoDup_remove_1 in Hnd. exact Hnd.
      * exact Hids.
      * exists s'. eexists. split; [exact Hrun |].
        cbn [st_trace] in Htr. rewrite Htr, <- app_assoc. cbn [app].
        split; [reflexivity |]. cbn [hand_offs negb]. rewrite Hho, Hout.
        split; reflexivity.
    + (* of another type: left in place *)
      match goal with
      | |- context [drain E chat_id username rest ?st] =>
          destruct (IH (pre ++ [n]) st) as (s' & evs & Hrun & Htr & Hho & Hout)
      end.
      * cbn [outbox_of st_db pending_notifications] in *.
        rewrite Hbox, <- app_assoc. reflexivity.
      * rewrite <- app_assoc. exact Hnd.
      * exact Hids.
      * exists s', evs. split; [exact Hrun |]. split; [exact Htr |].
        split; [exact Hho |]. cbn [negb]. rewrite Hout, <- app_assoc.
        reflexivity.
Qed.

(** With a database and a chat transport that do not fail, one drain of an
    outbox whose entries carry distinct ids hands every entry of type
    received_eth to the transport exactly once, in the order of the outbox,
    and leaves in the outbox exactly the entries of other types. *)
Theorem reliable_drain_delivers_each_entry_once (chat_id u : string)
    (s : state W) :
  u <> "" ->
  NoDup (map n_id (outbox_of (lower u) s)) ->
  Forall (fun n => n_id n <> None) (outbox_of (lower u) s) ->
  let pending := outbox_of (lower u) s in
  let run := check_pending_notifications E chat_id (Some u) s in
  fst run = Ok tt
  /\ exists evs,
       st_trace (snd run) = st_trace s ++ evs
       /\ hand_offs evs = filter deliverable pending
       /\ outbox_of (lower u) (snd run)
          = filter (fun n => negb (deliverable n)) pending.
Proof.
  intros Hu Hnd Hids. cbv zeta.
  assert (is_empty u = false) as Hne by (destruct u; [congruence | reflexivity]).
  unfold check_pending_notifications, get_pending_notifications.
  rewrite Hne. destruct s as [d w tr]. simpl_state.
  destruct (mongo E w) as [[[] | e] w1] eqn:Hm.
  2: { pose proof (database_answers w) as Hc. rewrite Hm in Hc.
       discriminate Hc. }
  simpl_state. rewrite lower_idem.
  destruct (drain_reliable chat_id (lower u)
              (find_pending (lower u) (pending_notifications d)) []
              (mk_state d w1 tr))
    as (s' & evs & Hrun & Htr & Hho & Hout).
  - cbn [outbox_of st_db]. now rewrite lower_idem.
  - exact Hnd.
  - exact Hids.
  - rewrite Hrun. cbn [fst snd]. split; [reflexivity |].
    exists evs. rewrite lower_idem in Hout. now repeat split.
Qed.

Lemma batch_item_reliable (from_address key : string) (u : option string)
    (i : Z) (r : recipient) (results results' : list batch_result)
    (s s' : state W) :
  batch_item E from_address key u i r results s = (Ok results', s') ->
  exists x, results' = results ++ [x]
            /\ result_name x = r_display r /\ result_amount x = r_amount r.
Proof.
  unfold batch_item, save_pending_notification.
  destruct s as [d w tr]. run E.
  all: try match goal with
         | H : mongo E ?w = (Raise _, _) |- _ =>
             pose proof (database_answers w) as Hc; rewrite H in Hc;
             discriminate Hc
         end.
  all: intros H; injection H as <- _.
  all: eexists; split; [reflexivity | split; reflexivity].
Qed.

Lemma batch_loop_reliable (from_address key : string) (u : option string)
    (rs : list recipient) :
  forall (i : Z) (results results' : list batch_result) (s s' : state W),
    batch_loop E from_address key u i rs results s = (Ok results', s') ->
    exists xs, results' = results ++ xs
               /\ Forall2 (fun r x => result_name x = r_display r
                                      /\ result_amount x = r_amount r) rs xs.
Proof.
  induction rs as [| r rs IH]; intros i results results' s s'.
  - cbn. intros H; injection H as <- _. exists []. rewrite app_nil_r.
    split; [reflexivity | constructor].
  - cbn [batch_loop]. unfold bind at 1.
    destruct (batch_item E from_address key u i r results s)
      as [[res1 | e] s1] eqn:Hitem; [| discriminate].
    apply batch_item_reliable in Hitem. destruct Hitem as (x & -> & Hx).
    intros Hrest. apply IH in Hrest. destruct Hrest as (xs & -> & Hxs).
    exists (x :: xs). rewrite <- app_assoc. split; [reflexivity |].
    now constructor.
Qed.

(** With a database that does not fail, the results of a confirmed batch
    of a user who has a wallet list the entries of the batch one for one,
    in their order, each under the name and the amount of its entry. *)
Theorem reliable_batch_reports_each_entry_once (user_id : string)
    (u : option string) (rs : list recipient) (results : list batch_result)
    (sender : wallet) (s s' : state W) :
  find_wallet user_id (wallets (st_db s)) = Some sender ->
  process_batch_transaction E user_id u rs s = (Ok results, s') ->
  Forall2 (fun r x => result_name x = r_display r
                      /\ result_amount x = r_amount r) rs results.
Proof.
  intros Hw. unfold process_batch_transaction, get_wallet.
  destruct s as [d w tr]. cbn [st_db] in Hw. simpl_state.
  destruct (mongo E w) as [[[] | e] w1]; simpl_state; [| discriminate].
  rewrite Hw. simpl_state.
  match goal with
  | |- context [batch_loop E ?a ?k ?un ?i ?l ?res ?st] =>
      destruct (batch_loop E a k un i l res st) as [[res2 | e] s2] eqn:Hloop
  end; simpl_state; [| discriminate].
  intros H; injection H as <- _.
  apply batch_loop_reliable in Hloop. destruct Hloop as (xs & -> & Hxs).
  exact Hxs.
Qed.

End Reliable.

Lemma reliable_drain_delivers_each_entry_once_witness :
  let s := start db_outbox (quiet 1 rich) in
  let pending := outbox_of (lower "Bob") s in
  let run := check_pending_notifications steady "2002" (Some "Bob") s in
  fst run = Ok tt
  /\ exists evs,
       st_trace (snd run) = st_trace s ++ evs
       /\ hand_offs evs = filter deliverable pending
       /\ outbox_of (lower "Bob") (snd run)
          = filter (fun n => negb (deliverable n)) pending.
Proof.
  apply (reliable_drain_delivers_each_entry_once steady).
  - intros w. reflexivity.
  - intros chat_id n w. reflexivity.
  - discriminate.
  - vm_compute. repeat constructor; cbn; intuition discriminate.
  - vm_compute. repeat constructor; discriminate.
Defined.

Lemma reliable_batch_reports_each_entry_once_witness :
  let s := start empty_db (with_submit [true; false] (quiet 1 rich)) in
  let results :=
    [BSuccess "0xCA401" "0.01" "0xhash5" false "0xCA401";
     BFailed "@bob" "0.01" "submission refused"] in
  Forall2 (fun r x => result_name x = r_display r
                      /\ result_amount x = r_amount r) [carol; bob] results.
Proof.
  apply (reliable_batch_reports_each_entry_once steady
           (fun w => eq_refl) "1001" (Some "alice") [carol; bob] _ alice
           (start empty_db (with_submit [true; false] (quiet 1 rich)))
           (snd (process_batch_transaction steady "1001" (Some "alice")
                   [carol; bob]
                   (start empty_db
                      (with_submit [true; false] (quiet 1 rich)))))).
  - reflexivity.
  - vm_compute. reflexivity.
Defined.

(** ** The wallet commands *)

Lemma find_set_wallet_fields_same (user_id address key : string)
    (username : option string) (ws : list wallet) :
  exists w',
    find_wallet user_id (set_wallet_fields user_id address key username ws)
    = Some w'
    /\ w_user_id w' = user_id /\ w_address w' = address
    /\ w_private_key w' = key
    /\ w_username w'
       = match username with
         | Some u => Some u
         | None => match find_wallet user_id ws with
                   | Some x => w_username x
                   | None => None
                   end
         end.
Proof.
  induction ws as [| x ws IH]; cbn [set_wallet_fields find_wallet w_user_id].
  - rewrite String.eqb_refl. eexists. split; [reflexivity |].
    destruct username; repeat split.
  - destruct (String.eqb (w_user_id x) user_id) eqn:Hx;
      cbn [find_wallet w_user_id].
    + rewrite String.eqb_refl. eexists. split; [reflexivity |].
      destruct username; repeat split.
    + rewrite Hx. exact IH.
Qed.

Lemma find_set_wallet_fields_other (user_id other address key : string)
    (username : option string) (ws : list wallet) :
  other <> user_id ->
  find_wallet other (set_wallet_fields user_id address key username ws)
  = find_wallet other ws.
Proof.
  intros Hne. induction ws as [| x ws IH]; cbn [set_wallet_fields find_wallet w_user_id].
  - destruct (String.eqb user_id other) eqn:Hu; [| reflexivity].
    apply String.eqb_eq in Hu. congruence.
  - destruct (String.eqb (w_user_id x) user_id) eqn:Hx;
      cbn [find_wallet w_user_id].
    + apply String.eqb_eq in Hx. rewrite Hx.
      destruct (String.eqb user_id other) eqn:Hu; [| reflexivity].
      apply String.eqb_eq in Hu. congruence.
    + destruct (String.eqb (w_user_id x) other); [reflexivity | exact IH].
Qed.

Section Wallets.

Context {W : Type} (E : World W).

Lemma drain_frame (chat_id username : string) (ns : list notification) :
  forall s : state W,
    wallets (st_db (snd (drain E chat_id username ns s))) = wallets (st_db s)
    /\ payments_of (snd (drain E chat_id username ns s)) = payments_of s
    /\ fst (drain E chat_id username ns s) = Ok tt.
Proof.
  induction ns as [| n rest IH]; intros s.
  - cbn. repeat split.
  - cbn [drain]. unfold remove_pending_notification.
    destruct s as [d w tr]. run E.
    all: match goal with
         | |- context [drain E ?c ?u ?l ?st] =>
             destruct (IH st) as (Hw & Hp & Hok);
             destruct (drain E c u l st) as [r s1]
         end.
    all: cbn [fst snd st_db wallets payments_of scheduled_payments] in *.
    all: subst r; repeat split; assumption.
Qed.

Lemma check_pending_notifications_frame (chat_id : string)
    (username : option string) (s : state W) :
  wallets (st_db (snd (check_pending_notifications E chat_id username s)))
  = wallets (st_db s)
  /\ payments_of (snd (check_pending_notifications E chat_id username s))
     = payments_of s.
Proof.
  unfold check_pending_notifications, get_pending_notifications.
  destruct s as [d w tr]. destruct username as [u |]; [| now split].
  run E; try now split.
  match goal with
  | |- context [drain E ?c ?u ?l ?st] =>
      destruct (drain_frame c u l st) as (Hw & Hp & _)
  end.
  split; assumption.
Qed.

Lemma update_username_mapping_frame (user_id : string)
    (username : option string) (s : state W) :
  wallets (st_db (snd (update_username_mapping E user_id username s)))
  = wallets (st_db s)
  /\ payments_of (snd (update_username_mapping E user_id username s))
     = payments_of s.
Proof.
  unfold update_username_mapping. destruct s as [d w tr].
  destruct username as [u |]; [| now split].
  run E; now split.
Qed.

(** The preamble the commands share: the username mapping is refreshed and,
    unless the call came from a button, the outbox is drained. *)
Lemma preamble_frame (user_id : string) (username : option string)
    (via_button : bool) (s : state W) :
  let run :=
    (update_username_mapping E user_id username ;;;
     if via_button then ret tt
     else check_pending_notifications E user_id username) s in
  wallets (st_db (snd run)) = wallets (st_db s)
  /\ payments_of (snd run) = payments_of s.
Proof.
  cbv zeta. unfold bind.
  destruct (update_username_mapping_frame user_id username s) as [Hw Hp].
  destruct (update_username_mapping E user_id username s) as [[[] | e] s1];
    cbn [fst snd] in *; [| now split].
  destruct via_button; [now split |].
  destruct (check_pending_notifications_frame user_id username s1)
    as [Hw2 Hp2].
  rewrite Hw2, Hp2. now split.
Qed.

Lemma split_preamble {A} (user_id : string) (username : option string)
    (via_button : bool) (k : M W A) (s : state W) :
  (update_username_mapping E user_id username ;;;
   (if via_button then ret tt
    else check_pending_notifications E user_id username) ;;;
   k) s
  = match (update_username_mapping E user_id username ;;;
           if via_button then ret tt
           else check_pending_notifications E user_id username) s with
    | (Ok _, s1) => k s1
    | (Raise e, s1) => (Raise e, s1)
    end.
Proof.
  unfold bind.
  destruct (update_username_mapping E user_id username s) as [[[] | e] s1];
    [| reflexivity].
  destruct via_button; [reflexivity |].
  destruct (check_pending_notifications E user_id username s1)
    as [[[] | e] s2]; reflexivity.
Qed.

Lemma find_wallet_new (user_id address key : string)
    (username : option string) (ws : list wallet) :
  find_wallet user_id ws = None ->
  find_wallet user_id (set_wallet_fields user_id address key username ws)
  = Some (mk_wallet user_id address key username).
Proof.
  intros Hnone.
  destruct (find_set_wallet_fields_same user_id address key username ws)
    as (w' & Hfind & Hid & Ha & Hk & Hu).
  rewrite Hfind. rewrite Hnone in Hu. destruct w' as [i a k un].
  cbn in *. subst. destruct username; reflexivity.
Qed.

(** [/create] stores a wallet only for a user who had none, and then one
    wallet: the key it generated, which starts with 0x, with the address
    of that key, under the user's id, every other user's wallet being left
    as it was.  When it answers with a new wallet, that wallet is stored;
    when it answers that a wallet exists, the wallets are as they were;
    when it raises, the wallets are as they were or the new wallet is
    stored, the wallet being saved before the messages that show it are
    sent.  However it ends, a wallet that exists is not replaced and the
    scheduled payments are not written. *)
Theorem create_wallet_writes_one_new_wallet (user_id : string)
    (username : option string) (via_button : bool) (s : state W) :
  let run := create_wallet E user_id username via_button s in
  let created (address key : string) :=
    find_wallet user_id (wallets (st_db s)) = None
    /\ find_wallet user_id (wallets (st_db (snd run)))
       = Some (mk_wallet user_id address key (truthy username))
    /\ address = address_of_key E key
    /\ String.prefix "0x" key = true
    /\ forall other, other <> user_id ->
         find_wallet other (wallets (st_db (snd run)))
         = find_wallet other (wallets (st_db s)) in
  match fst run with
  | Ok (Some (address, key)) => created address key
  | Ok None => wallets (st_db (snd run)) = wallets (st_db s)
  | Raise _ =>
      wallets (st_db (snd run)) = wallets (st_db s)
      \/ exists address key, created address key
  end
  /\ payments_of (snd run) = payments_of s.
Proof.
  cbv zeta. unfold create_wallet. rewrite split_preamble.
  destruct (preamble_frame user_id username via_button s) as [Hw Hp].
  cbv zeta in Hw, Hp.
  destruct ((update_username_mapping E user_id username ;;;
             (if via_button then ret tt
              else check_pending_notifications E user_id username)) s)
    as [[[] | e] s1]; cbn [fst snd] in *; [| split; [now left | assumption]].
  rewrite <- Hw, <- Hp. clear Hw Hp.
  unfold get_wallet, new_wallet_key, save_wallet_data.
  destruct s1 as [d w tr]. run E.
  all: cbn [fst snd st_db wallets payments_of scheduled_payments].
  all: try (split; reflexivity).
  all: split; [| reflexivity].
  all: try (left; reflexivity).
  all: try (right; eexists; eexists).
  all: split; [reflexivity |].
  all: split; [now apply find_wallet_new |].
  all: split; [reflexivity |].
  all: split; [exact (prefix_0x_append _) |].
  all: intros other Hne; now apply find_set_wallet_fields_other.
Qed.


(** [/import] writes the wallets collection only to put the wallet of its
    first argument under the caller's id: the key is that argument, starts
    with 0x, is 66 characters long and was accepted by the key check; the
    wallet stored under the user's id then has that key and the address
    of that key, whether or not the user had a wallet before; every other
    user's wallet is as it was.  When it answers with the imported wallet,
    that is what it did.  When it answers with another message, or
    raises, the wallets are as they were or the import took place all the
    same, the wallet being saved before the success message is sent.
    However it ends, the scheduled payments are not written. *)
Theorem import_wallet_replaces_the_wallet_of_the_caller
    (key_ok : string -> bool) (user_id : string) (username : option string)
    (args : list string) (s : state W) :
  let run := import_wallet E key_ok user_id username args s in
  let imported (address key : string) :=
    (exists rest, args = key :: rest)
    /\ String.prefix "0x" key = true
    /\ String.length key = 66%nat
    /\ key_ok key = true
    /\ address = address_of_key E key
    /\ (exists w', find_wallet user_id (wallets (st_db (snd run))) = Some w'
                   /\ w_address w' = address /\ w_private_key w' = key)
    /\ forall other, other <> user_id ->
         find_wallet other (wallets (st_db (snd run)))
         = find_wallet other (wallets (st_db s)) in
  match fst run with
  | Ok (Some (address, key)) => imported address key
  | _ =>
      wallets (st_db (snd run)) = wallets (st_db s)
      \/ exists address key, imported address key
  end
  /\ payments_of (snd run) = payments_of s.
Proof.
  cbv zeta. unfold import_wallet.
  match goal with
  | |- context [(_ ;;; _ ;;; ?k)%monad s] =>
      replace ((update_username_mapping E user_id username ;;;
                check_pending_notifications E user_id username ;;; k)%monad s)
        with (match (update_username_mapping E user_id username ;;;
                     if false then ret tt
                     else check_pending_notifications E user_id username) s
              with
              | (Ok _, s1) => k s1
              | (Raise e, s1) => (Raise e, s1)
              end)
        by (symmetry; exact (split_preamble user_id username false k s))
  end.
  destruct (preamble_frame user_id username false s) as [Hw Hp].
  cbv zeta in Hw, Hp.
  destruct ((update_username_mapping E user_id username ;;;
             (if false then ret tt
              else check_pending_notifications E user_id username)) s)
    as [[[] | e] s1]; cbn [fst snd] in *; [| split; [now left | assumption]].
  rewrite <- Hw, <- Hp. clear Hw Hp.
  unfold save_wallet_data.
  destruct s1 as [d w tr]. destruct args as [| private_key rest]; run E.
  all: cbn [fst snd st_db wallets payments_of scheduled_payments].
  all: split; [| reflexivity].
  all: try (left; reflexivity).
  all: try (right; eexists; eexists).
  all: match goal with
       | H : _ || _ = false |- _ =>
           apply orb_false_elim in H; destruct H as [Hpre Hlen];
           apply negb_false_iff in Hpre, Hlen; apply Nat.eqb_eq in Hlen
       end.
  all: split; [now exists rest |]; split; [exact Hpre |];
       split; [exact Hlen |]; split; [assumption |]; split; [reflexivity |];
       split;
       [ destruct (find_set_wallet_fields_same user_id
                     (address_of_key E private_key) private_key
                     (truthy username) (wallets d))
           as (w' & Hfind & _ & Ha & Hk & _);
         exists w'; now repeat split
       | intros other Hne; now apply find_set_wallet_fields_other ].
Qed.

(** [/start] never creates a wallet and never changes the address or the
    key of one: the caller's wallet, if there is one, keeps both and has at
    most its username refreshed to the one the caller now has; every other
    user's wallet is as it was; the scheduled payments are not written. *)
Theorem start_keeps_every_wallet (user_id : string)
    (username : option string) (s : state W) :
  let run := start_command E user_id username s in
  (forall other, other <> user_id ->
     find_wallet other (wallets (st_db (snd run)))
     = find_wallet other (wallets (st_db s)))
  /\ match find_wallet user_id (wallets (st_db s)) with
     | None => find_wallet user_id (wallets (st_db (snd run))) = None
     | Some w0 =>
         exists w1,
           find_wallet user_id (wallets (st_db (snd run))) = Some w1
           /\ w_address w1 = w_address w0
           /\ w_private_key w1 = w_private_key w0
           /\ (w_username w1 = w_username w0
               \/ (w_username w1 = username /\ truthy username = username))
     end
  /\ payments_of (snd run) = payments_of s.
Proof.
  cbv zeta. unfold start_command, update_username_mapping, get_wallet,
    save_wallet_data, set_mapping.
  destruct s as [d w tr].
  destruct username as [v |]; cbn [truthy];
    [destruct (is_empty v) eqn:Hv |].
  all: run E.
  all: try match goal with
         | |- context [check_pending_notifications E ?c ?un ?st] =>
             destruct (check_pending_notifications_frame c un st) as [Hw Hp];
             destruct (check_pending_notifications E c un st)
               as [[[] | ?] ?]
         end.
  all: simpl_state.
  all: cbn [fst snd st_db wallets payments_of scheduled_payments] in *.
  all: rewrite ?Hw, ?Hp.
  all: split; [intros other Hne;
               rewrite ?find_set_wallet_fields_other by exact Hne;
               reflexivity |].
  all: split; [| reflexivity].
  all: try match goal with
         | |- context [set_wallet_fields ?i ?a ?k ?un ?ws] =>
             destruct (find_set_wallet_fields_same i a k un ws)
               as (w' & Hfind & _ & Ha & Hk & Hn);
             exists w'; split; [exact Hfind |]; split; [exact Ha |];
             split; [exact Hk |]; right; split; [exact Hn | reflexivity]
         end.
  all: try match goal with
         | H : find_wallet _ _ = Some ?w0 |- _ =>
             rewrite ?H; exists w0; repeat split; now left
         end.
  all: try match goal with
         | |- match ?x with Some _ => _ | None => _ end =>
             destruct x eqn:Hx; [eexists; repeat split; now left | reflexivity]
         end.
  all: try assumption; try reflexivity.
Qed.

Lemma split_preamble_try {A} (user_id : string) (username : option string)
    (via_button : bool) (k : M W A) (h : string -> M W A) (s : state W) :
  try_except
    (update_username_mapping E user_id username ;;;
     (if via_button then ret tt
      else check_pending_notifications E user_id username) ;;;
     k) h s
  = match (update_username_mapping E user_id username ;;;
           if via_button then ret tt
           else check_pending_notifications E user_id username) s with
    | (Ok _, s1) => try_except k h s1
    | (Raise e, s1) => h e s1
    end.
Proof.
  unfold try_except, bind.
  destruct (update_username_mapping E user_id username s) as [[[] | e] s1];
    [| reflexivity].
  destruct via_button; [reflexivity |].
  destruct (check_pending_notifications E user_id username s1)
    as [[[] | e] s2]; reflexivity.
Qed.

(** The payments that [/scheduled] lists when it answers, each with a
    cancel button, are either none or exactly the caller's own active
    payments, in the order of the collection: it never lists a payment of
    another user or one that was cancelled.  Whether it answers or raises,
    the apology of its catch-all [except] being a message that may not go
    through, it writes neither the scheduled payments nor the wallets. *)
Theorem listing_shows_the_active_payments_of_the_caller (user_id : string)
    (username : option string) (via_button : bool) (s : state W) :
  let run := manage_scheduled_payments E user_id username via_button s in
  (forall ids,
     fst run = Ok ids ->
     ids = []
     \/ ids = map p_id
                (filter active
                   (filter (fun p => String.eqb (sender_id p) user_id)
                      (payments_of s))))
  /\ payments_of (snd run) = payments_of s
  /\ wallets (st_db (snd run)) = wallets (st_db s).
Proof.
  cbv zeta. unfold manage_scheduled_payments. rewrite split_preamble_try.
  destruct (preamble_frame user_id username via_button s) as [Hw Hp].
  cbv zeta in Hw, Hp.
  destruct ((update_username_mapping E user_id username ;;;
             (if via_button then ret tt
              else check_pending_notifications E user_id username)) s)
    as [[[] | e] s1]; cbn [fst snd] in *.
  2: { destruct s1 as [d w tr]. run E.
       all: cbn [fst snd st_db wallets payments_of scheduled_payments] in *.
       all: split; [| now split].
       all: intros ids H; try discriminate H.
       all: injection H as <-; now left. }
  rewrite <- Hw, <- Hp. clear Hw Hp.
  unfold get_scheduled_payments. destruct s1 as [d w tr]. run E.
  all: repeat match goal with
         | |- context [match ?l with [] => _ | _ :: _ => _ end] =>
             destruct l eqn:?; run E
         end.
  all: cbn [fst snd st_db wallets payments_of scheduled_payments filter map].
  all: split; [| split; reflexivity].
  all: intros ids H; try discriminate H.
  all: injection H as <-.
  all: try (left; reflexivity).
  all: try (right; reflexivity).
  all: match goal with
       | H : filter active [] = _ :: _ |- _ => cbn in H; discriminate H
       end.
Qed.

End Wallets.

(** *** The paths on which a message to the chat does not go through *)

(** [/create] stored the wallet and raised: the message that shows the key
    did not go through. *)
Lemma create_wallet_may_raise_after_saving :
  let s := start empty_db (with_replies [false] (quiet 1 rich)) in
  let run := create_wallet world "2002" (Some "bob") false s in
  fst run = Raise "NetworkError"
  /\ find_wallet "2002" (wallets (st_db s)) = None
  /\ find_wallet "2002" (wallets (st_db (snd run)))
     = Some (mk_wallet "2002" "addr-of-0xa1" "0xa1" (Some "bob")).
Proof. vm_compute. repeat split. Qed.

(** [/import] replaced the wallet and answered with its error message: the
    success message did not go through. *)
Lemma import_wallet_may_answer_error_after_saving :
  let key :=
    "0x1234567890123456789012345678901234567890123456789012345678901234" in
  let s := start empty_db (with_replies [true; false] (quiet 1 rich)) in
  let run := import_wallet world (fun _ => true) "1001" (Some "alice") [key] s in
  fst run = Ok None
  /\ st_trace (snd run)
     = [EvReply (RText "importing your wallet");
        EvReply (RText "error importing wallet")]
  /\ find_wallet "1001" (wallets (st_db s)) = Some alice
  /\ find_wallet "1001" (wallets (st_db (snd run)))
     = Some (mk_wallet "1001" (append "addr-of-" key) key (Some "alice")).
Proof. vm_compute. repeat split. Qed.

(** A confirmation whose transaction was accepted answered with its error
    message: the success message did not go through. *)
Lemma confirmation_may_answer_error_after_paying :
  let p :=
    mk_pending_payment "0xA11CE" "0xkeyA" "0xB0B" "0xB0B" "0.01" 1000 false
      None in
  let s := start empty_db (with_replies [true; true; false] (quiet 1 rich)) in
  let run := confirm_payment world p s in
  fst run = Ok None
  /\ map tx_to (accepted (st_trace (snd run))) = ["0xB0B"].
Proof. vm_compute. split; reflexivity. Qed.

(** [/scheduled] raised: neither the listing nor the apology went
    through. *)
Lemma listing_may_raise :
  let s :=
    start (db_with [rent]) (with_replies [false; false] (quiet 1 rich)) in
  fst (manage_scheduled_payments world "1001" (Some "alice") false s)
  = Raise "NetworkError".
Proof. vm_compute. reflexivity. Qed.
